(** * METR-Compilation: a shallow embedding of the plotting scripts

    The repository holds four independent scripts (ACARS sounding, HRRR
    meteogram, RAOB cross-section, Warning/LSR map).  Each one downloads
    data, reshapes it into a table, evaluates a few formulas and plots.

    This development embeds the parts of the scripts that carry
    behaviour of their own:

    - [Py]             values, exceptions, indexing and the [str]
                       methods the scripts call;
    - [Meteogram]      [roundup] and [rounddown], on doubles;
    - [Numpy]          [np.arange], [np.linspace], [np.meshgrid],
                       [np.interp] and mask assignment;
    - [Raob]           [vertical_interpolate] and the grids of
                       [radisonde_cross_section];
    - [Frame], [MeteogramTable]
                       the altitude filter and the forecast time column;
    - [Acars]          the parser of the [%RAW%] ... [%END%] block;
    - [Lsr]            the conversion and plotting loops of the wind
                       reports;
    - [Net]            the outbound calls of the scripts;
    - [Props]          the vocabulary of the statements;
    - [MeteogramAxes]  rows of point data for the instances;
    - [Dict], [RaobStations]
                       the loop of [radisonde_cross_section] over keys
                       and stations;
    - [AcarsTitle]     the titles read from the URL, and column access;
    - [AcarsRun]       the ACARS script from the fetch to the figure;
    - [LsrWarnings]    the warning polygons and the legend.

    The facts follow the definitions.

    Conventions.  Where a script only stores and compares numbers, a
    Python [float] is a rational ([Q]) extended with the infinities and
    NaN; where it takes logarithms and interpolates it is idealised as
    a real number ([R]), without rounding, infinities or NaN; where it
    rounds a temperature to an axis limit it is the IEEE 754 binary64
    value itself, with the correctly rounded sum and quotient of the
    processor.  An integer of [np.arange] is unbounded, which is exact
    as long as the levels fit the 64-bit integers of numpy.  An
    exception is a value of [exn]; a computation that may raise has
    type [result A].  Readers of numerals that belong to a library
    ([float], [pd.to_numeric]) and the calls into MetPy and matplotlib
    are parameters of the definitions that call them. *)

From Stdlib Require Import Ascii String.
From Stdlib Require Import List Finite ZArith QArith Reals Lra Lia Bool Arith.
From Stdlib Require PrimFloat SpecFloat FloatOps.
Import ListNotations.

(* ================================================================== *)
(** * Python values and exceptions *)
(* ================================================================== *)

Module Py.

(** The exceptions the embedded code can raise. *)
Inductive exn : Type :=
| ValueError
| NameError
| TypeError
| IndexError
| KeyError
| ZeroDivisionError
| OverflowError
| IOError.

(** A computation either raises or returns. *)
Inductive result (A : Type) : Type :=
| Raise (e : exn)
| Ok (a : A).
Arguments Raise {A} e.
Arguments Ok {A} a.

Definition bind {A B} (m : result A) (k : A -> result B) : result B :=
  match m with
  | Raise e => Raise e
  | Ok a => k a
  end.

Definition exn_eqb (a b : exn) : bool :=
  match a, b with
  | ValueError, ValueError | NameError, NameError | TypeError, TypeError
  | IndexError, IndexError | KeyError, KeyError
  | ZeroDivisionError, ZeroDivisionError | OverflowError, OverflowError
  | IOError, IOError => true
  | _, _ => false
  end.

(** [try: m except e: h]: the handler runs only for the named exception;
    any other exception propagates. *)
Definition try_except {A} (m : result A) (e : exn) (h : result A) : result A :=
  match m with
  | Raise e' => if exn_eqb e e' then h else Raise e'
  | Ok a => Ok a
  end.

(** A [float]: a finite value, an infinity or NaN. *)
Inductive pyfloat : Type :=
| Fin (q : Q)
| PosInf
| NegInf
| NaN.

(** [a > b] on floats; every comparison with NaN is false. *)
Definition float_gt (a b : pyfloat) : bool :=
  match a, b with
  | Fin x, Fin y => negb (Qle_bool x y)
  | Fin _, NegInf => true
  | PosInf, Fin _ | PosInf, NegInf => true
  | _, _ => false
  end.

(** [a != b] on floats; NaN differs from everything, itself included. *)
Definition float_ne (a b : pyfloat) : bool :=
  match a, b with
  | Fin x, Fin y => negb (Qeq_bool x y)
  | PosInf, PosInf | NegInf, NegInf => false
  | _, _ => true
  end.

(** A [str] is a sequence of code points. *)
Definition pystr : Type := list N.

Definition str (s : string) : pystr :=
  map N_of_ascii (list_ascii_of_string s).

Fixpoint str_eqb (a b : pystr) : bool :=
  match a, b with
  | [], [] => true
  | x :: a', y :: b' => N.eqb x y && str_eqb a' b'
  | _, _ => false
  end.

(** [seq[i]] for a possibly negative index. *)
Definition getitem {A} (l : list A) (i : Z) : result A :=
  let n := Z.of_nat (length l) in
  let j := if (i <? 0)%Z then (i + n)%Z else i in
  if ((j <? 0) || (n <=? j))%Z then Raise IndexError
  else match nth_error l (Z.to_nat j) with
       | Some a => Ok a
       | None => Raise IndexError
       end.

(** [seq[i] = v] for an index in range. *)
Fixpoint setitem {A} (l : list A) (i : nat) (v : A) : list A :=
  match l, i with
  | [], _ => []
  | _ :: t, O => v :: t
  | a :: t, S i' => a :: setitem t i' v
  end.

(** ** [str] methods *)

Fixpoint startswith (s sub : pystr) : bool :=
  match sub, s with
  | [], _ => true
  | a :: sub', b :: s' => N.eqb a b && startswith s' sub'
  | _ :: _, [] => false
  end.

Fixpoint find_from (s sub : pystr) (i : Z) : Z :=
  if startswith s sub then i
  else match s with
       | [] => (-1)%Z
       | _ :: s' => find_from s' sub (i + 1)
       end.

(** [s.find(sub)]: the lowest index at which [sub] occurs, [-1] if it
    does not occur. *)
Definition find (s sub : pystr) : Z := find_from s sub 0.

Definition len {A} (l : list A) : Z := Z.of_nat (length l).

(** A slice bound after Python's normalisation: a negative bound counts
    from the end, and both are clamped to [0 .. n]. *)
Definition slice_bound (n i : Z) : Z :=
  if (i <? 0)%Z then Z.max 0 (i + n) else Z.min i n.

(** [l[start:stop]] *)
Definition slice {A} (l : list A) (start stop : Z) : list A :=
  let a := slice_bound (len l) start in
  let b := slice_bound (len l) stop in
  firstn (Z.to_nat (b - a)) (skipn (Z.to_nat a) l).

(** [l[start:]] *)
Definition slice_from {A} (l : list A) (start : Z) : list A :=
  skipn (Z.to_nat (slice_bound (len l) start)) l.

(** The code points [str.isspace] accepts. *)
Definition isspace (c : N) : bool :=
  ((9 <=? c) && (c <=? 13) || (28 <=? c) && (c <=? 32)
   || (c =? 133) || (c =? 160) || (c =? 5760)
   || (8192 <=? c) && (c <=? 8202)
   || (c =? 8232) || (c =? 8233) || (c =? 8239) || (c =? 8287)
   || (c =? 12288))%N.

Fixpoint lstrip (s : pystr) : pystr :=
  match s with
  | c :: s' => if isspace c then lstrip s' else s
  | [] => []
  end.

Definition rstrip (s : pystr) : pystr := rev (lstrip (rev s)).

(** [s.strip()] *)
Definition strip (s : pystr) : pystr := rstrip (lstrip s).

(** [s.split(sep)] for a separator of one character: every occurrence
    splits, empty pieces are kept. *)
Fixpoint split (sep : N) (s : pystr) : list pystr :=
  match s with
  | [] => [[]]
  | c :: s' =>
      if N.eqb c sep then [] :: split sep s'
      else match split sep s' with
           | h :: t => (c :: h) :: t
           | [] => [[c]]
           end
  end.

Definition newline : N := 10.
Definition comma : N := 44.

End Py.
Export Py.

Notation "x <- m ;; k" := (bind m (fun x => k))
  (at level 61, m at next level, right associativity).

(* ================================================================== *)
(** * HRRR meteogram: axis rounding *)
(* ================================================================== *)

Module Meteogram.
Import PrimFloat SpecFloat FloatOps.

(** The temperatures the script passes are doubles ([np.float64]); the
    sum, the difference and the quotient below are the correctly
    rounded operations of IEEE 754 binary64. *)


(** The number a finite double stands for, [m * 2 ^ e] with its sign. *)
Definition exact (y : float) : option Q :=
  match Prim2SF y with
  | S754_zero _ => Some 0%Q
  | S754_finite s m e =>
      let a := if s then Z.neg m else Z.pos m in
      Some (if (0 <=? e)%Z then inject_Z (a * 2 ^ e)
            else a # Z.to_pos (2 ^ (- e)))
  | S754_infinity _ | S754_nan => None
  end.






(** ** Vocabulary of the statements about rounding *)







End Meteogram.

(* ================================================================== *)
(** * The numpy primitives the scripts call *)
(* ================================================================== *)

Module Numpy.

(** ** [np.arange] on integers *)

Definition ceil_div (a b : Z) : Z := (- ((- a) / b))%Z.

(** [np.arange(start, stop, step)]: [ceil((stop - start) / step)]
    values [start + i * step]; none when that count is not positive. *)
Definition arange (start stop step : Z) : result (list Z) :=
  if (step =? 0)%Z then Raise ZeroDivisionError
  else
    let n := Z.to_nat (ceil_div (stop - start) step) in
    Ok (map (fun i => (start + Z.of_nat i * step)%Z) (seq 0 n)).

Local Open Scope R_scope.

Definition Rltb (a b : R) : bool := if Rlt_dec a b then true else false.
Definition Rgtb (a b : R) : bool := Rltb b a.

(** ** [np.linspace] *)

Definition set_last {A} (l : list A) (v : A) : list A :=
  match l with
  | [] => []
  | _ => removelast l ++ [v]
  end.

(** [np.linspace(start, stop, num)] with [endpoint=True]: [num] samples
    [start + i * step], [step = (stop - start) / (num - 1)], the last
    one overwritten with [stop]. *)
Definition linspace (start stop : R) (num : nat) : list R :=
  let div := (num - 1)%nat in
  let delta := stop - start in
  if (1 <? num)%nat then
    let step := delta / INR div in
    set_last (map (fun i => INR i * step + start) (seq 0 num)) stop
  else
    map (fun i => INR i * delta + start) (seq 0 num).

(** ** [np.meshgrid] (default [indexing='xy']) *)

Definition meshgrid {A B} (a : list A) (b : list B)
  : list (list A) * list (list B) :=
  (map (fun _ => a) b, map (fun y => map (fun _ => y) a) b).

Definition shape {A} (m : list (list A)) : nat * nat :=
  (length m, match m with [] => O | r :: _ => length r end).

(** ** [np.interp] *)

(** [linear_search(key, arr, len, i0)]:
    [for (i = i0; i < len && key >= arr[i]; i++); return i - 1;] *)
Fixpoint scan (key : R) (rest : list R) (i : nat) : nat :=
  match rest with
  | a :: r => if Rle_dec a key then scan key r (S i) else i
  | [] => i
  end.

Definition linear_search (key : R) (arr : list R) (i0 : nat) : Z :=
  (Z.of_nat (scan key (skipn i0 arr) i0) - 1)%Z.

(** [binary_search_with_guess]: [len] above the last sample, [-1] below
    the first, otherwise the index [j] with [arr[j] <= key < arr[j+1]].
    numpy finds [j] by bisection once [len > 4]; on an increasing [arr]
    that is the index the linear search returns.  numpy documents the
    outcome on a non-increasing [arr] as meaningless, and nothing below
    depends on it. *)
Definition binary_search_with_guess (key : R) (arr : list R) : Z :=
  if Rlt_dec (last arr 0) key then Z.of_nat (length arr)
  else if Rlt_dec key (hd 0 arr) then (-1)%Z
  else linear_search key arr 1.

(** One output element of [arr_interp], with [left = fp[0]] and
    [right = fp[-1]]. *)
Definition interp1 (x_val : R) (dx dy : list R) : R :=
  let lenxp := length dx in
  let lval := hd 0 dy in
  let rval := last dy 0 in
  if (lenxp =? 1)%nat then
    if Rlt_dec x_val (hd 0 dx) then lval
    else if Rlt_dec (hd 0 dx) x_val then rval
    else hd 0 dy
  else
    let j := binary_search_with_guess x_val dx in
    if (j =? -1)%Z then lval
    else if (j =? Z.of_nat lenxp)%Z then rval
    else
      let j := Z.to_nat j in
      if (j =? lenxp - 1)%nat then nth j dy 0
      else if Req_dec_T (nth j dx 0) x_val then nth j dy 0
      else
        let slope := (nth (S j) dy 0 - nth j dy 0)
                     / (nth (S j) dx 0 - nth j dx 0) in
        slope * (x_val - nth j dx 0) + nth j dy 0.

(** [np.interp(x, xp, fp)] *)
Definition interp (x xp fp : list R) : result (list R) :=
  if (length xp =? 0)%nat then Raise ValueError
  else if negb (length fp =? length xp)%nat then Raise ValueError
  else Ok (map (fun x_val => interp1 x_val xp fp) x).

(** [data[mask] = v] for a boolean mask. *)
Definition mask_assign (data : list R) (mask : list bool) (v : R)
  : result (list R) :=
  if negb (length mask =? length data)%nat then Raise IndexError
  else Ok (map (fun dm : R * bool => if snd dm then v else fst dm)
          (combine data mask)).

End Numpy.

(* ================================================================== *)
(** * RAOB cross-section *)
(* ================================================================== *)

Module Raob.
Import Numpy.
Local Open Scope R_scope.

(** [vertical_interpolate(vcoord_data, interp_var, interp_levels)].
    [np.log] is [ln]; the two agree on positive pressures. *)
Definition vertical_interpolate (vcoord_data interp_var interp_levels : list R)
  : result (list R) :=
  let lnp := map ln vcoord_data in
  let lnp_intervals := map ln interp_levels in
  r <- interp (rev lnp_intervals) (rev lnp) (rev interp_var) ;;
  let interp_data := rev r in
  first <- getitem vcoord_data 0 ;;
  let mask_low := map (fun p => Rgtb p first) interp_levels in
  final <- getitem vcoord_data (-1) ;;
  let mask_high := map (fun p => Rltb p final) interp_levels in
  v0 <- getitem interp_var 0 ;;
  interp_data <- mask_assign interp_data mask_low v0 ;;
  v1 <- getitem interp_var (-1) ;;
  mask_assign interp_data mask_high v1.

(** The grids [radisonde_cross_section] sets up.  [dist] is the array
    of station distances pyproj returns.  Every [grid[key]] is
    allocated as [np.empty((nx, plevs))] and filled in place, so
    [grid_shape] is the shape of each array of [grid_data]. *)
Record cross_section_grids : Type := {
  vertical_levels : list Z;
  x : list R;
  p_grid : list (list Z);
  x_grid : list (list R);
  grid_shape : nat * nat
}.

Definition radisonde_cross_section (dist : list R) (start end_ step : Z)
  : result cross_section_grids :=
  vertical_levels <- arange start (end_ - 1) (- step) ;;
  let plevs := length vertical_levels in
  d0 <- getitem dist 0 ;;
  d1 <- getitem dist (-1) ;;
  let x := linspace d0 d1 100 in
  let nx := length x in
  let '(pp, xx) := meshgrid vertical_levels x in
  Ok {| vertical_levels := vertical_levels; x := x;
        p_grid := pp; x_grid := xx; grid_shape := (nx, plevs) |}.

Definition default_start : Z := 1000.
Definition default_end : Z := 100.
Definition default_step : Z := 10.

End Raob.

(* ================================================================== *)
(** * HRRR meteogram: the table *)
(* ================================================================== *)

Module Frame.

(** A DataFrame: rows under their index labels, in order. *)
Definition dataframe (A : Type) : Type := list (Z * A).

(** [pd.DataFrame(records)]: the index is [RangeIndex(len(records))]. *)
Definition DataFrame {A} (rows : list A) : dataframe A :=
  combine (map Z.of_nat (seq 0 (length rows))) rows.

(** [df.iterrows()]: the pairs [(index, row)] of the frame it was
    called on. *)
Definition iterrows {A} (df : dataframe A) : list (Z * A) := df.

(** [df.drop(label)]: a new frame without the rows labelled [label];
    [KeyError] if no row carries the label. *)
Definition drop {A} (df : dataframe A) (label : Z) : result (dataframe A) :=
  if existsb (fun r => (fst r =? label)%Z) df
  then Ok (filter (fun r => negb (fst r =? label)%Z) df)
  else Raise KeyError.

(** [df.reset_index(drop=True)] *)
Definition reset_index {A} (df : dataframe A) : dataframe A :=
  DataFrame (map snd df).

End Frame.

Module MeteogramTable.
Import Frame.

(** A row of the point data. *)
Record point_row : Type := {
  alt : pyfloat;
  Temperature_isobaric : pyfloat;
  Dewpoint_temperature_isobaric : pyfloat
}.

(** [for index, row in df.iterrows():
       if row['alt'] != 100000: df = df.drop(index)]
    The iterator walks the frame the loop started with, while [df] is
    rebound to the shrinking copies. *)
Fixpoint drop_loop (it : list (Z * point_row)) (df : dataframe point_row)
  : result (dataframe point_row) :=
  match it with
  | [] => Ok df
  | (index, row) :: it' =>
      if float_ne (alt row) (Fin 100000)
      then df' <- drop df index ;; drop_loop it' df'
      else drop_loop it' df
  end.

Definition select_altitude (df : dataframe point_row)
  : result (dataframe point_row) :=
  df' <- drop_loop (iterrows df) df ;;
  Ok (reset_index df').

(** A [Timestamp] is a count of nanoseconds. *)
Definition hour_ns : Z := 3600 * 1000000000.
Definition minute_ns : Z := 60 * 1000000000.

Definition digit (d : Z) : N := (48 + Z.to_N d)%N.
Definition two_digits (n : Z) : pystr := [digit (n / 10); digit (n mod 10)].

(** [t.strftime('%I:%M %p')] *)
Definition strftime_IMp (t : Z) : pystr :=
  let hour := ((t / hour_ns) mod 24)%Z in
  let minute := ((t / minute_ns) mod 60)%Z in
  let hour12 := if (hour mod 12 =? 0)%Z then 12%Z else (hour mod 12)%Z in
  two_digits hour12 ++ str ":" ++ two_digits minute ++ str " "
  ++ (if (hour <? 12)%Z then str "AM" else str "PM").

(** The row after lines 157-172: the forecast hour and its timestamp. *)
Record meteogram_row : Type := {
  point : point_row;
  Hours : Z;
  future_time : pystr
}.

(** [df['Hours'] = np.arange(len(df))];
    [df['future_time'] = (current_time + to_timedelta(Hours, 'h'))
                           .dt.strftime('%I:%M %p')]
    with [current_time = pd.to_datetime('now') - timedelta(hours=4)]. *)
Definition add_future_time (now : Z) (df : dataframe point_row)
  : dataframe meteogram_row :=
  let current_time := (now - 4 * hour_ns)%Z in
  map (fun ir : nat * (Z * point_row) =>
         let hours := Z.of_nat (fst ir) in
         (fst (snd ir),
          {| point := snd (snd ir);
             Hours := hours;
             future_time := strftime_IMp (current_time + hours * hour_ns) |}))
      (combine (seq 0 (length df)) df).

(** Lines 146-172. *)
Definition meteogram_table (now : Z) (point_data : list point_row)
  : result (dataframe meteogram_row) :=
  df <- select_altitude (DataFrame point_data) ;;
  Ok (add_future_time now df).

End MeteogramTable.

(* ================================================================== *)
(** * ACARS sounding: the parser *)
(* ================================================================== *)

Module Acars.

Definition RAW : pystr := str "%RAW%".
Definition END_ : pystr := str "%END%".

Definition columns : list string :=
  ["LEVEL"; "HGHT"; "TEMP"; "DWPT"; "WDIR"; "WSPD"]%string.

(** [pd.DataFrame([values], columns=columns)]: one row; [ValueError]
    unless there is one value per column. *)
Definition one_row_frame (values : list pystr) : result (list pystr) :=
  if (length values =? length columns)%nat then Ok values
  else Raise ValueError.

(** The loop of lines 39-44; [df] holds the rows appended so far. *)
Fixpoint append_lines (lines : list pystr) (df : list (list pystr))
  : result (list (list pystr)) :=
  match lines with
  | [] => Ok df
  | line :: rest =>
      let line := strip line in
      match line with
      | [] => append_lines rest df
      | _ =>
          let values := split comma line in
          temp_df <- one_row_frame values ;;
          append_lines rest (df ++ [temp_df])
      end
  end.

(** Lines 28-35: the lines the table is built from. *)
Definition data_section (data : pystr) : pystr :=
  let start_pos := (find data RAW + len RAW)%Z in
  let end_pos := find data END_ in
  strip (slice data start_pos end_pos).

Definition table_lines (data : pystr) : list pystr :=
  let lines := split newline (data_section data) in
  slice_from lines 1.

Section ToNumeric.

(** The numeric reader of pandas: [None] for a token it rejects. *)
Variable numeric : pystr -> option pyfloat.

(** [pd.to_numeric(..., errors='coerce')] on one cell. *)
Definition to_numeric_coerce (tok : pystr) : pyfloat :=
  match numeric tok with
  | Some f => f
  | None => NaN
  end.

(** Lines 28-46: [df] as printed. *)
Definition acars_table (data : pystr) : result (list (list pyfloat)) :=
  df <- append_lines (table_lines data) [] ;;
  Ok (map (map to_numeric_coerce) df).

End ToNumeric.

End Acars.

(* ================================================================== *)
(** * Warning/LSR: the wind reports *)
(* ================================================================== *)

Module Lsr.

(** A cell of the [Speed] column: a string as read from the CSV, or a
    number. *)
Inductive pyval : Type :=
| PStr (s : pystr)
| PFloat (f : pyfloat).

Definition UNK : pystr := str "UNK".

(** [value != 'UNK'] *)
Definition ne_UNK (value : pyval) : bool :=
  match value with
  | PStr s => negb (str_eqb s UNK)
  | PFloat _ => true
  end.

(** The names bound at module level when the conversion loop runs: the
    imports of lines 1-10 and the assignments of lines 12-25.  The
    script never imports numpy, and no later statement binds [np]. *)
Definition module_globals : list string :=
  ["pd"; "requests"; "ccrs"; "cfeature"; "plt"; "PatchCollection";
   "mplPolygon"; "GeoAxes"; "USCOUNTIES"; "datetime";
   "tor_url"; "df_tor"; "hail_url"; "df_hail"; "wind_url"; "df_wind";
   "i"; "value"]%string.

(** Evaluating a global name: [NameError] when it is not bound. *)
Definition load_global {A} (name : string) (v : A) : result A :=
  if existsb (String.eqb name) module_globals then Ok v
  else Raise NameError.

(** [np.nan] *)
Definition np_nan : result pyval := load_global "np" (PFloat NaN).

Section Conversion.

(** [float(s)] on a string: [None] stands for [ValueError]. *)
Variable float_of_str : pystr -> option pyfloat.

(** [float(value)] *)
Definition py_float (value : pyval) : result pyfloat :=
  match value with
  | PFloat f => Ok f
  | PStr s => match float_of_str s with
              | Some f => Ok f
              | None => Raise ValueError
              end
  end.

(** The body of the loop of lines 24-30 (and 82-88) at index [i];
    [col] is [df_wind['Speed']].  The chained assignment
    [df_wind['Speed'][i] = ...] writes through to the column, as it
    does in the pandas the scripts were written for. *)
Definition convert_at (col : list pyval) (i : nat) : result (list pyval) :=
  value <- getitem col (Z.of_nat i) ;;
  if ne_UNK value then
    try_except
      (f <- py_float value ;; Ok (setitem col i (PFloat f)))
      ValueError
      (nan <- np_nan ;; Ok (setitem col i nan))
  else Ok col.

Fixpoint for_range (idx : list nat) (col : list pyval)
  : result (list pyval) :=
  match idx with
  | [] => Ok col
  | i :: rest => col' <- convert_at col i ;; for_range rest col'
  end.

(** [for i in range(len(df_wind['Speed'])): ...] *)
Definition convert_speeds (col : list pyval) : result (list pyval) :=
  for_range (seq 0 (length col)) col.

End Conversion.

(** A wind report as the plotting loop reads it. *)
Record wind_row : Type := {
  Speed : pyval;
  Lon : pyfloat;
  Lat : pyfloat
}.

Inductive wind_marker : Type :=
| HighWindReport      (* marker 's', black, 'High Wind Report (65KT+)' *)
| WindReport.         (* blue, 'Wind Report' *)

(** One [ax.scatter] call. *)
Record scatter : Type := {
  at_lon : pyfloat;
  at_lat : pyfloat;
  marker : wind_marker
}.

(** [row['Speed'] > 65]; a string against a number is a [TypeError]. *)
Definition speed_gt_65 (v : pyval) : result bool :=
  match v with
  | PFloat f => Ok (float_gt f (Fin 65))
  | PStr _ => Raise TypeError
  end.

(** [row['Speed'] != 'UNK' and row['Speed'] > 65] *)
Definition is_high_wind (row : wind_row) : result bool :=
  if ne_UNK (Speed row) then speed_gt_65 (Speed row) else Ok false.

(** The loop of lines 96-100: the scatter calls, in order. *)
Fixpoint plot_wind (rows : list wind_row) : result (list scatter) :=
  match rows with
  | [] => Ok []
  | row :: rest =>
      high <- is_high_wind row ;;
      let call := {| at_lon := Lon row; at_lat := Lat row;
                     marker := if high then HighWindReport else WindReport |} in
      calls <- plot_wind rest ;;
      Ok (call :: calls)
  end.

(** [df_wind] with its [Speed] column replaced. *)
Definition with_speeds (df_wind : list wind_row) (col : list pyval)
  : list wind_row :=
  map (fun rc : wind_row * pyval =>
         {| Speed := snd rc; Lon := Lon (fst rc); Lat := Lat (fst rc) |})
      (combine df_wind col).

Section Script.
Variable float_of_str : pystr -> option pyfloat.

(** The wind reports through lines 24-30, 82-88 and 96-100. *)
Definition wind_reports (df_wind : list wind_row) : result (list scatter) :=
  col <- convert_speeds float_of_str (map Speed df_wind) ;;
  col <- convert_speeds float_of_str col ;;
  plot_wind (with_speeds df_wind col).

End Script.

End Lsr.

(* ================================================================== *)
(** * The outbound calls of the scripts *)
(* ================================================================== *)

Module Net.
Import Lsr.

(** The library entry points through which the scripts reach the
    network. *)
Inductive call : Type :=
| urlopen (url : string)
| read_csv (url : string)
| requests_get (url : string)
| TDSCatalog (url : string)
| ncss_subset
| ncss_get_data
| WyomingUpperAir_request_data (station : string).

Definition acars_url : string :=
  "https://sharp.weather.ou.edu/soundings/acars/2023/07/02/16/YNN_1620.txt".
Definition hrrr_catalog : string :=
  "https://thredds-test.unidata.ucar.edu/thredds/catalog/grib/NCEP/HRRR/CONUS_2p5km/latest.xml".
Definition stn_list : list string := ["LBF"; "OAX"; "DVN"; "DTX"; "BUF"]%string.
Definition tor_url : string :=
  "https://www.spc.noaa.gov/climo/reports/230615_rpts_torn.csv".
Definition hail_url : string :=
  "https://www.spc.noaa.gov/climo/reports/230615_rpts_hail.csv".
Definition wind_url : string :=
  "https://www.spc.noaa.gov/climo/reports/230615_rpts_wind.csv".
Definition cow_url : string :=
  "https://mesonet.agron.iastate.edu/api/1/cow.json?wfo=DTX&begints=2023-06-15T12:00:00Z&endts=2023-06-16T12:00:00Z&hailsize=1&wind=58&phenomena=TO&phenomena=SV&phenomena=MA&phenomena=FF&phenomena=DS&lsrbuffer=15&warningbuffer=1".

(** A script run: it may raise, and it logs the calls it made. *)
Definition io (A : Type) : Type := list call -> result A * list call.

Definition io_bind {A B} (m : io A) (k : A -> io B) : io B :=
  fun log => match m log with
             | (Ok a, log') => k a log'
             | (Raise e, log') => (Raise e, log')
             end.

Definition lift {A} (r : result A) : io A := fun log => (r, log).

Notation "x <~ m ;; k" := (io_bind m (fun x => k))
  (at level 61, m at next level, right associativity).

Section World.

(** What the network answers: a response, or a failure. *)
Variable response : Type.
Variable fetch : call -> result response.
(** [df_wind['Speed']] of a parsed CSV. *)
Variable speed_column : response -> list pyval.
Variable float_of_str : pystr -> option pyfloat.

(** A call is logged, then it answers or raises. *)
Definition perform (c : call) : io response :=
  fun log => (fetch c, log ++ [c]).

(** HRRR Meteogram.py, lines 133, 135 and 143. *)
Definition hrrr_script : io response :=
  cat <~ perform (TDSCatalog hrrr_catalog) ;;
  ncss <~ perform ncss_subset ;;
  perform ncss_get_data.

(** RAOB Cross Section.py, lines 392-393. *)
Fixpoint request_all (stations : list string) : io (list response) :=
  match stations with
  | [] => lift (Ok [])
  | station :: rest =>
      r <~ perform (WyomingUpperAir_request_data station) ;;
      rs <~ request_all rest ;;
      lift (Ok (r :: rs))
  end.

Definition raob_script : io (list response) := request_all stn_list.

(** Warning_LSR_2.py, lines 14-33. *)
Definition lsr_script : io response :=
  df_tor <~ perform (read_csv tor_url) ;;
  df_hail <~ perform (read_csv hail_url) ;;
  df_wind <~ perform (read_csv wind_url) ;;
  speeds <~ lift (convert_speeds float_of_str (speed_column df_wind)) ;;
  perform (requests_get cow_url).

(** The calls a script makes when started with an empty log. *)
Definition calls_of {A} (script : io A) : list call := snd (script []).

End World.

End Net.

(* ================================================================== *)
(** * Vocabulary of the statements *)
(* ================================================================== *)

Module Props.
Import Numpy Raob MeteogramTable Acars.

Section Reals.
Local Open Scope R_scope.

(** Strictly increasing, by index. *)
Definition ascending (l : list R) : Prop :=
  forall i j, (i < j < length l)%nat -> nth i l 0 < nth j l 0.

(** Strictly decreasing, as a sounding's pressures are. *)
Fixpoint decreasing (l : list R) : Prop :=
  match l with
  | a :: (b :: _) as t => b < a /\ decreasing t
  | _ => True
  end.

(** The value on a level [p]: the endpoint values outside the observed
    range, the high mask written last, and [np.interp] on the reversed
    logarithms inside. *)
Definition level_value (vcoord_data interp_var : list R) (p : R) : R :=
  if Rltb p (last vcoord_data 0) then last interp_var 0
  else if Rgtb p (hd 0 vcoord_data) then hd 0 interp_var
  else interp1 (ln p) (rev (map ln vcoord_data)) (rev interp_var).

(** The line through [(ln a, fa)] and [(ln b, fb)], read at [ln p]. *)
Definition loglinear (a fa b fb p : R) : R :=
  (fa - fb) / (ln a - ln b) * (ln p - ln b) + fb.

End Reals.

(** [row['alt'] == 100000] *)
Definition at_100000 (row : point_row) : bool :=
  negb (float_ne (alt row) (Fin 100000)).

(** A line the ACARS loop keeps: not empty once stripped. *)
Definition nonblank (line : pystr) : bool :=
  match line with
  | [] => false
  | _ => true
  end.

(** The stripped, non-empty lines among [lines]. *)
Definition retained (lines : list pystr) : list pystr :=
  filter nonblank (map strip lines).

(** A line that splits into one value per column. *)
Definition six_fields (line : pystr) : bool :=
  (length (split comma line) =? 6)%nat.

(** A reader of plain decimals ([-12], [3.50], [ 7. ]), used as the
    numeric reader in the examples. *)
Definition is_digit (c : N) : bool := ((48 <=? c) && (c <=? 57))%N.

Fixpoint digits_value (acc : Z) (s : pystr) : option Z :=
  match s with
  | [] => Some acc
  | c :: s' =>
      if is_digit c then digits_value (10 * acc + Z.of_N (c - 48)) s'
      else None
  end.

Definition plain_decimal (tok : pystr) : option pyfloat :=
  let t := strip tok in
  let '(sign, body) :=
    match t with
    | 45%N :: r => ((-1)%Z, r)
    | 43%N :: r => (1%Z, r)
    | _ => (1%Z, t)
    end in
  match split 46 body with
  | [ip] =>
      match ip, digits_value 0 ip with
      | _ :: _, Some z => Some (Fin (inject_Z (sign * z)))
      | _, _ => None
      end
  | [ip; fp] =>
      match ip ++ fp, digits_value 0 (ip ++ fp) with
      | _ :: _, Some z =>
          Some (Fin (Qred (Qmake (sign * z)
                                 (Z.to_pos (10 ^ Z.of_nat (length fp))))))
      | _, _ => None
      end
  | _ => None
  end.

Section Convertible.
Import Lsr.
Variable float_of_str : pystr -> option pyfloat.

(** An entry the loop can convert: ['UNK'], a number, or a string
    [float] accepts. *)
Definition convertible (v : pyval) : Prop :=
  match v with
  | PFloat _ => True
  | PStr s => if str_eqb s UNK then True else float_of_str s <> None
  end.

(** What a completed pass leaves in place of an entry. *)
Definition converted (v : pyval) : pyval :=
  match v with
  | PFloat f => PFloat f
  | PStr s =>
      if str_eqb s UNK then PStr s
      else match float_of_str s with
           | Some f => PFloat f
           | None => PStr s
           end
  end.

(** An entry no pass changes any more. *)
Definition settled (v : pyval) : Prop :=
  match v with
  | PFloat _ => True
  | PStr s => str_eqb s UNK = true
  end.

(** The marker the plotting loop gives a settled entry. *)
Definition marker_of (v : pyval) : wind_marker :=
  match v with
  | PFloat f => if float_gt f (Fin 65) then HighWindReport else WindReport
  | PStr _ => WindReport
  end.

End Convertible.

(** A response in the layout of the ACARS files. *)
Definition sample_head : pystr :=
  str "%TITLE%" ++ [newline] ++ str " YNN   230702/1620" ++ [newline].

Definition sample_block : pystr :=
  [newline]
  ++ str " 1000.00,    34.00,  -9999.00,  -9999.00,  -9999.00,  -9999.00"
  ++ [newline]
  ++ str "  965.00,   350.00,     25.50,     18.00,    200.00,     10.00"
  ++ [newline].

Definition sample_response : pystr :=
  sample_head ++ RAW ++ sample_block ++ END_ ++ [newline].

Definition sample_table : list (list pyfloat) :=
  [[Fin 965; Fin 350; Fin (51 # 2); Fin 18; Fin 200; Fin 10]].

(** The calls of the scripts, in program order. *)
Section Calls.
Import Net.

Definition hrrr_calls : list call :=
  [TDSCatalog hrrr_catalog; ncss_subset; ncss_get_data].

Definition raob_calls : list call :=
  map WyomingUpperAir_request_data stn_list.

Definition lsr_calls : list call :=
  [read_csv tor_url; read_csv hail_url; read_csv wind_url;
   requests_get cow_url].

(** [calls] is an initial part of [full]. *)
Definition initial_part (calls full : list call) : Prop :=
  exists rest, full = calls ++ rest.

(** Every call answers. *)
Definition all_answer {response : Type} (fetch : call -> result response)
  : Prop :=
  forall c, exists r, fetch c = Ok r.

(** The calls made when [calls] are attempted in order and the run
    stops at the first one that fails: that one is the last. *)
Fixpoint through_first_failure {response : Type}
         (fetch : call -> result response) (calls : list call) : list call :=
  match calls with
  | [] => []
  | c :: rest =>
      c :: match fetch c with
           | Raise _ => []
           | Ok _ => through_first_failure fetch rest
           end
  end.

(** A network on which the subset service fails, and one on which the
    third station, DVN, does. *)
Definition subset_fails (c : call) : result unit :=
  match c with
  | ncss_subset => Raise IOError
  | _ => Ok tt
  end.

Definition dvn_fails (c : call) : result unit :=
  match c with
  | WyomingUpperAir_request_data station =>
      if String.eqb station "DVN" then Raise IOError else Ok tt
  | _ => Ok tt
  end.

End Calls.

(** Three reports: 70 kt, unknown, 60 kt. *)
Definition sample_wind : list Lsr.wind_row :=
  [ {| Lsr.Speed := Lsr.PStr (str "70"); Lsr.Lon := Fin (-83); Lsr.Lat := Fin 42 |};
    {| Lsr.Speed := Lsr.PStr Lsr.UNK; Lsr.Lon := Fin (-84); Lsr.Lat := Fin 43 |};
    {| Lsr.Speed := Lsr.PStr (str "60"); Lsr.Lon := Fin (-85); Lsr.Lat := Fin 44 |} ].

(** Two reports: 65 kt and 66 kt. *)
Definition threshold_wind : list Lsr.wind_row :=
  [ {| Lsr.Speed := Lsr.PStr (str "65"); Lsr.Lon := Fin (-83); Lsr.Lat := Fin 42 |};
    {| Lsr.Speed := Lsr.PStr (str "66"); Lsr.Lon := Fin (-84); Lsr.Lat := Fin 43 |} ].

(** Two reports: 60 kt, and a speed that is neither ['UNK'] nor a
    number. *)
Definition failing_wind : list Lsr.wind_row :=
  [ {| Lsr.Speed := Lsr.PStr (str "60"); Lsr.Lon := Fin (-83); Lsr.Lat := Fin 42 |};
    {| Lsr.Speed := Lsr.PStr (str "unk"); Lsr.Lon := Fin (-84); Lsr.Lat := Fin 43 |} ].

End Props.
Export Props.

(* ================================================================== *)
(** * HRRR meteogram: a row of the point data *)
(* ================================================================== *)

Module MeteogramAxes.

(** A point row at 1000 hPa. *)
Definition sample_point_row : MeteogramTable.point_row :=
  {| MeteogramTable.alt := Fin 100000;
     MeteogramTable.Temperature_isobaric := Fin 290;
     MeteogramTable.Dewpoint_temperature_isobaric := Fin 285 |}.

(** The same point at 500 hPa. *)
Definition sample_upper_row : MeteogramTable.point_row :=
  {| MeteogramTable.alt := Fin 50000;
     MeteogramTable.Temperature_isobaric := Fin 255;
     MeteogramTable.Dewpoint_temperature_isobaric := Fin 240 |}.

(** Two forecast hours, each at two altitudes. *)
Definition sample_point_data : list MeteogramTable.point_row :=
  [sample_point_row; sample_upper_row; sample_point_row; sample_upper_row].

(** 2023-07-02 03:59:00, in nanoseconds since 1970. *)
Definition sample_now : Z :=
  ((19540 * 24 + 3) * MeteogramTable.hour_ns
   + 59 * MeteogramTable.minute_ns)%Z.

End MeteogramAxes.

(* ================================================================== *)
(** * Dictionaries *)
(* ================================================================== *)

Module Dict.

(** A [dict] with string keys, in insertion order. *)
Definition dict (V : Type) : Type := list (string * V).

(** [d[key]] *)
Fixpoint item {V} (d : dict V) (key : string) : result V :=
  match d with
  | [] => Raise KeyError
  | (k, v) :: rest => if String.eqb k key then Ok v else item rest key
  end.

(** [key in d] *)
Definition contains {V} (d : dict V) (key : string) : bool :=
  existsb (fun kv => String.eqb (fst kv) key) d.

(** [d.get(key, default)] *)
Definition get {V} (d : dict V) (key : string) (default : V) : V :=
  match item d key with
  | Ok v => v
  | Raise _ => default
  end.

(** [dict.fromkeys(keys)]: the distinct keys, each at its first
    position. *)
Fixpoint fromkeys (keys : list string) : list string :=
  match keys with
  | [] => []
  | k :: rest => k :: filter (fun x => negb (String.eqb x k)) (fromkeys rest)
  end.

End Dict.

(* ================================================================== *)
(** * RAOB cross-section: the loop over keys and stations *)
(* ================================================================== *)

Module RaobStations.
Import Numpy Raob Dict.

(** A sounding as the function reads it: [leading] holds the numeric
    columns that open the frame, in order (pressure, height,
    temperature, dewpoint, direction, speed, u_wind, v_wind in a
    Wyoming frame), from which the keys are taken; [latitude],
    [longitude] and [elevation] are the columns of these names, which
    follow later in the frame. *)
Record sounding : Type := {
  leading : dict (list R);
  latitude : list R;
  longitude : list R;
  elevation : list R
}.

(** [lats], [lons], [elev] *)
Record station_lists : Type := {
  lats : list R;
  lons : list R;
  elev : list R
}.

(** [series[0]] on a frame indexed from 0. *)
Definition first_value (col : list R) : result R :=
  match col with
  | [] => Raise KeyError
  | a :: _ => Ok a
  end.

Section Loop.
Variable data : dict sounding.
Variable vertical_levels : list Z.

(** The body of the inner loop (lines 324-332): the lists after it and
    the row written to [tmp_grid[key][loc, :]]. *)
Definition station_row (key station : string) (st : station_lists)
  : result (station_lists * list R) :=
  if String.eqb key "pressure" then
    df <- item data station ;;
    lat <- first_value (latitude df) ;;
    let lats' := lats st ++ [lat] in
    df <- item data station ;;
    lon <- first_value (longitude df) ;;
    let lons' := lons st ++ [lon] in
    df <- item data station ;;
    el <- first_value (elevation df) ;;
    let elev' := elev st ++ [el] in
    Ok ({| lats := lats'; lons := lons'; elev := elev' |},
        map IZR vertical_levels)
  else
    df <- item data station ;;
    pressure <- item (leading df) "pressure" ;;
    df <- item data station ;;
    values <- item (leading df) key ;;
    row <- vertical_interpolate pressure values (map IZR vertical_levels) ;;
    Ok (st, row).

(** [for station, loc in zip(stns, range(nstns)): ...] *)
Fixpoint over_stations (key : string) (stns : list string)
         (st : station_lists) (rows : list (list R))
  : result (station_lists * list (list R)) :=
  match stns with
  | [] => Ok (st, rows)
  | station :: rest =>
      r <- station_row key station st ;;
      over_stations key rest (fst r) (rows ++ [snd r])
  end.

(** [for key in tmp_grid.keys(): ...] *)
Fixpoint over_keys (keys stns : list string) (st : station_lists)
         (tmp_grid : dict (list (list R)))
  : result (station_lists * dict (list (list R))) :=
  match keys with
  | [] => Ok (st, tmp_grid)
  | key :: rest =>
      r <- over_stations key stns st [] ;;
      over_keys rest stns (fst r) (tmp_grid ++ [(key, snd r)])
  end.

End Loop.

Section Function.

(** The distances [Geod.inv] returns for the given longitudes and
    latitudes. *)
Variable geod_inv : list R -> list R -> list R -> list R -> list R.

(** What [radisonde_cross_section] computes before [griddata]:
    [tmp_grid], the station lists and the grids.  The values
    [griddata] and [height_to_pressure_std] return are not part of
    it. *)
Definition radisonde_cross_section_stations
           (stns : list string) (data : dict sounding) (start end_ step : Z)
  : result (dict (list (list R)) * station_lists * cross_section_grids) :=
  vertical_levels <- arange start (end_ - 1) (- step) ;;
  let nstns := length stns in
  s0 <- getitem stns 0 ;;
  df0 <- item data s0 ;;
  let keys := firstn 8 (map fst (leading df0)) in
  let tmp_keys := fromkeys keys in
  r <- over_keys data vertical_levels tmp_keys stns
         {| lats := []; lons := []; elev := [] |} [] ;;
  let st := fst r in
  let tmp_grid := snd r in
  lon0 <- getitem (lons st) 0 ;;
  lat0 <- getitem (lats st) 0 ;;
  let dist := geod_inv (repeat lon0 nstns) (repeat lat0 nstns)
                       (lons st) (lats st) in
  grids <- radisonde_cross_section dist start end_ step ;;
  Ok (tmp_grid, st, grids).

End Function.

(** The three station lists have grown by [n] entries. *)
Definition lists_grown (st st' : station_lists) (n : nat) : Prop :=
  length (lats st') = (length (lats st) + n)%nat /\
  length (lons st') = (length (lons st) + n)%nat /\
  length (elev st') = (length (elev st) + n)%nat.

(** An entry of [tmp_grid] in shape: one row per station, one value
    per level, and under the key [pressure] the levels themselves. *)
Definition well_shaped (levels : list Z) (nstns : nat)
           (entry : string * list (list R)) : Prop :=
  length (snd entry) = nstns /\
  Forall (fun row => length row = length levels) (snd entry) /\
  (fst entry = "pressure"%string ->
   snd entry = repeat (map IZR levels) nstns).

(** Two soundings of two levels each, with the eight columns that
    open a Wyoming frame. *)
Definition wyoming_soundings : dict sounding :=
  [("LBF"%string,
    {| leading := [("pressure"%string, [1000; 500]%R);
                   ("height"%string, [850; 5700]%R);
                   ("temperature"%string, [20; -10]%R);
                   ("dewpoint"%string, [12; -25]%R);
                   ("direction"%string, [180; 250]%R);
                   ("speed"%string, [10; 45]%R);
                   ("u_wind"%string, [0; 42]%R);
                   ("v_wind"%string, [10; 15]%R)];
       latitude := [41; 41]%R; longitude := [-100; -100]%R;
       elevation := [849; 849]%R |});
   ("OAX"%string,
    {| leading := [("pressure"%string, [980; 400]%R);
                   ("height"%string, [350; 7400]%R);
                   ("temperature"%string, [22; -20]%R);
                   ("dewpoint"%string, [15; -40]%R);
                   ("direction"%string, [170; 260]%R);
                   ("speed"%string, [8; 60]%R);
                   ("u_wind"%string, [-1; 59]%R);
                   ("v_wind"%string, [8; 10]%R)];
       latitude := [41; 41]%R; longitude := [-96; -96]%R;
       elevation := [350; 350]%R |})].

(** Soundings whose frames open with a column other than [pressure]. *)
Definition height_only_soundings : dict sounding :=
  [("LBF"%string,
    {| leading := [("height"%string, [100; 5000]%R)];
       latitude := [41]%R; longitude := [-100]%R; elevation := [800]%R |})].

End RaobStations.

(* ================================================================== *)
(** * ACARS sounding: the title and the columns *)
(* ================================================================== *)

Module AcarsTitle.

Definition slash : N := 47.
Definition is_upper (c : N) : bool := ((65 <=? c) && (c <=? 90))%N.
Definition is_decimal (c : N) : bool := ((48 <=? c) && (c <=? 57))%N.

(** The longest prefix of characters in a class, and what follows. *)
Fixpoint span (p : N -> bool) (s : pystr) : pystr * pystr :=
  match s with
  | c :: rest =>
      if p c then let '(a, b) := span p rest in (c :: a, b)
      else ([], s)
  | [] => ([], [])
  end.

(** [\.txt$]: the suffix, at the end of the string or before a final
    newline. *)
Definition txt_at_end (s : pystr) : bool :=
  str_eqb s (str ".txt") || str_eqb s (str ".txt" ++ [newline]).

(** A match of [/([A-Z]+)_([0-9]+)\.txt$] that starts at the head of
    [s]: the two groups.  A class is never followed by one of its own
    characters in the pattern, so the longest run is the only run that
    can match. *)
Definition match_here (s : pystr) : option (pystr * pystr) :=
  match s with
  | 47%N :: rest =>
      let '(city, rest1) := span is_upper rest in
      match city, rest1 with
      | _ :: _, 95%N :: rest2 =>
          let '(time, rest3) := span is_decimal rest2 in
          match time with
          | _ :: _ => if txt_at_end rest3 then Some (city, time) else None
          | [] => None
          end
      | _, _ => None
      end
  | _ => None
  end.

(** [re.search]: the match at the leftmost position that has one. *)
Fixpoint search (s : pystr) : option (pystr * pystr) :=
  match match_here s with
  | Some m => Some m
  | None => match s with
            | [] => None
            | _ :: rest => search rest
            end
  end.

(** Lines 51-55 and the names [city] and [time] as lines 98-99 read
    them: they are bound only if the loop ran and the pattern
    matched. *)
Definition city_time (url : pystr) : result (pystr * pystr) :=
  match url with
  | [] => Raise NameError
  | _ => match search url with
         | Some m => Ok m
         | None => Raise NameError
         end
  end.

(** The two titles of lines 98-99; [today] is [str(date.today())]. *)
Definition titles (today url : pystr) : result (pystr * pystr) :=
  m <- city_time url ;;
  Ok (fst m ++ str " ACARS", today ++ str " " ++ snd m ++ str " UTC").

Fixpoint index_of (name : string) (names : list string) : option nat :=
  match names with
  | [] => None
  | n :: rest =>
      if String.eqb n name then Some O
      else option_map S (index_of name rest)
  end.

(** [df[name]] on the table of lines 37-46: the frame has the six
    columns once a row was appended, and none before. *)
Definition getcolumn (df : list (list pyfloat)) (name : string)
  : result (list pyfloat) :=
  match df with
  | [] => Raise KeyError
  | _ => match index_of name Acars.columns with
         | Some k => Ok (map (fun row => nth k row NaN) df)
         | None => Raise KeyError
         end
  end.

End AcarsTitle.

(* ================================================================== *)
(** * ACARS sounding: the whole run *)
(* ================================================================== *)

Module AcarsRun.
Import Acars AcarsTitle Net.

(** The five arrays of lines 57-61. *)
Record arrays : Type := {
  p : list pyfloat;
  T : list pyfloat;
  Td : list pyfloat;
  wind_speed : list pyfloat;
  wind_dir : list pyfloat
}.

(** Lines 57-61: [df['LEVEL']] raises [KeyError] on the frame that
    never received a row. *)
Definition sounding_columns (df : list (list pyfloat)) : result arrays :=
  p <- getcolumn df "LEVEL" ;;
  T <- getcolumn df "TEMP" ;;
  Td <- getcolumn df "DWPT" ;;
  wind_speed <- getcolumn df "WSPD" ;;
  wind_dir <- getcolumn df "WDIR" ;;
  Ok {| p := p; T := T; Td := Td;
        wind_speed := wind_speed; wind_dir := wind_dir |}.

Section Run.

Variable response : Type.
Variable fetch : call -> result response.
(** [response.read().decode('utf-8')] and the numeric reader of pandas. *)
Variable decode : response -> pystr.
Variable numeric : pystr -> option pyfloat.
(** [str(date.today())] *)
Variable today : pystr.

(** What MetPy and matplotlib compute is not modelled.  Lines 63-97
    (the parcel calculations and the skew-T) and lines 101-104 (the
    hodograph) read the table and its columns and nothing else of the
    response; each may raise. *)
Variable figure : Type.
Variable skewt : list (list pyfloat) -> arrays -> result figure.
Variable hodograph : figure -> pystr * pystr -> arrays -> result figure.

(** Lines 51-104, on the table of line 46. *)
Definition after_table (df : list (list pyfloat)) : result figure :=
  cols <- sounding_columns df ;;
  fig <- skewt df cols ;;
  t <- titles today (str acars_url) ;;
  hodograph fig t cols.

(** ACARS Sounding.py, the whole script. *)
Definition acars_script : io figure :=
  response <~ perform response fetch (urlopen acars_url) ;;
  let data := decode response in
  df <~ lift (acars_table numeric data) ;;
  lift (after_table df).

End Run.

(** A sounding of 21 levels in the layout of the ACARS files, after
    the placeholder line of the 1000 hPa level; the complete response,
    and the response cut off before its closing sentinel. *)
Definition sounding_block : pystr :=
  [newline]
  ++ str " 1000.00,    34.00,  -9999.00,  -9999.00,  -9999.00,  -9999.00"
  ++ [newline]
  ++ str "   965.00,    350.00,     25.50,     18.00,    190.00,     10.00"
  ++ [newline]
  ++ str "   950.00,    487.00,     24.20,     17.70,    190.00,     11.00"
  ++ [newline]
  ++ str "   925.00,    719.00,     22.00,     17.30,    195.00,     13.00"
  ++ [newline]
  ++ str "   900.00,    956.00,     19.70,     16.80,    195.00,     15.00"
  ++ [newline]
  ++ str "   875.00,   1197.00,     17.50,     16.30,    200.00,     16.00"
  ++ [newline]
  ++ str "   850.00,   1444.00,     15.10,     14.60,    205.00,     18.00"
  ++ [newline]
  ++ str "   825.00,   1696.00,     13.50,     12.30,    205.00,     20.00"
  ++ [newline]
  ++ str "   800.00,   1954.00,     11.90,     10.00,    210.00,     22.00"
  ++ [newline]
  ++ str "   775.00,   2219.00,     10.30,      7.60,    210.00,     23.00"
  ++ [newline]
  ++ str "   750.00,   2491.00,      8.60,      5.20,    215.00,     25.00"
  ++ [newline]
  ++ str "   725.00,   2771.00,      6.90,      2.70,    215.00,     27.00"
  ++ [newline]
  ++ str "   700.00,   3058.00,      5.10,      0.10,    220.00,     29.00"
  ++ [newline]
  ++ str "   650.00,   3662.00,      1.40,     -5.40,    225.00,     32.00"
  ++ [newline]
  ++ str "   600.00,   4305.00,     -2.60,    -11.10,    230.00,     36.00"
  ++ [newline]
  ++ str "   550.00,   4994.00,     -6.90,    -17.30,    235.00,     39.00"
  ++ [newline]
  ++ str "   500.00,   5737.00,    -11.50,    -24.00,    240.00,     43.00"
  ++ [newline]
  ++ str "   450.00,   6543.00,    -16.50,    -29.70,    245.00,     46.00"
  ++ [newline]
  ++ str "   400.00,   7428.00,    -22.00,    -35.90,    250.00,     50.00"
  ++ [newline]
  ++ str "   350.00,   8410.00,    -28.10,    -42.70,    260.00,     53.00"
  ++ [newline]
  ++ str "   300.00,   9516.00,    -34.90,    -50.50,    265.00,     57.00"
  ++ [newline]
  ++ str "   250.00,  10787.00,    -42.80,    -59.40,    270.00,     60.00"
  ++ [newline].

Definition complete_sounding : pystr :=
  sample_head ++ RAW ++ sounding_block ++ END_ ++ [newline].


Definition sounding_table : list (list pyfloat) :=
  [[Fin 965; Fin 350; Fin (51 # 2); Fin 18; Fin 190; Fin 10];
   [Fin 950; Fin 487; Fin (121 # 5); Fin (177 # 10); Fin 190; Fin 11];
   [Fin 925; Fin 719; Fin 22; Fin (173 # 10); Fin 195; Fin 13];
   [Fin 900; Fin 956; Fin (197 # 10); Fin (84 # 5); Fin 195; Fin 15];
   [Fin 875; Fin 1197; Fin (35 # 2); Fin (163 # 10); Fin 200; Fin 16];
   [Fin 850; Fin 1444; Fin (151 # 10); Fin (73 # 5); Fin 205; Fin 18];
   [Fin 825; Fin 1696; Fin (27 # 2); Fin (123 # 10); Fin 205; Fin 20];
   [Fin 800; Fin 1954; Fin (119 # 10); Fin 10; Fin 210; Fin 22];
   [Fin 775; Fin 2219; Fin (103 # 10); Fin (38 # 5); Fin 210; Fin 23];
   [Fin 750; Fin 2491; Fin (43 # 5); Fin (26 # 5); Fin 215; Fin 25];
   [Fin 725; Fin 2771; Fin (69 # 10); Fin (27 # 10); Fin 215; Fin 27];
   [Fin 700; Fin 3058; Fin (51 # 10); Fin (1 # 10); Fin 220; Fin 29];
   [Fin 650; Fin 3662; Fin (7 # 5); Fin (-27 # 5); Fin 225; Fin 32];
   [Fin 600; Fin 4305; Fin (-13 # 5); Fin (-111 # 10); Fin 230; Fin 36];
   [Fin 550; Fin 4994; Fin (-69 # 10); Fin (-173 # 10); Fin 235; Fin 39];
   [Fin 500; Fin 5737; Fin (-23 # 2); Fin (-24); Fin 240; Fin 43];
   [Fin 450; Fin 6543; Fin (-33 # 2); Fin (-297 # 10); Fin 245; Fin 46];
   [Fin 400; Fin 7428; Fin (-22); Fin (-359 # 10); Fin 250; Fin 50];
   [Fin 350; Fin 8410; Fin (-281 # 10); Fin (-427 # 10); Fin 260; Fin 53];
   [Fin 300; Fin 9516; Fin (-349 # 10); Fin (-101 # 2); Fin 265; Fin 57];
   [Fin 250; Fin 10787; Fin (-214 # 5); Fin (-297 # 5); Fin 270; Fin 60]].


End AcarsRun.

(* ================================================================== *)
(** * Warning/LSR: the warning polygons and the legend *)
(* ================================================================== *)

Module LsrWarnings.
Import Dict.

Definition colors : dict string :=
  [("SV", "yellow"); ("TO", "red"); ("FF", "green"); ("MA", "orange");
   ("DS", "brown")]%string.

Definition zorders : dict Z :=
  [("TO", 3%Z); ("SV", 2%Z); ("MA", 1%Z)]%string.

(** A GeoJSON position, ring and geometry.  [Rings] is the coordinate
    array of a polygon; [BareRing] is a single ring given without the
    enclosing array, with float coordinates. *)
Definition position : Type := list R.
Definition ring : Type := list position.

Inductive polygon_coordinates : Type :=
| Rings (rings : list ring)
| BareRing (r : ring).

Inductive geometry : Type :=
| NoGeometry
| Polygon (coordinates : polygon_coordinates)
| MultiPolygon (coordinates : list (list ring))
| OtherGeometry (type_ : string).

(** The columns of [df] the loop reads. *)
Record warning_row : Type := {
  phenomena : string;
  eventid : Z;
  geometry_ : geometry
}.

(** One [ax.text] call. *)
Record text_call : Type := {
  text_x : R;
  text_y : R;
  text_label : Z
}.

Section Polygons.

(** [mplPolygon(polygon_coords, closed=True)] *)
Variable patch : Type.
Variable mplPolygon : ring -> result patch.

Record plot_state : Type := {
  patches : list patch;
  phenomena_colors : list string;
  texts : list text_call;
  plotted_warnings : list string
}.

(** [polygon_coords[0][k]] *)
Definition coordinate (polygon_coords : ring) (k : Z) : result R :=
  p <- getitem polygon_coords 0 ;;
  getitem p k.

(** The body shared by lines 125-128 and 133-136. *)
Definition add_polygon (row : warning_row) (polygon_coords : ring)
           (st : plot_state) : result plot_state :=
  polygon <- mplPolygon polygon_coords ;;
  let patches' := patches st ++ [polygon] in
  let colors' := phenomena_colors st
                 ++ [get colors (phenomena row) "gray"%string] in
  x <- coordinate polygon_coords 0 ;;
  y <- coordinate polygon_coords 1 ;;
  Ok {| patches := patches'; phenomena_colors := colors';
        texts := texts st ++ [{| text_x := x; text_y := y;
                                 text_label := eventid row |}];
        plotted_warnings := plotted_warnings st |}.

Fixpoint add_polygons (row : warning_row) (rings : list ring)
         (st : plot_state) : result plot_state :=
  match rings with
  | [] => Ok st
  | polygon_coords :: rest =>
      st' <- add_polygon row polygon_coords st ;;
      add_polygons row rest st'
  end.

Fixpoint add_multipolygons (row : warning_row) (polygons : list (list ring))
         (st : plot_state) : result plot_state :=
  match polygons with
  | [] => Ok st
  | multipolygon_coords :: rest =>
      st' <- add_polygons row multipolygon_coords st ;;
      add_multipolygons row rest st'
  end.

(** Lines 121-123: [coordinates[0][0]] is read, and a bare ring is
    wrapped into a list. *)
Definition polygon_rings (coordinates : polygon_coordinates)
  : result (list ring) :=
  match coordinates with
  | Rings rings =>
      first <- getitem rings 0 ;;
      p <- getitem first 0 ;;
      Ok rings
  | BareRing r =>
      p <- getitem r 0 ;;
      x <- getitem p 0 ;;
      Ok [r]
  end.

(** [plotted_warnings.add(...)] *)
Definition set_add (s : list string) (x : string) : list string :=
  if existsb (String.eqb x) s then s else s ++ [x].

(** The body of the loop of lines 117-138. *)
Definition plot_row (row : warning_row) (st : plot_state)
  : result plot_state :=
  st' <- match geometry_ row with
         | NoGeometry => Ok st
         | Polygon coordinates =>
             rings <- polygon_rings coordinates ;;
             add_polygons row rings st
         | MultiPolygon polygons => add_multipolygons row polygons st
         | OtherGeometry _ => Ok st
         end ;;
  Ok {| patches := patches st'; phenomena_colors := phenomena_colors st';
        texts := texts st';
        plotted_warnings := set_add (plotted_warnings st') (phenomena row) |}.

Fixpoint plot_rows (df : list warning_row) (st : plot_state)
  : result plot_state :=
  match df with
  | [] => Ok st
  | row :: rest => st' <- plot_row row st ;; plot_rows rest st'
  end.

(** Lines 112-138. *)
Definition plot_warnings (df : list warning_row) : result plot_state :=
  plot_rows df {| patches := []; phenomena_colors := []; texts := [];
                  plotted_warnings := [] |}.

End Polygons.

(** The rings a geometry contributes, in drawing order. *)
Definition rings_of (g : geometry) : list ring :=
  match g with
  | Polygon (Rings rings) => rings
  | Polygon (BareRing r) => [r]
  | MultiPolygon polygons => concat polygons
  | NoGeometry | OtherGeometry _ => []
  end.

(** The face colour of the patches of a row, and their number. *)
Definition row_colors (row : warning_row) : list string :=
  repeat (get colors (phenomena row) "gray"%string)
         (length (rings_of (geometry_ row))).

Definition row_labels (row : warning_row) : list Z :=
  repeat (eventid row) (length (rings_of (geometry_ row))).

(** A severe-thunderstorm warning over one triangle, and a tornado
    warning without geometry. *)
Definition sample_warnings : list warning_row :=
  [ {| phenomena := "SV"%string; eventid := 31;
       geometry_ := MultiPolygon [[ [[-84; 42]; [-83; 42]; [-83; 43]]%R ]] |};
    {| phenomena := "TO"%string; eventid := 7; geometry_ := NoGeometry |} ].

(** One legend patch: its face colour and its zorder. *)
Record legend_patch : Type := {
  fc : string;
  zorder : Z
}.

(** The loop of lines 145-148 over the warnings in the order the set
    yields them. *)
Fixpoint legend (plotted_warnings : list string)
         (legend_patches : list legend_patch) (legend_labels : list string)
  : result (list legend_patch * list string) :=
  match plotted_warnings with
  | [] => Ok (legend_patches, legend_labels)
  | warning :: rest =>
      if contains colors warning then
        c <- item colors warning ;;
        z <- item zorders warning ;;
        legend rest (legend_patches ++ [{| fc := c; zorder := z |}])
               (legend_labels ++ [warning])
      else legend rest legend_patches legend_labels
  end.

(** [labels.index(label)] *)
Fixpoint list_index (labels : list string) (label : string) : result nat :=
  match labels with
  | [] => Raise ValueError
  | l :: rest =>
      if String.eqb l label then Ok O
      else i <- list_index rest label ;; Ok (S i)
  end.

(** Lines 104-106: [unique_labels] is [list(set(labels))], the distinct
    labels in the order the set yields them;
    [[handles[labels.index(label)] for label in unique_labels]]. *)
Fixpoint unique_handles {handle : Type} (handles : list handle)
         (labels unique_labels : list string) : result (list handle) :=
  match unique_labels with
  | [] => Ok []
  | label :: rest =>
      i <- list_index labels label ;;
      h <- getitem handles (Z.of_nat i) ;;
      hs <- unique_handles handles labels rest ;;
      Ok (h :: hs)
  end.

End LsrWarnings.

(* ================================================================== *)
(** * Facts: sequences *)
(* ================================================================== *)

Lemma str_eqb_eq a b : str_eqb a b = true <-> a = b.
Proof.
  revert b. induction a as [|x a IH]; intros [|y b]; simpl;
    try (split; congruence).
  rewrite andb_true_iff, N.eqb_eq, IH. split.
  - intros [-> ->]. reflexivity.
  - intros E. injection E as -> ->. split; reflexivity.
Qed.

Section SequenceFacts.
Context {A : Type}.

Lemma getitem_nth (l : list A) (i : nat) (a : A) :
  nth_error l i = Some a -> getitem l (Z.of_nat i) = Ok a.
Proof.
  intros H. unfold getitem.
  assert (Hlt : (i < length l)%nat) by (apply nth_error_Some; congruence).
  destruct (Z.of_nat i <? 0)%Z eqn:E; [apply Z.ltb_lt in E; lia|].
  destruct (Z.of_nat i <? 0)%Z eqn:E1; [apply Z.ltb_lt in E1; lia|].
  destruct (Z.of_nat (length l) <=? Z.of_nat i)%Z eqn:E2;
    [apply Z.leb_le in E2; lia|].
  simpl. rewrite Nat2Z.id, H. reflexivity.
Qed.

Lemma getitem_first (l : list A) (a : A) :
  hd_error l = Some a -> getitem l 0 = Ok a.
Proof.
  intros H. apply (getitem_nth l 0). destruct l; simpl in *; congruence.
Qed.

Lemma nth_error_last (l : list A) (d : A) :
  l <> [] -> nth_error l (length l - 1) = Some (last l d).
Proof.
  induction l as [|a l IH]; [congruence|]. intros _.
  destruct l as [|b l']; [reflexivity|].
  change (last (a :: b :: l') d) with (last (b :: l') d).
  rewrite <- IH by congruence.
  replace (length (a :: b :: l') - 1)%nat with (S (length (b :: l') - 1))
    by (simpl; lia).
  reflexivity.
Qed.

Lemma getitem_final (l : list A) (d : A) :
  l <> [] -> getitem l (-1) = Ok (last l d).
Proof.
  intros H. unfold getitem.
  assert (Hlen : (0 < length l)%nat) by (destruct l; simpl; [congruence|lia]).
  change (-1 <? 0)%Z with true. cbv iota.
  destruct (-1 + Z.of_nat (length l) <? 0)%Z eqn:E1;
    [apply Z.ltb_lt in E1; lia|].
  destruct (Z.of_nat (length l) <=? -1 + Z.of_nat (length l))%Z eqn:E2;
    [apply Z.leb_le in E2; lia|].
  replace (Z.to_nat (-1 + Z.of_nat (length l))) with (length l - 1)%nat by lia.
  rewrite (nth_error_last l d H). reflexivity.
Qed.

Lemma getitem_empty (i : Z) : getitem (@nil A) i = Raise IndexError.
Proof.
  unfold getitem. simpl.
  destruct (i <? 0)%Z eqn:E.
  - rewrite Z.add_0_r, E. reflexivity.
  - rewrite E. simpl. destruct (0 <=? i)%Z eqn:E2; [reflexivity|].
    apply Z.ltb_ge in E. apply Z.leb_gt in E2. lia.
Qed.

Lemma length_set_last (l : list A) (v : A) :
  length (Numpy.set_last l v) = length l.
Proof.
  destruct l as [|a l]; [reflexivity|].
  unfold Numpy.set_last.
  rewrite length_app, removelast_firstn_len, length_firstn. simpl. lia.
Qed.

Lemma last_set_last (l : list A) (v d : A) :
  l <> [] -> last (Numpy.set_last l v) d = v.
Proof.
  destruct l as [|a l]; [congruence|]. intros _.
  unfold Numpy.set_last. apply last_last.
Qed.

Lemma hd_set_last (l : list A) (v d : A) :
  (2 <= length l)%nat -> hd d (Numpy.set_last l v) = hd d l.
Proof.
  destruct l as [|a [|b l]]; simpl; try lia. reflexivity.
Qed.

End SequenceFacts.

(* ================================================================== *)
(** * Facts: the axis limits of the meteogram *)
(* ================================================================== *)

Section RoundingFacts.
Import PrimFloat SpecFloat FloatOps.
Import Meteogram.










End RoundingFacts.

(* ================================================================== *)
(** * Facts: the grids of the cross-section *)
(* ================================================================== *)

Section GridFacts.
Import Numpy Raob.
Local Open Scope R_scope.

Lemma length_linspace (a b : R) (n : nat) : length (linspace a b n) = n.
Proof.
  unfold linspace. destruct (1 <? n)%nat.
  - rewrite length_set_last, length_map, length_seq. reflexivity.
  - rewrite length_map, length_seq. reflexivity.
Qed.

Lemma hd_linspace (a b d : R) (n : nat) :
  (2 <= n)%nat -> hd d (linspace a b n) = a.
Proof.
  intros Hn. unfold linspace.
  destruct (Nat.ltb_spec 1 n) as [_|Hle]; [|lia].
  rewrite hd_set_last by (rewrite length_map, length_seq; exact Hn).
  destruct n as [|n]; [lia|]. simpl. lra.
Qed.

Lemma last_linspace (a b d : R) (n : nat) :
  (2 <= n)%nat -> last (linspace a b n) d = b.
Proof.
  intros Hn. unfold linspace.
  destruct (Nat.ltb_spec 1 n) as [_|Hle]; [|lia].
  apply last_set_last. destruct n; [lia|]. simpl. congruence.
Qed.

Lemma shape_meshgrid {A B} (a : list A) (b : list B) :
  b <> [] ->
  shape (fst (meshgrid a b)) = (length b, length a) /\
  shape (snd (meshgrid a b)) = (length b, length a).
Proof.
  intros Hb. destruct b as [|y b]; [congruence|].
  unfold meshgrid, shape. simpl. rewrite !length_map. split; reflexivity.
Qed.

(** The default vertical grid: 1000, 990, ..., 100. *)
Lemma default_vertical_levels :
  arange default_start (default_end - 1) (- default_step)
  = Ok (map (fun i => (1000 - 10 * Z.of_nat i)%Z) (seq 0 91)).
Proof. vm_compute. reflexivity. Qed.

(** C8. With [start=1000], [end=100], [step=10] the vertical grid has
    the 91 levels 1000, 990, ..., 100, the horizontal grid has 100
    points running from the first to the last station distance, and
    every array of [grid_data] has shape 100 x 91, not the 100 x 90 of
    the docstring. *)
Theorem default_grid_shape (dist : list R) :
  dist <> [] ->
  exists g,
    radisonde_cross_section dist default_start default_end default_step = Ok g /\
    vertical_levels g = map (fun i => (1000 - 10 * Z.of_nat i)%Z) (seq 0 91) /\
    length (vertical_levels g) = 91%nat /\
    hd 0%Z (vertical_levels g) = 1000%Z /\
    last (vertical_levels g) 0%Z = 100%Z /\
    length (x g) = 100%nat /\
    hd 0 (x g) = hd 0 dist /\
    last (x g) 0 = last dist 0 /\
    grid_shape g = (100, 91)%nat /\
    shape (p_grid g) = (100, 91)%nat /\
    shape (x_grid g) = (100, 91)%nat /\
    grid_shape g <> (100, 90)%nat.
Proof.
  intros Hd. unfold radisonde_cross_section.
  rewrite default_vertical_levels. cbn [bind].
  destruct dist as [|d0 rest] eqn:Edist; [congruence|].
  rewrite (getitem_first (d0 :: rest) d0 eq_refl). cbn [bind].
  rewrite (getitem_final (d0 :: rest) 0 Hd). cbn [bind].
  set (d1 := last (d0 :: rest) 0).
  set (levels := map (fun i => (1000 - 10 * Z.of_nat i)%Z) (seq 0 91)).
  assert (Hlev : length levels = 91%nat) by reflexivity.
  assert (Hx : length (linspace d0 d1 100) = 100%nat) by apply length_linspace.
  assert (Hne : linspace d0 d1 100 <> []).
  { intros E. rewrite E in Hx. discriminate. }
  destruct (shape_meshgrid levels (linspace d0 d1 100) Hne) as [Hp Hxx].
  destruct (meshgrid levels (linspace d0 d1 100)) as [pp xx] eqn:Em.
  cbn [fst snd] in Hp, Hxx. rewrite Hx, Hlev in Hp, Hxx.
  eexists. split; [reflexivity|]. cbn [vertical_levels x p_grid x_grid grid_shape].
  rewrite Hx, Hlev.
  repeat split; try reflexivity; try assumption;
    try (apply hd_linspace; lia); try (apply last_linspace; lia).
  discriminate.
Qed.

End GridFacts.

(* ================================================================== *)
(** * Facts: [np.interp] on increasing sample points *)
(* ================================================================== *)

Section InterpFacts.
Import Numpy.
Local Open Scope R_scope.

Lemma ascending_tail (a : R) (l : list R) : ascending (a :: l) -> ascending l.
Proof.
  intros H i j Hij. apply (H (S i) (S j)). simpl. lia.
Qed.

Lemma ascending_le (l : list R) (i j : nat) :
  ascending l -> (i <= j < length l)%nat -> nth i l 0 <= nth j l 0.
Proof.
  intros H Hij. destruct (Nat.eq_dec i j) as [->|Hne]; [lra|].
  apply Rlt_le, H. lia.
Qed.

Lemma last_as_nth (l : list R) : last l 0 = nth (length l - 1) l 0.
Proof.
  destruct l as [|a l]; [reflexivity|].
  symmetry. apply nth_error_nth. apply nth_error_last. congruence.
Qed.

(** The scan stops right after the bracketing index. *)
Lemma scan_bracket (key : R) (l : list R) :
  forall i j,
    ascending l -> (j < length l)%nat ->
    nth j l 0 <= key ->
    ((S j < length l)%nat -> key < nth (S j) l 0) ->
    scan key l i = (i + S j)%nat.
Proof.
  induction l as [|a l IH]; intros i j Hasc Hj Hle Hlt; [simpl in Hj; lia|].
  simpl. destruct (Rle_dec a key) as [Ha|Ha].
  - destruct j as [|j].
    + destruct l as [|b l]; simpl; [lia|].
      destruct (Rle_dec b key) as [Hb|Hb]; [|lia].
      exfalso. assert (Hlt' : key < b) by (apply Hlt; simpl; lia). lra.
    + rewrite (IH (S i) j).
      * lia.
      * eapply ascending_tail; eassumption.
      * simpl in Hj. lia.
      * exact Hle.
      * intros Hs. apply Hlt. simpl in *. lia.
  - exfalso. destruct j as [|j]; [simpl in Hle; lra|].
    assert (Hasc' : nth 0 (a :: l) 0 < nth (S j) (a :: l) 0)
      by (apply Hasc; simpl in *; lia).
    simpl in Hasc', Hle. lra.
Qed.

(** On increasing samples the search returns the index [j] with
    [arr[j] <= key < arr[j+1]] (or the last index at the last sample). *)
Lemma search_bracket (key : R) (arr : list R) (j : nat) :
  ascending arr -> (j < length arr)%nat ->
  nth j arr 0 <= key ->
  ((S j < length arr)%nat -> key < nth (S j) arr 0) ->
  key <= last arr 0 ->
  binary_search_with_guess key arr = Z.of_nat j.
Proof.
  intros Hasc Hj Hle Hlt Hlast. unfold binary_search_with_guess.
  destruct (Rlt_dec (last arr 0) key) as [H|_]; [lra|].
  assert (H0 : hd 0 arr <= key).
  { apply Rle_trans with (nth j arr 0); [|exact Hle].
    replace (hd 0 arr) with (nth 0 arr 0) by (destruct arr; reflexivity).
    apply ascending_le; [exact Hasc|lia]. }
  destruct (Rlt_dec key (hd 0 arr)) as [H|_]; [lra|].
  unfold linear_search. destruct arr as [|a tl]; [simpl in Hj; lia|].
  simpl skipn. destruct j as [|j].
  - destruct tl as [|b tl]; simpl; [reflexivity|].
    destruct (Rle_dec b key) as [Hb|Hb]; [|reflexivity].
    exfalso. assert (key < b) by (apply Hlt; simpl; lia). lra.
  - rewrite (scan_bracket key tl 1 j).
    + lia.
    + eapply ascending_tail; eassumption.
    + simpl in Hj. lia.
    + exact Hle.
    + intros Hs. apply Hlt. simpl in *. lia.
Qed.

(** At a sample point [np.interp] returns the sample value. *)
Lemma interp1_knot (xp fp : list R) (j : nat) :
  ascending xp -> (j < length xp)%nat ->
  interp1 (nth j xp 0) xp fp = nth j fp 0.
Proof.
  intros Hasc Hj. unfold interp1.
  destruct (Nat.eqb_spec (length xp) 1) as [H1|H1].
  - assert (j = 0%nat) by lia. subst j.
    replace (nth 0 xp 0) with (hd 0 xp) by (destruct xp; reflexivity).
    replace (nth 0 fp 0) with (hd 0 fp) by (destruct fp; reflexivity).
    destruct (Rlt_dec (hd 0 xp) (hd 0 xp)) as [H|_]; [lra|]. reflexivity.
  - rewrite (search_bracket (nth j xp 0) xp j Hasc Hj).
    + destruct (Z.eqb_spec (Z.of_nat j) (-1)) as [H|_]; [lia|].
      destruct (Z.eqb_spec (Z.of_nat j) (Z.of_nat (length xp))) as [H|_]; [lia|].
      rewrite Nat2Z.id.
      destruct (j =? length xp - 1)%nat; [reflexivity|].
      destruct (Req_dec_T (nth j xp 0) (nth j xp 0)) as [_|H]; [reflexivity|].
      congruence.
    + lra.
    + intros Hs. apply Hasc. lia.
    + rewrite last_as_nth. apply ascending_le; [exact Hasc|lia].
Qed.

(** Between two neighbouring samples [np.interp] returns the value of
    the straight line through them. *)
Lemma interp1_segment (x_val : R) (xp fp : list R) (j : nat) :
  ascending xp -> (S j < length xp)%nat ->
  nth j xp 0 <= x_val <= nth (S j) xp 0 ->
  interp1 x_val xp fp =
    (nth (S j) fp 0 - nth j fp 0) / (nth (S j) xp 0 - nth j xp 0)
    * (x_val - nth j xp 0) + nth j fp 0.
Proof.
  intros Hasc Hj [Hlo Hhi].
  assert (Hstep : nth j xp 0 < nth (S j) xp 0) by (apply Hasc; lia).
  destruct (Rle_lt_or_eq_dec _ _ Hhi) as [Hlt|Heq].
  - unfold interp1.
    destruct (Nat.eqb_spec (length xp) 1) as [H1|_]; [lia|].
    rewrite (search_bracket x_val xp j Hasc).
    + destruct (Z.eqb_spec (Z.of_nat j) (-1)) as [H|_]; [lia|].
      destruct (Z.eqb_spec (Z.of_nat j) (Z.of_nat (length xp))) as [H|_]; [lia|].
      rewrite Nat2Z.id.
      destruct (Nat.eqb_spec j (length xp - 1)) as [H|_]; [lia|].
      destruct (Req_dec_T (nth j xp 0) x_val) as [E|_]; [|reflexivity].
      rewrite <- E. field. lra.
    + lia.
    + exact Hlo.
    + intros _. exact Hlt.
    + rewrite last_as_nth. apply Rle_trans with (nth (S j) xp 0); [lra|].
      apply ascending_le; [exact Hasc|lia].
  - subst x_val. rewrite (interp1_knot xp fp (S j) Hasc Hj). field. lra.
Qed.

End InterpFacts.

(* ================================================================== *)
(** * Facts: [vertical_interpolate] *)
(* ================================================================== *)

Section VerticalFacts.
Import Numpy Raob.
Local Open Scope R_scope.

Lemma hd_as_error {A} (l : list A) (d : A) :
  l <> [] -> hd_error l = Some (hd d l).
Proof. destruct l; [congruence|reflexivity]. Qed.

(** On non-empty arrays of equal length the function returns, and the
    result is [level_value] on every level. *)
Lemma vertical_interpolate_closed (vcoord_data interp_var interp_levels : list R) :
  vcoord_data <> [] -> length interp_var = length vcoord_data ->
  vertical_interpolate vcoord_data interp_var interp_levels
  = Ok (map (level_value vcoord_data interp_var) interp_levels).
Proof.
  intros Hne Hlen.
  assert (Hvar : interp_var <> []).
  { intros E. subst. destruct vcoord_data; simpl in *; congruence. }
  unfold vertical_interpolate, interp.
  rewrite !length_rev, length_map, Hlen, Nat.eqb_refl.
  destruct (Nat.eqb_spec (length vcoord_data) 0) as [E|_].
  { destruct vcoord_data; simpl in *; congruence. }
  cbn [negb bind].
  rewrite (getitem_first vcoord_data (hd 0 vcoord_data))
    by (apply hd_as_error; exact Hne).
  cbn [bind]. rewrite (getitem_final vcoord_data 0 Hne). cbn [bind].
  rewrite (getitem_first interp_var (hd 0 interp_var))
    by (apply hd_as_error; exact Hvar).
  cbn [bind]. rewrite <- map_rev, rev_involutive, map_map.
  unfold mask_assign at 1. rewrite !length_map, Nat.eqb_refl. cbn [negb bind].
  rewrite (getitem_final interp_var 0 Hvar). cbn [bind].
  unfold mask_assign. rewrite !length_map, length_combine, !length_map.
  rewrite Nat.min_id, Nat.eqb_refl. cbn [negb]. f_equal.
  induction interp_levels as [|p l IH]; [reflexivity|].
  cbn [map combine fst snd]. rewrite IH. reflexivity.
Qed.

(** The function returns exactly on non-empty arrays of equal length. *)
Lemma vertical_interpolate_returns (vcoord_data interp_var interp_levels out : list R) :
  vertical_interpolate vcoord_data interp_var interp_levels = Ok out ->
  vcoord_data <> [] /\ length interp_var = length vcoord_data.
Proof.
  unfold vertical_interpolate, interp.
  rewrite !length_rev, length_map.
  destruct (Nat.eqb_spec (length vcoord_data) 0) as [E|E]; [discriminate|].
  destruct (Nat.eqb_spec (length interp_var) (length vcoord_data)) as [E1|E1];
    [|discriminate].
  intros _. split; [|exact E1]. intros ->. apply E. reflexivity.
Qed.

End VerticalFacts.

Section ClampFacts.
Import Numpy Raob.
Local Open Scope R_scope.

Lemma Rltb_true (a b : R) : a < b -> Rltb a b = true.
Proof. intros H. unfold Rltb. destruct (Rlt_dec a b); [reflexivity|lra]. Qed.

Lemma Rltb_false (a b : R) : b <= a -> Rltb a b = false.
Proof. intros H. unfold Rltb. destruct (Rlt_dec a b); [lra|reflexivity]. Qed.

Lemma level_value_below (vcoord_data interp_var : list R) (p : R) :
  p < last vcoord_data 0 ->
  level_value vcoord_data interp_var p = last interp_var 0.
Proof.
  intros H. unfold level_value. rewrite Rltb_true by exact H. reflexivity.
Qed.

Lemma level_value_above (vcoord_data interp_var : list R) (p : R) :
  hd 0 vcoord_data < p -> last vcoord_data 0 <= p ->
  level_value vcoord_data interp_var p = hd 0 interp_var.
Proof.
  intros H1 H2. unfold level_value, Rgtb.
  rewrite Rltb_false by exact H2. rewrite Rltb_true by exact H1. reflexivity.
Qed.

Lemma level_value_inside (vcoord_data interp_var : list R) (p : R) :
  last vcoord_data 0 <= p <= hd 0 vcoord_data ->
  level_value vcoord_data interp_var p
  = interp1 (ln p) (rev (map ln vcoord_data)) (rev interp_var).
Proof.
  intros [H1 H2]. unfold level_value, Rgtb.
  rewrite !Rltb_false by assumption. reflexivity.
Qed.

(** C2, as the code has it.  On every call that returns (non-empty
    arrays of equal length) a level below the last observed pressure
    receives the last observed value, and a level above the first
    observed pressure and not below the last receives the first
    observed value; whenever the last pressure does not exceed the
    first, as in a decreasing sounding, every level above the first
    pressure receives the first value. *)
Theorem clamp_outside_range (vcoord_data interp_var interp_levels : list R) :
  vcoord_data <> [] -> length interp_var = length vcoord_data ->
  exists out,
    vertical_interpolate vcoord_data interp_var interp_levels = Ok out /\
    length out = length interp_levels /\
    forall k p, nth_error interp_levels k = Some p ->
      (p < last vcoord_data 0 -> nth_error out k = Some (last interp_var 0)) /\
      (hd 0 vcoord_data < p -> last vcoord_data 0 <= p ->
         nth_error out k = Some (hd 0 interp_var)) /\
      (last vcoord_data 0 <= hd 0 vcoord_data -> hd 0 vcoord_data < p ->
         nth_error out k = Some (hd 0 interp_var)).
Proof.
  intros Hne Hlen. eexists. split; [apply vertical_interpolate_closed; assumption|].
  split; [apply length_map|].
  intros k p Hk.
  pose proof (map_nth_error (level_value vcoord_data interp_var) k interp_levels Hk)
    as Hout.
  repeat split; intros; rewrite Hout; f_equal.
  - apply level_value_below. assumption.
  - apply level_value_above; assumption.
  - apply level_value_above; [assumption|lra].
Qed.

(** C2 as stated fails when the pressures increase: the level 700 lies
    above the first pressure 500, yet it receives the last value 2 and
    not the first value 1, because the high mask is written last. *)
Lemma clamp_low_overwritten_by_high :
  vertical_interpolate [500; 1000] [1; 2] [700] = Ok [2] /\
  hd 0 [500; 1000] < 700 /\
  nth_error [2] 0 <> Some (hd 0 [1; 2]).
Proof.
  split; [|split].
  - rewrite vertical_interpolate_closed by (discriminate || reflexivity).
    cbn [map]. rewrite level_value_below by (simpl; lra). reflexivity.
  - simpl. lra.
  - simpl. intros E. injection E as E. lra.
Qed.

End ClampFacts.

Section LogLinearFacts.
Import Numpy Raob.
Local Open Scope R_scope.

Lemma decreasing_head (a : R) (l : list R) :
  decreasing (a :: l) ->
  decreasing l /\ forall j, (j < length l)%nat -> nth j l 0 < a.
Proof.
  revert a. induction l as [|b t IH]; intros a H.
  - split; [exact I|]. intros j Hj. simpl in Hj. lia.
  - destruct H as [Hba Ht]. split; [exact Ht|].
    intros [|j] Hj; [exact Hba|].
    destruct (IH b Ht) as [_ Hb]. simpl in Hj.
    apply Rlt_trans with b; [apply Hb; lia|exact Hba].
Qed.

Lemma decreasing_nth (l : list R) :
  decreasing l ->
  forall i j, (i < j < length l)%nat -> nth j l 0 < nth i l 0.
Proof.
  induction l as [|a l IH]; intros H i j Hij; [simpl in Hij; lia|].
  destruct (decreasing_head a l H) as [Hl Ha].
  destruct j as [|j]; [lia|]. destruct i as [|i].
  - simpl. apply Ha. simpl in Hij. lia.
  - simpl. apply IH; [exact Hl|]. simpl in Hij. lia.
Qed.

Lemma nth_map_ln (l : list R) (k : nat) :
  (k < length l)%nat -> nth k (map ln l) 0 = ln (nth k l 0).
Proof.
  intros Hk. rewrite (nth_indep _ 0 (ln 0)) by (rewrite length_map; exact Hk).
  apply map_nth.
Qed.

Lemma nth_positive (l : list R) (k : nat) :
  Forall (fun p => 0 < p) l -> (k < length l)%nat -> 0 < nth k l 0.
Proof.
  intros H Hk. rewrite Forall_forall in H. apply H. apply nth_In. exact Hk.
Qed.

Lemma ln_le_compat (a b : R) : 0 < a -> a <= b -> ln a <= ln b.
Proof.
  intros Ha [Hlt|Heq]; [|subst; lra]. apply Rlt_le, ln_increasing; assumption.
Qed.

(** The reversed logarithms of a decreasing sounding increase. *)
Lemma ascending_rev_ln (vcoord_data : list R) :
  decreasing vcoord_data -> Forall (fun p => 0 < p) vcoord_data ->
  ascending (rev (map ln vcoord_data)).
Proof.
  intros Hdec Hpos i j Hij. rewrite length_rev, length_map in Hij.
  rewrite !rev_nth by (rewrite length_map; lia).
  rewrite length_map, !nth_map_ln by lia.
  apply ln_increasing.
  - apply nth_positive; [exact Hpos|lia].
  - apply decreasing_nth; [exact Hdec|lia].
Qed.

(** A level inside the observed range sits on a sample or between two
    neighbouring ones. *)
Lemma bracket_exists (l : list R) (p : R) :
  l <> [] -> last l 0 <= p <= hd 0 l ->
  exists i, (i < length l)%nat /\
    (p = nth i l 0 \/
     ((S i < length l)%nat /\ nth (S i) l 0 <= p <= nth i l 0)).
Proof.
  induction l as [|a l IH]; [congruence|]. intros _ [Hlo Hhi].
  destruct l as [|b t].
  - exists 0%nat. simpl in *. split; [lia|]. left. lra.
  - destruct (Rle_dec b p) as [Hb|Hb].
    + exists 0%nat. simpl. split; [lia|]. right. split; [lia|]. simpl in Hhi. lra.
    + destruct IH as (i & Hi & Hcase).
      * congruence.
      * change (last (a :: b :: t) 0) with (last (b :: t) 0) in Hlo.
        simpl hd. lra.
      * exists (S i). split; [simpl in *; lia|].
        destruct Hcase as [E|[Hs Hbr]]; [left; exact E|].
        right. split; [simpl in *; lia|exact Hbr].
Qed.

(** C1. On a strictly decreasing array of (positive) pressures, with a
    variable array of the same length, the function returns, and a
    target level inside the observed range receives the log-linear
    interpolant: the sample value on a sample pressure, and between the
    neighbouring pressures [a >= p >= b] the value at [ln p] of the
    line through [(ln a, fa)] and [(ln b, fb)].  One of the two cases
    always applies. *)
Theorem vertical_interpolate_loglinear
    (vcoord_data interp_var interp_levels : list R) :
  decreasing vcoord_data -> Forall (fun p => 0 < p) vcoord_data ->
  vcoord_data <> [] -> length interp_var = length vcoord_data ->
  exists out,
    vertical_interpolate vcoord_data interp_var interp_levels = Ok out /\
    length out = length interp_levels /\
    forall k p, nth_error interp_levels k = Some p ->
      last vcoord_data 0 <= p <= hd 0 vcoord_data ->
      (forall i, (i < length vcoord_data)%nat -> p = nth i vcoord_data 0 ->
         nth_error out k = Some (nth i interp_var 0)) /\
      (forall i, (S i < length vcoord_data)%nat ->
         nth (S i) vcoord_data 0 <= p <= nth i vcoord_data 0 ->
         nth_error out k =
           Some (loglinear (nth i vcoord_data 0) (nth i interp_var 0)
                           (nth (S i) vcoord_data 0) (nth (S i) interp_var 0) p)) /\
      (exists i, (i < length vcoord_data)%nat /\
         (p = nth i vcoord_data 0 \/
          ((S i < length vcoord_data)%nat /\
           nth (S i) vcoord_data 0 <= p <= nth i vcoord_data 0))).
Proof.
  intros Hdec Hpos Hne Hlen.
  eexists. split; [apply vertical_interpolate_closed; assumption|].
  split; [apply length_map|].
  intros k p Hk Hrange.
  pose proof (map_nth_error (level_value vcoord_data interp_var) k interp_levels Hk)
    as Hout.
  rewrite level_value_inside in Hout by exact Hrange.
  pose proof (ascending_rev_ln vcoord_data Hdec Hpos) as Hasc.
  set (n := length vcoord_data) in *.
  assert (Hlenx : length (rev (map ln vcoord_data)) = n)
    by (rewrite length_rev, length_map; reflexivity).
  split; [|split].
  - intros i Hi Hp. rewrite Hout. f_equal.
    replace (ln p) with (nth (n - S i) (rev (map ln vcoord_data)) 0).
    + rewrite interp1_knot by (rewrite ?Hlenx; try exact Hasc; lia).
      rewrite rev_nth by lia. f_equal. lia.
    + rewrite rev_nth by (rewrite length_map; fold n; lia).
      rewrite length_map. fold n.
      replace (n - S (n - S i))%nat with i by lia.
      rewrite nth_map_ln by exact Hi. rewrite Hp. reflexivity.
  - intros i Hi [Hlo Hhi]. rewrite Hout. f_equal.
    assert (Hb : 0 < nth (S i) vcoord_data 0) by (apply nth_positive; assumption).
    rewrite (interp1_segment (ln p) _ _ (n - S (S i))).
    + rewrite !rev_nth by (rewrite ?length_map; fold n; lia).
      rewrite length_map, Hlen. fold n.
      replace (n - S (S (n - S (S i))))%nat with i by lia.
      replace (n - S (n - S (S i)))%nat with (S i) by lia.
      rewrite !nth_map_ln by (fold n; lia). reflexivity.
    + exact Hasc.
    + rewrite Hlenx. lia.
    + rewrite !rev_nth by (rewrite ?length_map; fold n; lia).
      rewrite length_map. fold n.
      replace (n - S (S (n - S (S i))))%nat with i by lia.
      replace (n - S (n - S (S i)))%nat with (S i) by lia.
      rewrite !nth_map_ln by (fold n; lia).
      split; apply ln_le_compat; try assumption. lra.
  - apply bracket_exists; assumption.
Qed.

End LogLinearFacts.

(* ================================================================== *)
(** * Facts: the altitude filter of the meteogram *)
(* ================================================================== *)

Section AltitudeFacts.
Import Frame MeteogramTable.

Lemma at_100000_spec (row : point_row) :
  at_100000 row = true <-> exists q, alt row = Fin q /\ (q == 100000)%Q.
Proof.
  unfold at_100000, float_ne. destruct (alt row) as [q| | |]; simpl.
  - rewrite negb_involutive, Qeq_bool_iff. split.
    + intros H. exists q. split; [reflexivity|exact H].
    + intros (q' & E & H). injection E as <-. exact H.
  - split; [discriminate|]. intros (q & E & _). discriminate.
  - split; [discriminate|]. intros (q & E & _). discriminate.
  - split; [discriminate|]. intros (q & E & _). discriminate.
Qed.

Lemma filter_other_labels {A} (df : dataframe A) (label : Z) :
  ~ In label (map fst df) ->
  filter (fun r => negb (fst r =? label)%Z) df = df.
Proof.
  intros Hnot. apply forallb_filter_id. apply forallb_forall.
  intros r Hr. destruct (Z.eqb_spec (fst r) label) as [E|_]; [|reflexivity].
  exfalso. apply Hnot. rewrite <- E. apply in_map. exact Hr.
Qed.

(** Dropping the label of a row of a frame with distinct labels removes
    that row and nothing else. *)
Lemma drop_unique {A} (kept rest : dataframe A) (label : Z) (row : A) :
  NoDup (map fst (kept ++ (label, row) :: rest)) ->
  drop (kept ++ (label, row) :: rest) label = Ok (kept ++ rest).
Proof.
  intros Hnd. unfold drop.
  replace (existsb (fun r => (fst r =? label)%Z) (kept ++ (label, row) :: rest))
    with true.
  - f_equal. rewrite map_app in Hnd. simpl in Hnd.
    apply NoDup_remove_2 in Hnd. rewrite <- map_app in Hnd.
    rewrite filter_app. simpl. rewrite Z.eqb_refl. simpl.
    rewrite <- filter_app. apply filter_other_labels. exact Hnd.
  - symmetry. apply existsb_exists. exists (label, row). split.
    + apply in_or_app. right. left. reflexivity.
    + simpl. apply Z.eqb_refl.
Qed.

(** The loop leaves the rows already passed and keeps, of the rows
    still to come, those at 100000. *)
Lemma drop_loop_filter (it kept : dataframe point_row) :
  NoDup (map fst (kept ++ it)) ->
  drop_loop it (kept ++ it)
  = Ok (kept ++ filter (fun r => at_100000 (snd r)) it).
Proof.
  revert kept. induction it as [|[index row] it IH]; intros kept Hnd.
  - reflexivity.
  - cbn [drop_loop filter snd]. unfold at_100000 at 1.
    destruct (float_ne (alt row) (Fin 100000)) eqn:E; cbn [negb].
    + rewrite drop_unique by exact Hnd. cbn [bind]. apply IH.
      rewrite map_app in *. simpl in Hnd. apply NoDup_remove_1 in Hnd. exact Hnd.
    + change (kept ++ (index, row) :: it) with (kept ++ [(index, row)] ++ it).
      rewrite app_assoc. rewrite IH.
      * rewrite <- app_assoc. unfold at_100000. reflexivity.
      * rewrite <- app_assoc. exact Hnd.
Qed.

Lemma map_fst_combine {A B} (l1 : list A) (l2 : list B) :
  length l1 = length l2 -> map fst (combine l1 l2) = l1.
Proof.
  revert l2. induction l1 as [|a l1 IH]; intros [|b l2] Hl; simpl in *;
    try reflexivity; try discriminate.
  f_equal. apply IH. lia.
Qed.

Lemma map_snd_combine {A B} (l1 : list A) (l2 : list B) :
  length l1 = length l2 -> map snd (combine l1 l2) = l2.
Proof.
  revert l2. induction l1 as [|a l1 IH]; intros [|b l2] Hl; simpl in *;
    try reflexivity; try discriminate.
  f_equal. apply IH. lia.
Qed.

Lemma DataFrame_labels {A} (rows : list A) :
  map fst (DataFrame rows) = map Z.of_nat (seq 0 (length rows)).
Proof.
  unfold DataFrame. apply map_fst_combine.
  rewrite length_map, length_seq. reflexivity.
Qed.

Lemma DataFrame_rows {A} (rows : list A) : map snd (DataFrame rows) = rows.
Proof.
  unfold DataFrame. apply map_snd_combine.
  rewrite length_map, length_seq. reflexivity.
Qed.

Lemma DataFrame_NoDup {A} (rows : list A) : NoDup (map fst (DataFrame rows)).
Proof.
  rewrite DataFrame_labels. apply Injective_map_NoDup.
  - intros a b. apply Nat2Z.inj.
  - apply seq_NoDup.
Qed.

Lemma map_snd_filter {A B} (f : B -> bool) (df : list (A * B)) :
  map snd (filter (fun r => f (snd r)) df) = filter f (map snd df).
Proof.
  induction df as [|[a b] df IH]; [reflexivity|].
  simpl. destruct (f b); simpl; rewrite IH; reflexivity.
Qed.

(** The filtering loop followed by [reset_index]: the rows at 100000, in
    their order, under the labels 0, 1, 2, ... *)
Lemma select_altitude_filter (point_data : list point_row) :
  select_altitude (DataFrame point_data)
  = Ok (DataFrame (filter at_100000 point_data)).
Proof.
  unfold select_altitude, iterrows.
  pose proof (drop_loop_filter (DataFrame point_data) []
                (DataFrame_NoDup point_data)) as H.
  cbn [app] in H. rewrite H. cbn [bind]. unfold reset_index.
  rewrite map_snd_filter, DataFrame_rows. reflexivity.
Qed.

Lemma nth_error_add_future_time (now : Z) (df : dataframe point_row)
      (i : nat) (label : Z) (row : point_row) :
  nth_error df i = Some (label, row) ->
  nth_error (add_future_time now df) i
  = Some (label,
          {| point := row;
             Hours := Z.of_nat i;
             future_time :=
               strftime_IMp (now - 4 * hour_ns + Z.of_nat i * hour_ns) |}).
Proof.
  intros H. unfold add_future_time.
  assert (Hi : (i < length df)%nat) by (apply nth_error_Some; congruence).
  apply map_nth_error with
    (f := fun ir : nat * (Z * point_row) =>
            (fst (snd ir),
             {| point := snd (snd ir);
                Hours := Z.of_nat (fst ir);
                future_time :=
                  strftime_IMp (now - 4 * hour_ns + Z.of_nat (fst ir) * hour_ns) |}))
    (d := (i, (label, row))).
  rewrite (nth_error_nth' _ (0%nat, (label, row))).
  - rewrite combine_nth by (rewrite length_seq; reflexivity).
    rewrite seq_nth by exact Hi.
    rewrite (nth_error_nth _ _ _ H). reflexivity.
  - rewrite length_combine, length_seq. lia.
Qed.

(** C4. After the loop and [reset_index] the table holds exactly the
    rows of the point data whose [alt] equals 100000, in their original
    order, under the labels 0, 1, 2, ...; the columns added afterwards
    give row [i] the forecast hour [i] and the time [now - 4h + i h]
    formatted as two digits of the 12-hour clock, a colon, two digits
    of the minute, a space and AM or PM. *)
Theorem meteogram_rows_at_100000 (now : Z) (point_data : list point_row) :
  select_altitude (DataFrame point_data)
    = Ok (DataFrame (filter at_100000 point_data)) /\
  map snd (DataFrame (filter at_100000 point_data))
    = filter at_100000 point_data /\
  map fst (DataFrame (filter at_100000 point_data))
    = map Z.of_nat (seq 0 (length (filter at_100000 point_data))) /\
  (forall row, In row (filter at_100000 point_data) <->
               In row point_data /\
               exists q, alt row = Fin q /\ (q == 100000)%Q) /\
  (exists df,
    meteogram_table now point_data = Ok df /\
    length df = length (filter at_100000 point_data) /\
    forall i row, nth_error (filter at_100000 point_data) i = Some row ->
      nth_error df i
      = Some (Z.of_nat i,
              {| point := row;
                 Hours := Z.of_nat i;
                 future_time :=
                   strftime_IMp (now - 4 * hour_ns + Z.of_nat i * hour_ns) |})) /\
  hour_ns = 3600000000000%Z /\
  (forall t : Z,
     let h := ((t / 3600000000000) mod 24)%Z in
     let m := ((t / 60000000000) mod 60)%Z in
     let h12 := if (h mod 12 =? 0)%Z then 12%Z else (h mod 12)%Z in
     strftime_IMp t
     = [(48 + Z.to_N (h12 / 10))%N; (48 + Z.to_N (h12 mod 10))%N; 58%N;
        (48 + Z.to_N (m / 10))%N; (48 + Z.to_N (m mod 10))%N; 32%N;
        (if (h <? 12)%Z then 65%N else 80%N); 77%N]) /\
  strftime_IMp 0 = str "12:00 AM" /\
  strftime_IMp (9 * 3600000000000 + 5 * 60000000000) = str "09:05 AM" /\
  strftime_IMp (12 * 3600000000000 + 30 * 60000000000) = str "12:30 PM" /\
  strftime_IMp (23 * 3600000000000 + 59 * 60000000000) = str "11:59 PM".
Proof.
  split; [apply select_altitude_filter|].
  split; [apply DataFrame_rows|].
  split; [apply DataFrame_labels|].
  split.
  { intros row. rewrite filter_In, at_100000_spec. reflexivity. }
  split.
  { unfold meteogram_table. rewrite select_altitude_filter. cbn [bind].
    eexists. split; [reflexivity|]. split.
    - unfold add_future_time. rewrite length_map, length_combine, length_seq.
      rewrite Nat.min_id. unfold DataFrame.
      rewrite length_combine, length_map, length_seq. apply Nat.min_id.
    - intros i row Hrow. apply nth_error_add_future_time.
      unfold DataFrame.
      assert (Hi : (i < length (filter at_100000 point_data))%nat)
        by (apply nth_error_Some; congruence).
      rewrite (nth_error_nth' _ (0%Z, row))
        by (rewrite length_combine, length_map, length_seq; lia).
      rewrite combine_nth by (rewrite length_map, length_seq; reflexivity).
      rewrite (nth_error_nth _ _ _ Hrow).
      change 0%Z with (Z.of_nat 0). rewrite map_nth, seq_nth by exact Hi.
      reflexivity. }
  split; [reflexivity|].
  split.
  { intros t h m h12. unfold strftime_IMp, two_digits, digit.
    change hour_ns with 3600000000000%Z.
    change minute_ns with 60000000000%Z.
    fold h. fold m. fold h12.
    change (str ":") with [58%N]. change (str " ") with [32%N].
    change (str "AM") with [65%N; 77%N]. change (str "PM") with [80%N; 77%N].
    destruct (h <? 12)%Z; reflexivity. }
  repeat split; vm_compute; reflexivity.
Qed.

(** 13:05 UTC prints as 01:05 PM. *)
Example strftime_IMp_afternoon :
  strftime_IMp (13 * hour_ns + 5 * minute_ns) = str "01:05 PM".
Proof. vm_compute. reflexivity. Qed.

End AltitudeFacts.

(** A run at 03:59: the two rows at 1000 hPa remain, labelled with the
    hours 23:59 and 00:59 of the shifted clock. *)
Lemma meteogram_rows_at_100000_witness :
  exists df,
    MeteogramTable.meteogram_table MeteogramAxes.sample_now
                                   MeteogramAxes.sample_point_data = Ok df /\
    length df = 2%nat /\
    nth_error df 0
    = Some (0%Z, {| MeteogramTable.point := MeteogramAxes.sample_point_row;
                    MeteogramTable.Hours := 0;
                    MeteogramTable.future_time := str "11:59 PM" |}) /\
    nth_error df 1
    = Some (1%Z, {| MeteogramTable.point := MeteogramAxes.sample_point_row;
                    MeteogramTable.Hours := 1;
                    MeteogramTable.future_time := str "12:59 AM" |}).
Proof.
  destruct (meteogram_rows_at_100000 MeteogramAxes.sample_now
              MeteogramAxes.sample_point_data)
    as (_ & _ & _ & _ & (df & Hdf & Hlen & Hrows) & _).
  exists df. split; [exact Hdf|]. split; [exact Hlen|]. split.
  - exact (Hrows 0%nat MeteogramAxes.sample_point_row eq_refl).
  - exact (Hrows 1%nat MeteogramAxes.sample_point_row eq_refl).
Defined.

(* ================================================================== *)
(** * Facts: the ACARS parser *)
(* ================================================================== *)

Section StringFacts.

Lemma slice_bound_id (n i : Z) : (0 <= i <= n)%Z -> slice_bound n i = i.
Proof.
  intros H. unfold slice_bound.
  destruct (Z.ltb_spec i 0); lia.
Qed.

(** Slicing out the middle of a concatenation. *)
Lemma slice_middle {A} (pre mid post : list A) :
  slice (pre ++ mid ++ post) (len pre) (len pre + len mid) = mid.
Proof.
  unfold slice, len. rewrite !length_app.
  rewrite !slice_bound_id by lia.
  replace (Z.to_nat (Z.of_nat (length pre) + Z.of_nat (length mid)
                     - Z.of_nat (length pre))) with (length mid) by lia.
  rewrite Nat2Z.id, skipn_app, skipn_all, Nat.sub_diag. simpl.
  rewrite firstn_app, firstn_all, Nat.sub_diag. simpl. apply app_nil_r.
Qed.

(** [find] returns a non-negative index or [-1]. *)
Lemma find_from_range (s sub : pystr) (i : Z) :
  (0 <= i)%Z ->
  find_from s sub i = (-1)%Z \/
  (i <= find_from s sub i <= i + len s)%Z.
Proof.
  revert i. induction s as [|c s IH]; intros i Hi; cbn [find_from].
  - destruct (startswith [] sub); [right; unfold len; simpl; lia|left; reflexivity].
  - destruct (startswith (c :: s) sub).
    + right. unfold len. simpl length. lia.
    + destruct (IH (i + 1)%Z) as [H|H]; [lia|left; exact H|].
      right. unfold len in *. simpl length. lia.
Qed.

(** A found index is an occurrence, and the first one. *)
Lemma find_from_found (s sub : pystr) (i r : Z) :
  find_from s sub i = r -> r <> (-1)%Z -> (0 <= i)%Z ->
  exists k : nat, r = (i + Z.of_nat k)%Z /\ (k <= length s)%nat /\
    startswith (skipn k s) sub = true /\
    forall k', (k' < k)%nat -> startswith (skipn k' s) sub = false.
Proof.
  revert i r. induction s as [|c s IH]; intros i r Hf Hr Hi; cbn [find_from] in Hf.
  - destruct (startswith [] sub) eqn:E; [|congruence].
    exists 0%nat. split; [lia|]. split; [lia|]. split; [exact E|].
    intros k' Hk. lia.
  - destruct (startswith (c :: s) sub) eqn:E.
    + exists 0%nat. split; [lia|]. split; [simpl; lia|]. split; [exact E|].
      intros k' Hk. lia.
    + destruct (IH (i + 1)%Z r Hf Hr) as (k & Hrk & Hk & Hs & Hmin); [lia|].
      exists (S k). split; [lia|]. split; [simpl; lia|]. split; [exact Hs|].
      intros [|k'] Hk'; [exact E|]. apply Hmin. lia.
Qed.

(** When [find] answers [-1] the substring occurs nowhere. *)
Lemma find_from_absent (s sub : pystr) (i : Z) :
  find_from s sub i = (-1)%Z -> (0 <= i)%Z ->
  forall k, startswith (skipn k s) sub = false.
Proof.
  revert i. induction s as [|c s IH]; intros i Hf Hi k; cbn [find_from] in Hf.
  - destruct (startswith [] sub) eqn:E; [lia|].
    destruct k; exact E.
  - destruct (startswith (c :: s) sub) eqn:E; [lia|].
    destruct k as [|k]; [exact E|]. simpl. apply (IH (i + 1)%Z); [exact Hf|lia].
Qed.

End StringFacts.

Section AcarsFacts.
Import Acars.
Variable numeric : pystr -> option pyfloat.

(** The loop appends the split of every retained line, and raises at
    the first one that does not give six values. *)
Lemma append_lines_retained (lines : list pystr) (df : list (list pystr)) :
  append_lines lines df
  = if forallb six_fields (retained lines)
    then Ok (df ++ map (split comma) (retained lines))
    else Raise ValueError.
Proof.
  revert df. induction lines as [|line rest IH]; intros df.
  - simpl. rewrite app_nil_r. reflexivity.
  - cbn [append_lines]. unfold retained in *. cbn [map filter].
    destruct (strip line) as [|c l] eqn:E; cbn [nonblank].
    + apply IH.
    + cbn [forallb map]. unfold one_row_frame, six_fields at 1.
      change (length columns) with 6%nat.
      destruct (length (split comma (c :: l)) =? 6)%nat; cbn [bind andb].
      * rewrite IH. destruct (forallb six_fields _); [|reflexivity].
        rewrite <- app_assoc. reflexivity.
      * reflexivity.
Qed.

(** The table in closed form. *)
Lemma acars_table_retained (data : pystr) :
  acars_table numeric data
  = if forallb six_fields (retained (table_lines data))
    then Ok (map (fun line => map (to_numeric_coerce numeric) (split comma line))
                 (retained (table_lines data)))
    else Raise ValueError.
Proof.
  unfold acars_table. rewrite append_lines_retained.
  destruct (forallb six_fields _); [|reflexivity].
  cbn [bind app]. rewrite map_map. reflexivity.
Qed.

(** With both sentinels in place the section is the stripped text
    between them. *)
Lemma data_section_between (data pre block post : pystr) :
  data = pre ++ RAW ++ block ++ END_ ++ post ->
  find data RAW = len pre ->
  find data END_ = (len pre + len RAW + len block)%Z ->
  data_section data = strip block.
Proof.
  intros Hd Hraw Hend. unfold data_section. rewrite Hraw, Hend. f_equal.
  rewrite Hd.
  replace (pre ++ RAW ++ block ++ END_ ++ post)
    with ((pre ++ RAW) ++ block ++ (END_ ++ post))
    by (rewrite <- !app_assoc; reflexivity).
  replace (len pre + len RAW)%Z with (len (pre ++ RAW))
    by (unfold len; rewrite length_app; lia).
  apply slice_middle.
Qed.

Lemma slice_from_1 {A} (l : list A) : slice_from l 1 = skipn 1 l.
Proof.
  unfold slice_from, slice_bound, len. 
  destruct l as [|a l]; [reflexivity|].
  change (1 <? 0)%Z with false. cbv iota.
  rewrite Z.min_l by (simpl length; lia). reflexivity.
Qed.

End AcarsFacts.

Section AcarsClaims.
Import Acars.
Variable numeric : pystr -> option pyfloat.

Lemma rows_have_six (lines : list pystr) :
  forallb six_fields lines = true ->
  Forall (fun row : list pyfloat => length row = 6%nat)
         (map (fun line => map (to_numeric_coerce numeric) (split comma line)) lines).
Proof.
  intros H. rewrite forallb_forall in H. apply Forall_forall.
  intros row Hin. apply in_map_iff in Hin. destruct Hin as (line & <- & Hl).
  rewrite length_map. apply Nat.eqb_eq. apply (H line Hl).
Qed.

(** C3. When the response carries both sentinels, the table is built
    from the text between them and from nothing else: that text is
    stripped, its first line is skipped, every remaining line that is
    not blank is split on commas into the six columns, and every cell
    is coerced to a number, a token the reader rejects becoming NaN.
    The table is returned exactly when every such line gives six
    values. *)
Theorem acars_table_from_block (data pre block post : pystr) :
  data = pre ++ RAW ++ block ++ END_ ++ post ->
  find data RAW = len pre ->
  find data END_ = (len pre + len RAW + len block)%Z ->
  let lines := skipn 1 (split newline (strip block)) in
  table_lines data = lines /\
  (forallb six_fields (retained lines) = true ->
   acars_table numeric data
   = Ok (map (fun line => map (to_numeric_coerce numeric) (split comma line))
             (retained lines))) /\
  (forall table, acars_table numeric data = Ok table ->
     table = map (fun line => map (to_numeric_coerce numeric) (split comma line))
                 (retained lines) /\
     Forall (fun row => length row = 6%nat) table /\
     length table = length (retained lines)) /\
  (forall tok, numeric tok = None -> to_numeric_coerce numeric tok = NaN) /\
  (forall tok f, numeric tok = Some f -> to_numeric_coerce numeric tok = f).
Proof.
  intros Hd Hraw Hend lines.
  assert (Hl : table_lines data = lines).
  { unfold table_lines. rewrite slice_from_1.
    rewrite (data_section_between data pre block post Hd Hraw Hend).
    reflexivity. }
  split; [exact Hl|].
  split; [|split; [|split]].
  - intros H. rewrite acars_table_retained, Hl, H. reflexivity.
  - intros table Ht. rewrite acars_table_retained, Hl in Ht.
    destruct (forallb six_fields (retained lines)) eqn:E; [|discriminate].
    injection Ht as <-. split; [reflexivity|]. split.
    + apply rows_have_six. exact E.
    + apply length_map.
  - intros tok H. unfold to_numeric_coerce. rewrite H. reflexivity.
  - intros tok f H. unfold to_numeric_coerce. rewrite H. reflexivity.
Qed.




(** The run: one call, then the first error in program order. *)
Lemma acars_script_run (response : Type) (fetch : Net.call -> result response)
      (decode : response -> pystr) (today : pystr) (figure : Type)
      (skewt : list (list pyfloat) -> AcarsRun.arrays -> result figure)
      (hodograph : figure -> pystr * pystr -> AcarsRun.arrays -> result figure) :
  AcarsRun.acars_script response fetch decode numeric today figure
                        skewt hodograph []
  = (match fetch (Net.urlopen Net.acars_url) with
     | Raise e => Raise e
     | Ok r =>
         df <- acars_table numeric (decode r) ;;
         AcarsRun.after_table today figure skewt hodograph df
     end,
     [Net.urlopen Net.acars_url]).
Proof.
  unfold AcarsRun.acars_script, Net.io_bind, Net.perform, Net.lift.
  destruct (fetch (Net.urlopen Net.acars_url)) as [e|r]; [reflexivity|].
  cbn [app]. destruct (acars_table numeric (decode r)); reflexivity.
Qed.

(** A station fails after the stations before it answered: the run ends
    with that error. *)
Lemma request_all_first_failure (response : Type)
      (fetch : Net.call -> result response)
      (pre : list string) (station : string) (post : list string) (e : exn)
      (log : list Net.call) :
  (forall s, In s pre ->
             exists r, fetch (Net.WyomingUpperAir_request_data s) = Ok r) ->
  fetch (Net.WyomingUpperAir_request_data station) = Raise e ->
  Net.request_all response fetch (pre ++ station :: post) log
  = (Raise e,
     log ++ map Net.WyomingUpperAir_request_data (pre ++ [station])).
Proof.
  revert log. induction pre as [|s pre IH]; intros log Hpre Hfail.
  - cbn [app Net.request_all map]. unfold Net.io_bind, Net.perform.
    rewrite Hfail. reflexivity.
  - cbn [app Net.request_all map]. unfold Net.io_bind at 1, Net.perform at 1.
    destruct (Hpre s (or_introl eq_refl)) as (r & ->).
    unfold Net.io_bind at 1.
    rewrite (IH (log ++ [Net.WyomingUpperAir_request_data s])
                (fun s' H => Hpre s' (or_intror H)) Hfail).
    rewrite <- app_assoc. reflexivity.
Qed.


End AcarsClaims.

(** The sample response parses to one row: the first line after the
    opening sentinel is skipped. *)
Example sample_response_table :
  Acars.acars_table plain_decimal sample_response = Ok sample_table.
Proof. vm_compute. reflexivity. Qed.

(** The complete sounding parses to its 21 levels. *)
Example complete_sounding_table :
  Acars.acars_table plain_decimal AcarsRun.complete_sounding
  = Ok AcarsRun.sounding_table.
Proof. vm_compute. reflexivity. Qed.


(* ================================================================== *)
(** * Facts: the wind reports *)
(* ================================================================== *)

Section SetitemFacts.
Context {A : Type}.

Lemma length_setitem (l : list A) (i : nat) (v : A) :
  length (setitem l i v) = length l.
Proof.
  revert i. induction l as [|a l IH]; intros [|i]; simpl; auto.
Qed.

Lemma nth_error_setitem_same (l : list A) (i : nat) (v : A) :
  (i < length l)%nat -> nth_error (setitem l i v) i = Some v.
Proof.
  revert i. induction l as [|a l IH]; intros [|i] H; simpl in *; try lia.
  - reflexivity.
  - apply IH. lia.
Qed.

Lemma nth_error_setitem_other (l : list A) (i j : nat) (v : A) :
  i <> j -> nth_error (setitem l i v) j = nth_error l j.
Proof.
  revert i j. induction l as [|a l IH]; intros [|i] [|j] H; simpl;
    try reflexivity; try congruence.
  apply IH. congruence.
Qed.

Lemma getitem_nat_inv (l : list A) (i : nat) (a : A) :
  getitem l (Z.of_nat i) = Ok a -> nth_error l i = Some a.
Proof.
  unfold getitem. destruct (Z.ltb_spec (Z.of_nat i) 0) as [H|_]; [lia|].
  destruct (Z.ltb_spec (Z.of_nat i) 0) as [H|_]; [lia|].
  destruct (Z.leb_spec (Z.of_nat (length l)) (Z.of_nat i)); simpl; [discriminate|].
  rewrite Nat2Z.id. destruct (nth_error l i); [|discriminate].
  intros E. injection E as ->. reflexivity.
Qed.

End SetitemFacts.

Section ConversionFacts.
Import Lsr.
Variable float_of_str : pystr -> option pyfloat.

Local Abbreviation convertible := (Props.convertible float_of_str).
Local Abbreviation converted := (Props.converted float_of_str).

Lemma np_nan_unbound : np_nan = Raise NameError.
Proof. reflexivity. Qed.

(** One step of the loop: the entry is converted in place, or the
    handler fails on the unbound name [np]. *)
Lemma convert_at_cases (col : list pyval) (i : nat) (v : pyval) :
  nth_error col i = Some v ->
  (convertible v /\
   convert_at float_of_str col i
   = Ok (if ne_UNK v then setitem col i (converted v) else col)) \/
  (~ convertible v /\ convert_at float_of_str col i = Raise NameError).
Proof.
  intros Hv. unfold convert_at. rewrite (getitem_nth col i v Hv). cbn [bind].
  destruct v as [s|f]; cbn [ne_UNK convertible converted py_float].
  - destruct (str_eqb s UNK) eqn:E; cbn [negb].
    + left. split; [exact I|reflexivity].
    + destruct (float_of_str s) as [f|] eqn:Ef; cbn [bind try_except exn_eqb].
      * left. split; [discriminate|reflexivity].
      * right. split; [intros H; apply H; reflexivity|].
        rewrite np_nan_unbound. reflexivity.
  - left. split; [exact I|reflexivity].
Qed.

Lemma convert_at_error (col : list pyval) (i : nat) (e : exn) :
  (i < length col)%nat ->
  convert_at float_of_str col i = Raise e -> e = NameError.
Proof.
  intros Hi H. destruct (nth_error col i) as [v|] eqn:Hv.
  - destruct (convert_at_cases col i v Hv) as [[_ E]|[_ E]];
      rewrite E in H; congruence.
  - apply nth_error_None in Hv. lia.
Qed.

Lemma convert_at_ok (col col' : list pyval) (i : nat) :
  (i < length col)%nat ->
  convert_at float_of_str col i = Ok col' ->
  length col' = length col /\
  (forall j, j <> i -> nth_error col' j = nth_error col j) /\
  exists v, nth_error col i = Some v /\ convertible v /\
            nth_error col' i = Some (converted v).
Proof.
  intros Hi H. destruct (nth_error col i) as [v|] eqn:Hv.
  2:{ apply nth_error_None in Hv. lia. }
  destruct (convert_at_cases col i v Hv) as [[Hc E]|[_ E]];
    rewrite E in H; [|discriminate].
  injection H as <-. destruct (ne_UNK v) eqn:Eu.
  - split; [apply length_setitem|]. split.
    + intros j Hj. apply nth_error_setitem_other. congruence.
    + exists v. split; [reflexivity|]. split; [exact Hc|].
      apply nth_error_setitem_same. exact Hi.
  - split; [reflexivity|]. split; [reflexivity|].
    exists v. split; [reflexivity|]. split; [exact Hc|].
    rewrite Hv. f_equal. destruct v as [s|f]; simpl in *; [|discriminate].
    destruct (str_eqb s UNK); [reflexivity|discriminate].
Qed.

(** A pass over the indices [a .. a+n-1]. *)
Lemma for_range_ok (n a : nat) (col col' : list pyval) :
  (a + n <= length col)%nat ->
  for_range float_of_str (seq a n) col = Ok col' ->
  length col' = length col /\
  forall j v, nth_error col j = Some v ->
    if ((a <=? j) && (j <? a + n))%nat
    then convertible v /\ nth_error col' j = Some (converted v)
    else nth_error col' j = Some v.
Proof.
  revert a col. induction n as [|n IH]; intros a col Hlen H.
  - simpl in H. injection H as <-. split; [reflexivity|].
    intros j v Hv. replace (j <? a + 0)%nat with (j <? a)%nat by (f_equal; lia).
    destruct (Nat.leb_spec a j), (Nat.ltb_spec j a); simpl; try exact Hv. lia.
  - cbn [seq for_range] in H.
    destruct (convert_at float_of_str col a) as [e|col1] eqn:E1; [discriminate|].
    cbn [bind] in H.
    destruct (convert_at_ok col col1 a ltac:(lia) E1)
      as (Hl1 & Hother & v0 & Hv0 & Hc0 & Hnew).
    destruct (IH (S a) col1 ltac:(lia) H) as (Hl2 & Hrest).
    split; [congruence|]. intros j v Hv.
    destruct (Nat.eq_dec j a) as [->|Hne].
    + rewrite Hv0 in Hv. injection Hv as <-.
      specialize (Hrest a (converted v0) Hnew).
      replace ((S a <=? a) && (a <? S a + n))%nat with false in Hrest
        by (destruct (Nat.leb_spec (S a) a); [lia|reflexivity]).
      replace ((a <=? a) && (a <? a + S n))%nat with true
        by (destruct (Nat.leb_spec a a), (Nat.ltb_spec a (a + S n));
            simpl; try reflexivity; lia).
      split; assumption.
    + rewrite <- (Hother j Hne) in Hv. specialize (Hrest j v Hv).
      replace ((a <=? j) && (j <? a + S n))%nat
        with ((S a <=? j) && (j <? S a + n))%nat; [exact Hrest|].
      destruct (Nat.leb_spec (S a) j), (Nat.leb_spec a j),
               (Nat.ltb_spec j (S a + n)), (Nat.ltb_spec j (a + S n));
        simpl; try reflexivity; lia.
Qed.

(** A pass meets an entry it cannot convert: [NameError]. *)
Lemma for_range_unconvertible (n a : nat) (col : list pyval) (i : nat) (v : pyval) :
  (a + n <= length col)%nat -> (a <= i < a + n)%nat ->
  nth_error col i = Some v -> ~ convertible v ->
  for_range float_of_str (seq a n) col = Raise NameError.
Proof.
  revert a col. induction n as [|n IH]; intros a col Hlen Hi Hv Hnc; [lia|].
  cbn [seq for_range].
  destruct (convert_at float_of_str col a) as [e|col1] eqn:E1; cbn [bind].
  - f_equal. apply (convert_at_error col a e); [lia|exact E1].
  - destruct (convert_at_ok col col1 a ltac:(lia) E1)
      as (Hl1 & Hother & v0 & Hv0 & Hc0 & _).
    destruct (Nat.eq_dec i a) as [->|Hne].
    + rewrite Hv0 in Hv. injection Hv as <-. contradiction.
    + apply IH; [lia|lia| |exact Hnc]. rewrite (Hother i Hne). exact Hv.
Qed.

End ConversionFacts.

Section WindFacts.
Import Lsr.
Variable float_of_str : pystr -> option pyfloat.
Local Abbreviation convertible := (Props.convertible float_of_str).
Local Abbreviation converted := (Props.converted float_of_str).

Lemma converted_settled (v : pyval) : convertible v -> settled (converted v).
Proof.
  destruct v as [s|f]; simpl; [|trivial].
  destruct (str_eqb s UNK) eqn:E; simpl; [intros _; exact E|].
  destruct (float_of_str s); simpl; [trivial|]. intros H. congruence.
Qed.

Lemma settled_convertible (v : pyval) : settled v -> convertible v.
Proof.
  destruct v as [s|f]; simpl; [|trivial]. intros ->. exact I.
Qed.

Lemma settled_converted (v : pyval) : settled v -> converted v = v.
Proof.
  destruct v as [s|f]; simpl; [|reflexivity]. intros ->. reflexivity.
Qed.

Lemma ne_UNK_false (v : pyval) : ne_UNK v = false <-> v = PStr UNK.
Proof.
  destruct v as [s|f]; simpl.
  - rewrite negb_false_iff, str_eqb_eq. split; congruence.
  - split; discriminate.
Qed.

(** A completed pass converts every entry. *)
Lemma convert_speeds_ok (col col' : list pyval) :
  convert_speeds float_of_str col = Ok col' ->
  col' = map converted col /\ Forall convertible col.
Proof.
  intros H. unfold convert_speeds in H.
  destruct (for_range_ok float_of_str (length col) 0 col col' ltac:(lia) H)
    as (Hlen & Hnth).
  assert (Hin : forall j v, nth_error col j = Some v ->
                  convertible v /\ nth_error col' j = Some (converted v)).
  { intros j v Hv. specialize (Hnth j v Hv).
    assert (Hj : (j < length col)%nat) by (apply nth_error_Some; congruence).
    replace ((0 <=? j) && (j <? 0 + length col))%nat with true in Hnth
      by (destruct (Nat.ltb_spec j (0 + length col)); simpl; [reflexivity|lia]).
    exact Hnth. }
  split.
  - apply nth_error_ext. intros j.
    destruct (nth_error col j) as [v|] eqn:Hv.
    + rewrite (map_nth_error _ _ _ Hv). apply Hin. exact Hv.
    + apply nth_error_None in Hv.
      transitivity (@None pyval); [|symmetry];
        apply nth_error_None; rewrite ?length_map; lia.
  - apply Forall_forall. intros v Hv. apply In_nth_error in Hv.
    destruct Hv as (j & Hj). apply (Hin j v Hj).
Qed.

Lemma for_range_total (n a : nat) (col : list pyval) :
  (a + n <= length col)%nat ->
  (forall j v, nth_error col j = Some v -> convertible v) ->
  exists col', for_range float_of_str (seq a n) col = Ok col'.
Proof.
  revert a col. induction n as [|n IH]; intros a col Hlen Hall.
  - exists col. reflexivity.
  - cbn [seq for_range].
    destruct (nth_error col a) as [v|] eqn:Hv.
    2:{ apply nth_error_None in Hv. lia. }
    destruct (convert_at_cases float_of_str col a v Hv) as [[Hc E]|[Hc _]].
    2:{ exfalso. apply Hc. apply (Hall a v Hv). }
    rewrite E. cbn [bind].
    destruct (convert_at_ok float_of_str col _ a ltac:(lia) E)
      as (Hl1 & Hother & v0 & Hv0 & Hc0 & Hnew).
    apply IH; [lia|]. intros j w Hw.
    destruct (Nat.eq_dec j a) as [->|Hne].
    + rewrite Hnew in Hw. injection Hw as <-.
      apply settled_convertible, converted_settled. exact Hc0.
    + rewrite (Hother j Hne) in Hw. apply (Hall j w Hw).
Qed.

(** The pass completes exactly when every entry is convertible. *)
Lemma convert_speeds_total (col : list pyval) :
  Forall convertible col ->
  convert_speeds float_of_str col = Ok (map converted col).
Proof.
  intros Hall.
  destruct (for_range_total (length col) 0 col ltac:(lia)) as (col' & H).
  - intros j v Hv. rewrite Forall_forall in Hall. apply Hall.
    apply nth_error_In with j. exact Hv.
  - unfold convert_speeds. rewrite H. f_equal.
    apply (convert_speeds_ok col col' H).
Qed.

(** The second pass (lines 82-88) changes nothing. *)
Lemma convert_speeds_twice (col col' : list pyval) :
  convert_speeds float_of_str col = Ok col' ->
  convert_speeds float_of_str col' = Ok col' /\ Forall settled col'.
Proof.
  intros H. destruct (convert_speeds_ok col col' H) as (-> & Hall).
  assert (Hs : Forall settled (map converted col)).
  { apply Forall_forall. intros v Hv. apply in_map_iff in Hv.
    destruct Hv as (w & <- & Hw). apply converted_settled.
    rewrite Forall_forall in Hall. apply Hall. exact Hw. }
  split; [|exact Hs].
  rewrite convert_speeds_total.
  - f_equal. rewrite <- (map_id (map converted col)) at 2.
    apply map_ext_in. intros v Hv. apply settled_converted.
    rewrite Forall_forall in Hs. apply Hs. exact Hv.
  - apply Forall_forall. intros v Hv. apply settled_convertible.
    rewrite Forall_forall in Hs. apply Hs. exact Hv.
Qed.

Lemma is_high_wind_settled (row : wind_row) :
  settled (Speed row) ->
  is_high_wind row
  = Ok (match marker_of (Speed row) with
        | HighWindReport => true
        | WindReport => false
        end).
Proof.
  unfold is_high_wind, settled, marker_of.
  destruct (Speed row) as [s|f]; simpl.
  - intros ->. reflexivity.
  - intros _. destruct (float_gt f (Fin 65)); reflexivity.
Qed.

(** The plotting loop on settled speeds: one call per report, in
    order. *)
Lemma plot_wind_settled (rows : list wind_row) :
  Forall (fun row => settled (Speed row)) rows ->
  plot_wind rows
  = Ok (map (fun row => {| at_lon := Lon row; at_lat := Lat row;
                           marker := marker_of (Speed row) |}) rows).
Proof.
  induction rows as [|row rows IH]; intros H; [reflexivity|].
  inversion H as [|? ? Hrow Hrest]; subst.
  cbn [plot_wind map]. rewrite (is_high_wind_settled row Hrow). cbn [bind].
  rewrite (IH Hrest). cbn [bind]. do 2 f_equal.
  destruct (marker_of (Speed row)); reflexivity.
Qed.

Lemma nth_error_with_speeds (df_wind : list wind_row) (col : list pyval)
      (i : nat) (row : wind_row) (v : pyval) :
  nth_error df_wind i = Some row -> nth_error col i = Some v ->
  nth_error (with_speeds df_wind col) i
  = Some {| Speed := v; Lon := Lon row; Lat := Lat row |}.
Proof.
  revert col i. induction df_wind as [|r df IH]; intros [|c col] [|i] Hr Hv;
    simpl in *; try discriminate.
  - injection Hr as ->. injection Hv as ->. reflexivity.
  - apply IH; assumption.
Qed.

Lemma with_speeds_settled (df_wind : list wind_row) (col : list pyval) :
  Forall settled col ->
  Forall (fun row => settled (Speed row)) (with_speeds df_wind col).
Proof.
  intros H. revert df_wind. induction H as [|v col Hv Hcol IH];
    intros [|r df]; simpl; constructor; [exact Hv|apply IH].
Qed.

Lemma length_with_speeds (df_wind : list wind_row) (col : list pyval) :
  length col = length df_wind ->
  length (with_speeds df_wind col) = length df_wind.
Proof.
  intros H. unfold with_speeds. rewrite length_map, length_combine. lia.
Qed.

End WindFacts.

Section WindClaims.
Import Lsr.
Variable float_of_str : pystr -> option pyfloat.
Local Abbreviation converted := (Props.converted float_of_str).

(** C5, what the code does.  An entry that is not ['UNK'] and that
    [float] rejects sends the loop into its handler, and the handler
    evaluates [np.nan] in a module that never imports [np]: the loop
    ends with a [NameError] instead of storing the missing-value
    marker. *)
Theorem parse_failure_raises_NameError (col : list pyval) (i : nat) (s : pystr) :
  nth_error col i = Some (PStr s) ->
  s <> UNK ->
  float_of_str s = None ->
  convert_speeds float_of_str col = Raise NameError.
Proof.
  intros Hv Hs Hf. unfold convert_speeds.
  assert (Hi : (i < length col)%nat) by (apply nth_error_Some; congruence).
  apply (for_range_unconvertible float_of_str (length col) 0 col i (PStr s));
    [lia|lia|exact Hv|].
  simpl. destruct (str_eqb s UNK) eqn:E.
  - apply str_eqb_eq in E. contradiction.
  - intros H. apply H. exact Hf.
Qed.

(** The part of C5 the code does keep: when the pass completes, an
    entry that is not ['UNK'] holds the float parsed from it. *)
Lemma parse_success_stores_float (col col' : list pyval) (i : nat) (s : pystr)
      (f : pyfloat) :
  convert_speeds float_of_str col = Ok col' ->
  nth_error col i = Some (PStr s) -> s <> UNK -> float_of_str s = Some f ->
  nth_error col' i = Some (PFloat f).
Proof.
  intros H Hv Hs Hf. destruct (convert_speeds_ok float_of_str col col' H) as (-> & _).
  rewrite (map_nth_error _ _ _ Hv). f_equal. simpl.
  destruct (str_eqb s UNK) eqn:E.
  - apply str_eqb_eq in E. contradiction.
  - rewrite Hf. reflexivity.
Qed.

Lemma float_gt_65 (f : pyfloat) :
  float_gt f (Fin 65) = true <->
  (exists q, f = Fin q /\ (65 < q)%Q) \/ f = PosInf.
Proof.
  destruct f as [q| | |]; cbn [float_gt].
  - rewrite negb_true_iff. split.
    + intros H. left. exists q. split; [reflexivity|].
      apply Qnot_le_lt. intros Hle. apply Qle_bool_iff in Hle. congruence.
    + intros [(q' & E & Hlt)|E]; [|discriminate]. injection E as <-.
      destruct (Qle_bool q 65) eqn:Hb; [|reflexivity].
      apply Qle_bool_iff in Hb. exfalso. apply (Qlt_not_le _ _ Hlt Hb).
  - split; [intros _; right; reflexivity|reflexivity].
  - split; [discriminate|]. intros [(q & E & _)|E]; discriminate.
  - split; [discriminate|]. intros [(q & E & _)|E]; discriminate.
Qed.

(** Either every entry can be converted, or some entry is a string
    other than ['UNK'] that [float] rejects. *)
Lemma all_or_unconvertible (col : list pyval) :
  Forall (Props.convertible float_of_str) col \/
  exists i s, nth_error col i = Some (PStr s) /\ s <> UNK /\
              float_of_str s = None.
Proof.
  induction col as [|v col IH]; [left; constructor|].
  assert (Hv : Props.convertible float_of_str v \/
               exists s, v = PStr s /\ s <> UNK /\ float_of_str s = None).
  { destruct v as [s|f]; cbn [Props.convertible]; [|left; exact I].
    destruct (str_eqb s UNK) eqn:E; [left; exact I|].
    destruct (float_of_str s) eqn:Ef; [left; discriminate|].
    right. exists s. split; [reflexivity|]. split; [|exact Ef].
    intros ->. rewrite (proj2 (str_eqb_eq UNK UNK) eq_refl) in E.
    discriminate. }
  destruct Hv as [Hv|(s & -> & Hs & Hf)].
  - destruct IH as [IH|(i & s & Hi & Hs & Hf)].
    + left. constructor; assumption.
    + right. exists (S i), s. split; [exact Hi|]. split; assumption.
  - right. exists 0%nat, s. split; [reflexivity|]. split; assumption.
Qed.

(** C10, what the code does.  The conversion loop leaves an ['UNK']
    entry as it is.  When every speed is ['UNK'], a number or a string
    [float] accepts, each wind report is plotted exactly once, in order
    and at its position: with the high-wind marker if and only if its
    converted speed is a number greater than 65 (or the positive
    infinity), and as a regular wind report otherwise, so always for
    ['UNK'] and for NaN.  When some speed is another string, the
    conversion loop ends with a [NameError] (its handler reads the
    unbound [np]) and no wind report is plotted at all. *)
Theorem wind_reports_outcome (df_wind : list wind_row) :
  (forall col i, nth_error col i = Some (PStr UNK) ->
                 convert_at float_of_str col i = Ok col) /\
  (((forall i row s, nth_error df_wind i = Some row ->
                     Speed row = PStr s ->
                     s <> UNK -> float_of_str s <> None) /\
    exists calls,
      wind_reports float_of_str df_wind = Ok calls /\
      length calls = length df_wind /\
      forall i row, nth_error df_wind i = Some row ->
        exists speed m,
          nth_error calls i
          = Some {| at_lon := Lon row; at_lat := Lat row; marker := m |} /\
          (Speed row = PStr UNK -> speed = PStr UNK) /\
          (forall s f, Speed row = PStr s -> s <> UNK ->
                       float_of_str s = Some f -> speed = PFloat f) /\
          (forall f, Speed row = PFloat f -> speed = PFloat f) /\
          (m = HighWindReport <->
           (exists q, speed = PFloat (Fin q) /\ (65 < q)%Q) \/
           speed = PFloat PosInf) /\
          (m = WindReport <-> m <> HighWindReport))
   \/
   ((exists i row s, nth_error df_wind i = Some row /\
                     Speed row = PStr s /\ s <> UNK /\
                     float_of_str s = None) /\
    wind_reports float_of_str df_wind = Raise NameError)).
Proof.
  split.
  { intros col i Hi.
    destruct (convert_at_cases float_of_str col i _ Hi) as [[_ E]|[Hc _]].
    - rewrite E. cbn [ne_UNK].
      rewrite (proj2 (str_eqb_eq UNK UNK) eq_refl). reflexivity.
    - exfalso. apply Hc. cbn [Props.convertible].
      rewrite (proj2 (str_eqb_eq UNK UNK) eq_refl). exact I. }
  destruct (all_or_unconvertible (map Speed df_wind))
    as [Hall|(i & s & Hi & Hs & Hf)].
  - left. split.
    { intros i row s Hrow Hsp Hs.
      rewrite Forall_forall in Hall.
      specialize (Hall (Speed row)
                    (in_map Speed _ _ (nth_error_In _ _ Hrow))).
      rewrite Hsp in Hall. cbn [Props.convertible] in Hall.
      destruct (str_eqb s UNK) eqn:E; [|exact Hall].
      apply str_eqb_eq in E. contradiction. }
    pose proof (convert_speeds_total float_of_str _ Hall) as H.
    destruct (convert_speeds_twice float_of_str _ _ H) as (H2 & Hset).
    set (col' := map converted (map Speed df_wind)) in *.
    assert (Hlen : length col' = length df_wind)
      by (unfold col'; rewrite !length_map; reflexivity).
    unfold wind_reports. rewrite H. cbn [bind]. rewrite H2. cbn [bind].
    rewrite plot_wind_settled by (apply with_speeds_settled; exact Hset).
    eexists. split; [reflexivity|]. split.
    { rewrite length_map. apply length_with_speeds. exact Hlen. }
    intros i row Hrow.
    assert (Hsp : nth_error col' i = Some (converted (Speed row))).
    { unfold col'. apply map_nth_error. apply map_nth_error. exact Hrow. }
    exists (converted (Speed row)), (marker_of (converted (Speed row))).
    split.
    { rewrite (map_nth_error _ _ _
                 (nth_error_with_speeds df_wind col' i row _ Hrow Hsp)).
      reflexivity. }
    split.
    { intros ->. cbn [Props.converted].
      rewrite (proj2 (str_eqb_eq UNK UNK) eq_refl). reflexivity. }
    split.
    { intros s f -> Hs Hf. cbn [Props.converted].
      destruct (str_eqb s UNK) eqn:E.
      - apply str_eqb_eq in E. contradiction.
      - rewrite Hf. reflexivity. }
    split; [intros f ->; reflexivity|].
    split.
    + destruct (converted (Speed row)) as [s|f]; cbn [marker_of].
      * split; [discriminate|]. intros [(q & E & _)|E]; discriminate.
      * destruct (float_gt f (Fin 65)) eqn:E.
        -- split; [|reflexivity]. intros _.
           apply float_gt_65 in E.
           destruct E as [(q & Eq & Hq)|Eq]; subst f;
             [left; exists q; split; [reflexivity|exact Hq]
             |right; reflexivity].
        -- split; [discriminate|].
           intros [(q & Eq & Hq)|Eq]; injection Eq as ->.
           ++ assert (Hgt : float_gt (Fin q) (Fin 65) = true)
                by (apply float_gt_65; left; exists q;
                    split; [reflexivity|exact Hq]).
              congruence.
           ++ cbn in E. discriminate E.
    + destruct (marker_of (converted (Speed row))); split; congruence.
  - right.
    rewrite nth_error_map in Hi.
    destruct (nth_error df_wind i) as [row|] eqn:Hrow; [|discriminate].
    cbn [option_map] in Hi. injection Hi as Hsp.
    split; [exists i, row, s; repeat split; assumption|].
    unfold wind_reports, convert_speeds at 1.
    rewrite (for_range_unconvertible float_of_str
               (length (map Speed df_wind)) 0 (map Speed df_wind) i (PStr s)).
    + reflexivity.
    + lia.
    + split; [lia|]. rewrite length_map. apply nth_error_Some. congruence.
    + rewrite (map_nth_error _ _ _ Hrow), Hsp. reflexivity.
    + cbn [Props.convertible]. destruct (str_eqb s UNK) eqn:E.
      * apply str_eqb_eq in E. contradiction.
      * intros H. apply H. exact Hf.
Qed.

End WindClaims.

(** C5 at a failing input: the second report carries the speed [unk]. *)
Lemma parse_failure_raises_NameError_witness :
  Lsr.convert_speeds plain_decimal
    [Lsr.PStr (str "60"); Lsr.PStr (str "unk")]
  = Raise NameError.
Proof.
  apply (parse_failure_raises_NameError plain_decimal
           [Lsr.PStr (str "60"); Lsr.PStr (str "unk")] 1 (str "unk")).
  - reflexivity.
  - vm_compute. discriminate.
  - vm_compute. reflexivity.
Defined.

Example sample_wind_plot :
  Lsr.wind_reports plain_decimal sample_wind
  = Ok [ {| Lsr.at_lon := Fin (-83); Lsr.at_lat := Fin 42;
            Lsr.marker := Lsr.HighWindReport |};
         {| Lsr.at_lon := Fin (-84); Lsr.at_lat := Fin 43;
            Lsr.marker := Lsr.WindReport |};
         {| Lsr.at_lon := Fin (-85); Lsr.at_lat := Fin 44;
            Lsr.marker := Lsr.WindReport |} ].
Proof. vm_compute. reflexivity. Qed.

(** At the threshold: 65 kt is a regular report, 66 kt a high-wind
    report. *)
Example threshold_wind_plot :
  Lsr.wind_reports plain_decimal threshold_wind
  = Ok [ {| Lsr.at_lon := Fin (-83); Lsr.at_lat := Fin 42;
            Lsr.marker := Lsr.WindReport |};
         {| Lsr.at_lon := Fin (-84); Lsr.at_lat := Fin 43;
            Lsr.marker := Lsr.HighWindReport |} ].
Proof. vm_compute. reflexivity. Qed.

(** C10 at a failing input: two reports, 60 kt and [unk]; neither is
    plotted. *)
Lemma wind_reports_outcome_witness :
  Lsr.wind_reports plain_decimal failing_wind = Raise NameError.
Proof.
  destruct (wind_reports_outcome plain_decimal failing_wind)
    as (_ & [(Hall & _)|(_ & H)]); [|exact H].
  exfalso. apply (Hall 1%nat _ (str "unk") eq_refl).
  - reflexivity.
  - vm_compute. discriminate.
  - vm_compute. reflexivity.
Defined.

(* ================================================================== *)
(** * Facts: the outbound calls *)
(* ================================================================== *)

Section NetFacts.
Import Net.
Variable response : Type.
Variable fetch : call -> result response.
Variable speed_column : response -> list Lsr.pyval.
Variable float_of_str : pystr -> option pyfloat.

Lemma request_all_calls (stations : list string) (log : list call) :
  snd (request_all response fetch stations log)
  = log ++ through_first_failure fetch
             (map WyomingUpperAir_request_data stations).
Proof.
  revert log. induction stations as [|s stations IH]; intros log.
  - cbn. rewrite app_nil_r. reflexivity.
  - cbn [request_all map through_first_failure].
    unfold io_bind at 1, perform at 1.
    destruct (fetch (WyomingUpperAir_request_data s)) as [e|r].
    + reflexivity.
    + unfold io_bind at 1.
      pose proof (IH (log ++ [WyomingUpperAir_request_data s])) as H.
      destruct (request_all response fetch stations
                  (log ++ [WyomingUpperAir_request_data s])) as [[e|rs] log'];
        cbn [snd lift] in *; rewrite H, <- app_assoc; reflexivity.
Qed.

Lemma through_first_failure_initial (calls : list call) :
  initial_part (through_first_failure fetch calls) calls.
Proof.
  induction calls as [|c calls (rest & IH)]; [exists []; reflexivity|].
  cbn [through_first_failure]. destruct (fetch c).
  - exists calls. reflexivity.
  - exists rest. cbn [app]. f_equal. exact IH.
Qed.

Lemma through_first_failure_all (calls : list call) :
  all_answer fetch -> through_first_failure fetch calls = calls.
Proof.
  intros Hall. induction calls as [|c calls IH]; [reflexivity|].
  cbn [through_first_failure]. destruct (Hall c) as (r & ->).
  rewrite IH. reflexivity.
Qed.

(** C6, as the code has it.  Only the ACARS script makes a single
    outbound call.  The HRRR script makes up to three, the RAOB script
    one per station, five in all, and the Warning/LSR script up to
    four.  A script makes its calls in program order and stops at the
    first one that fails: that call is the last one it makes.  It
    makes all of its calls when every call answers (for Warning/LSR,
    when the speed conversion between the third and the fourth call
    completes as well; when the conversion raises, the fourth call is
    not made). *)
Theorem outbound_calls_per_script :
  (forall (decode : response -> pystr) (numeric : pystr -> option pyfloat)
          (today : pystr) (figure : Type)
          (skewt : list (list pyfloat) -> AcarsRun.arrays -> result figure)
          (hodograph : figure -> pystr * pystr -> AcarsRun.arrays
                       -> result figure),
     calls_of (AcarsRun.acars_script response fetch decode numeric today
                 figure skewt hodograph)
     = [urlopen acars_url]) /\
  calls_of (hrrr_script response fetch)
  = through_first_failure fetch hrrr_calls /\
  ((forall e, fetch (TDSCatalog hrrr_catalog) = Raise e ->
      calls_of (hrrr_script response fetch) = [TDSCatalog hrrr_catalog]) /\
   (forall r e, fetch (TDSCatalog hrrr_catalog) = Ok r ->
      fetch ncss_subset = Raise e ->
      calls_of (hrrr_script response fetch)
      = [TDSCatalog hrrr_catalog; ncss_subset]) /\
   (forall r r', fetch (TDSCatalog hrrr_catalog) = Ok r ->
      fetch ncss_subset = Ok r' ->
      calls_of (hrrr_script response fetch)
      = [TDSCatalog hrrr_catalog; ncss_subset; ncss_get_data])) /\
  calls_of (raob_script response fetch)
  = through_first_failure fetch raob_calls /\
  (forall pre station post e,
     stn_list = pre ++ station :: post ->
     (forall s, In s pre ->
                exists r, fetch (WyomingUpperAir_request_data s) = Ok r) ->
     fetch (WyomingUpperAir_request_data station) = Raise e ->
     calls_of (raob_script response fetch)
     = map WyomingUpperAir_request_data (pre ++ [station])) /\
  ((forall r, fetch (read_csv wind_url) = Ok r ->
              exists col, Lsr.convert_speeds float_of_str (speed_column r)
                          = Ok col) ->
   calls_of (lsr_script response fetch speed_column float_of_str)
   = through_first_failure fetch lsr_calls) /\
  (forall r1 r2 r3 e,
     fetch (read_csv tor_url) = Ok r1 -> fetch (read_csv hail_url) = Ok r2 ->
     fetch (read_csv wind_url) = Ok r3 ->
     Lsr.convert_speeds float_of_str (speed_column r3) = Raise e ->
     calls_of (lsr_script response fetch speed_column float_of_str)
     = [read_csv tor_url; read_csv hail_url; read_csv wind_url]) /\
  initial_part (calls_of (hrrr_script response fetch)) hrrr_calls /\
  initial_part (calls_of (raob_script response fetch)) raob_calls /\
  initial_part (calls_of (lsr_script response fetch speed_column float_of_str))
               lsr_calls /\
  (all_answer fetch ->
   calls_of (hrrr_script response fetch) = hrrr_calls /\
   length (calls_of (hrrr_script response fetch)) = 3%nat /\
   calls_of (raob_script response fetch) = raob_calls /\
   length (calls_of (raob_script response fetch)) = 5%nat /\
   ((forall r, fetch (read_csv wind_url) = Ok r ->
               exists col, Lsr.convert_speeds float_of_str (speed_column r) = Ok col) ->
    calls_of (lsr_script response fetch speed_column float_of_str) = lsr_calls /\
    length (calls_of (lsr_script response fetch speed_column float_of_str)) = 4%nat)).
Proof.
  assert (Hh : calls_of (hrrr_script response fetch)
               = through_first_failure fetch hrrr_calls).
  { unfold calls_of, hrrr_script, hrrr_calls, io_bind, perform.
    cbn [through_first_failure].
    destruct (fetch (TDSCatalog hrrr_catalog)); [reflexivity|].
    destruct (fetch ncss_subset); [reflexivity|].
    cbn [snd app]. destruct (fetch ncss_get_data); reflexivity. }
  assert (Hr : calls_of (raob_script response fetch)
               = through_first_failure fetch raob_calls).
  { unfold calls_of, raob_script, raob_calls.
    rewrite request_all_calls. reflexivity. }
  assert (Hl : (forall r, fetch (read_csv wind_url) = Ok r ->
                  exists col, Lsr.convert_speeds float_of_str (speed_column r)
                              = Ok col) ->
               calls_of (lsr_script response fetch speed_column float_of_str)
               = through_first_failure fetch lsr_calls).
  { intros Hconv.
    unfold calls_of, lsr_script, lsr_calls, io_bind, perform, lift.
    cbn [through_first_failure].
    destruct (fetch (read_csv tor_url)); [reflexivity|].
    destruct (fetch (read_csv hail_url)); [reflexivity|].
    destruct (fetch (read_csv wind_url)) as [e|r3] eqn:E3; [reflexivity|].
    destruct (Hconv r3 eq_refl) as (col & ->).
    cbn [snd app]. destruct (fetch (requests_get cow_url)); reflexivity. }
  assert (Hl3 : forall r1 r2 r3 e,
     fetch (read_csv tor_url) = Ok r1 -> fetch (read_csv hail_url) = Ok r2 ->
     fetch (read_csv wind_url) = Ok r3 ->
     Lsr.convert_speeds float_of_str (speed_column r3) = Raise e ->
     calls_of (lsr_script response fetch speed_column float_of_str)
     = [read_csv tor_url; read_csv hail_url; read_csv wind_url]).
  { intros r1 r2 r3 e H1 H2 H3 Hc.
    unfold calls_of, lsr_script, io_bind, perform, lift.
    rewrite H1, H2, H3, Hc. reflexivity. }
  split.
  { intros decode numeric today figure skewt hodograph.
    unfold calls_of. rewrite acars_script_run. reflexivity. }
  split; [exact Hh|]. split.
  { rewrite Hh. unfold hrrr_calls. cbn [through_first_failure].
    split; [|split].
    - intros e ->. reflexivity.
    - intros r e -> ->. reflexivity.
    - intros r r' -> ->. destruct (fetch ncss_get_data); reflexivity. }
  split; [exact Hr|]. split.
  { intros pre station post e Hst Hpre Hfail.
    unfold calls_of, raob_script. rewrite Hst.
    rewrite (request_all_first_failure response fetch pre station post e []
               Hpre Hfail).
    reflexivity. }
  split; [exact Hl|]. split; [exact Hl3|].
  split; [rewrite Hh; apply through_first_failure_initial|].
  split; [rewrite Hr; apply through_first_failure_initial|].
  split.
  { unfold calls_of, initial_part, lsr_script, lsr_calls, io_bind, perform, lift.
    destruct (fetch (read_csv tor_url)); cbn [snd app]; [eexists; reflexivity|].
    destruct (fetch (read_csv hail_url)); cbn [snd app]; [eexists; reflexivity|].
    destruct (fetch (read_csv wind_url)) as [e|df_wind]; cbn [snd app];
      [eexists; reflexivity|].
    destruct (Lsr.convert_speeds float_of_str (speed_column df_wind));
      cbn [snd app]; [eexists; reflexivity|].
    exists []. reflexivity. }
  intros Hall.
  split; [rewrite Hh; apply through_first_failure_all; exact Hall|].
  split; [rewrite Hh, through_first_failure_all by exact Hall; reflexivity|].
  split; [rewrite Hr; apply through_first_failure_all; exact Hall|].
  split; [rewrite Hr, through_first_failure_all by exact Hall; reflexivity|].
  intros Hconv. rewrite (Hl Hconv), through_first_failure_all by exact Hall.
  split; reflexivity.
Qed.

End NetFacts.

(** The subset service fails: the HRRR script stops after its second
    call.  The third station fails: the RAOB script stops after its
    third request. *)
Example calls_until_failure :
  Net.calls_of (Net.hrrr_script unit subset_fails)
  = [Net.TDSCatalog Net.hrrr_catalog; Net.ncss_subset] /\
  Net.calls_of (Net.raob_script unit dvn_fails)
  = [Net.WyomingUpperAir_request_data "LBF";
     Net.WyomingUpperAir_request_data "OAX";
     Net.WyomingUpperAir_request_data "DVN"].
Proof. split; reflexivity. Qed.

(** C6 as stated fails: in a run in which every call answers, the
    Warning/LSR script makes four outbound calls, the RAOB script five
    and the HRRR script three. *)
Lemma more_than_one_outbound_call :
  Net.calls_of (Net.lsr_script unit (fun _ => Ok tt) (fun _ => []) plain_decimal)
  = [Net.read_csv Net.tor_url; Net.read_csv Net.hail_url;
     Net.read_csv Net.wind_url; Net.requests_get Net.cow_url] /\
  (1 < length (Net.calls_of
                 (Net.lsr_script unit (fun _ => Ok tt) (fun _ => []) plain_decimal)))%nat /\
  length (Net.calls_of (Net.raob_script unit (fun _ => Ok tt))) = 5%nat /\
  length (Net.calls_of (Net.hrrr_script unit (fun _ => Ok tt))) = 3%nat.
Proof.
  split; [reflexivity|]. split; [|split; reflexivity].
  vm_compute. repeat constructor.
Qed.

(* ================================================================== *)
(** * Instances *)
(* ================================================================== *)

Section Instances.
Import Raob.
Local Open Scope R_scope.

(** A two-level sounding, 1000 and 500 hPa: the level 700 receives the
    log-linear interpolant of the two observations. *)
Lemma vertical_interpolate_loglinear_witness :
  exists out,
    vertical_interpolate [1000; 500] [10; 20] [700] = Ok out /\
    nth_error out 0 = Some (loglinear 1000 10 500 20 700).
Proof.
  destruct (vertical_interpolate_loglinear [1000; 500] [10; 20] [700])
    as (out & Hv & _ & H).
  - simpl. split; [lra|exact I].
  - repeat constructor; lra.
  - discriminate.
  - reflexivity.
  - exists out. split; [exact Hv|].
    destruct (H 0%nat 700 eq_refl) as (_ & Hseg & _); [simpl; lra|].
    apply (Hseg 0%nat); simpl; [lia|lra].
Defined.

(** The same sounding: 1050 lies above the first pressure and 400
    below the last. *)
Lemma clamp_outside_range_witness :
  exists out,
    vertical_interpolate [1000; 500] [10; 20] [1050; 700; 400] = Ok out /\
    nth_error out 0 = Some 10 /\
    nth_error out 2 = Some 20.
Proof.
  destruct (clamp_outside_range [1000; 500] [10; 20] [1050; 700; 400])
    as (out & Hv & _ & H).
  - discriminate.
  - reflexivity.
  - exists out. split; [exact Hv|]. split.
    + destruct (H 0%nat 1050 eq_refl) as (_ & _ & Habove).
      apply Habove; simpl; lra.
    + destruct (H 2%nat 400 eq_refl) as (Hbelow & _).
      apply Hbelow; simpl; lra.
Defined.

(** Two stations, 250 km apart. *)
Lemma default_grid_shape_witness :
  exists g,
    radisonde_cross_section [0; 250000] default_start default_end default_step
    = Ok g /\
    grid_shape g = (100, 91)%nat.
Proof.
  destruct (default_grid_shape [0; 250000]) as (g & Hg & H).
  - discriminate.
  - exists g. split; [exact Hg|]. apply H.
Defined.

End Instances.

(** The sample response, with its two sentinels. *)
Lemma acars_table_from_block_witness :
  Acars.table_lines sample_response
  = skipn 1 (split newline (strip sample_block)) /\
  Acars.acars_table plain_decimal sample_response = Ok sample_table.
Proof.
  destruct (acars_table_from_block plain_decimal sample_response
              sample_head sample_block [newline])
    as (Hl & Hok & _).
  - reflexivity.
  - vm_compute. reflexivity.
  - vm_compute. reflexivity.
  - split; [exact Hl|]. rewrite Hok; vm_compute; reflexivity.
Defined.

(* ================================================================== *)
(** * Further facts: [vertical_interpolate] *)
(* ================================================================== *)

Section VerticalMore.
Import Numpy Raob.
Local Open Scope R_scope.

(** X1. [vertical_interpolate] returns one value per level when the
    observed arrays are non-empty and of equal length, and raises the
    [ValueError] of [np.interp] otherwise, whatever the levels. *)
Theorem vertical_interpolate_outcome
    (vcoord_data interp_var interp_levels : list R) :
  (vcoord_data <> [] /\ length interp_var = length vcoord_data /\
   exists out,
     vertical_interpolate vcoord_data interp_var interp_levels = Ok out /\
     length out = length interp_levels) \/
  ((vcoord_data = [] \/ length interp_var <> length vcoord_data) /\
   vertical_interpolate vcoord_data interp_var interp_levels = Raise ValueError).
Proof.
  destruct vcoord_data as [|a l] eqn:E.
  - right. split; [left; reflexivity|]. reflexivity.
  - rewrite <- E.
    destruct (Nat.eq_dec (length interp_var) (length vcoord_data)) as [Hl|Hl].
    + left. split; [subst; discriminate|]. split; [exact Hl|].
      eexists. split.
      * apply vertical_interpolate_closed; [subst; discriminate|exact Hl].
      * apply length_map.
    + right. split; [right; exact Hl|].
      unfold vertical_interpolate, interp.
      rewrite !length_rev, length_map.
      destruct (Nat.eqb_spec (length vcoord_data) 0) as [H0|_]; [reflexivity|].
      destruct (Nat.eqb_spec (length interp_var) (length vcoord_data));
        [contradiction|reflexivity].
Qed.

Lemma hd_as_nth (l : list R) : hd 0 l = nth 0 l 0.
Proof. destruct l; reflexivity. Qed.

Lemma decreasing_range (l : list R) (i : nat) :
  decreasing l -> (i < length l)%nat ->
  last l 0 <= nth i l 0 <= hd 0 l.
Proof.
  intros Hdec Hi. rewrite last_as_nth, hd_as_nth. split.
  - destruct (Nat.eq_dec i (length l - 1)) as [->|Hne]; [lra|].
    apply Rlt_le, decreasing_nth; [exact Hdec|lia].
  - destruct (Nat.eq_dec i 0) as [->|Hne]; [lra|].
    apply Rlt_le, decreasing_nth; [exact Hdec|lia].
Qed.

Lemma rev_ln_nth (l : list R) (j : nat) :
  (j < length l)%nat ->
  nth j (rev (map ln l)) 0 = ln (nth (length l - S j) l 0).
Proof.
  intros Hj. rewrite rev_nth by (rewrite length_map; exact Hj).
  rewrite length_map. apply nth_map_ln. lia.
Qed.

(** On a sample pressure the level receives the sample value. *)
Lemma level_value_knot (vcoord_data interp_var : list R) (i : nat) :
  decreasing vcoord_data -> Forall (fun p => 0 < p) vcoord_data ->
  length interp_var = length vcoord_data -> (i < length vcoord_data)%nat ->
  level_value vcoord_data interp_var (nth i vcoord_data 0) = nth i interp_var 0.
Proof.
  intros Hdec Hpos Hlen Hi.
  rewrite level_value_inside by (apply decreasing_range; assumption).
  set (n := length vcoord_data) in *.
  replace (ln (nth i vcoord_data 0))
    with (nth (n - S i) (rev (map ln vcoord_data)) 0).
  - rewrite interp1_knot.
    + rewrite rev_nth by lia. f_equal. lia.
    + apply ascending_rev_ln; assumption.
    + rewrite length_rev, length_map. fold n. lia.
  - rewrite rev_ln_nth by (fold n; lia). fold n. do 2 f_equal. lia.
Qed.

(** Between two neighbouring sample pressures the level receives the
    log-linear interpolant. *)
Lemma level_value_segment (vcoord_data interp_var : list R) (i : nat) (p : R) :
  decreasing vcoord_data -> Forall (fun p => 0 < p) vcoord_data ->
  length interp_var = length vcoord_data -> (S i < length vcoord_data)%nat ->
  nth (S i) vcoord_data 0 <= p <= nth i vcoord_data 0 ->
  level_value vcoord_data interp_var p
  = loglinear (nth i vcoord_data 0) (nth i interp_var 0)
              (nth (S i) vcoord_data 0) (nth (S i) interp_var 0) p.
Proof.
  intros Hdec Hpos Hlen Hi [Hlo Hhi].
  assert (Hb : 0 < nth (S i) vcoord_data 0) by (apply nth_positive; assumption).
  pose proof (decreasing_range vcoord_data (S i) Hdec Hi) as [Hl1 _].
  pose proof (decreasing_range vcoord_data i Hdec ltac:(lia)) as [_ Hh1].
  rewrite level_value_inside by lra.
  set (n := length vcoord_data) in *.
  rewrite (interp1_segment (ln p) _ _ (n - S (S i))).
  - rewrite !rev_ln_nth by (fold n; lia). fold n.
    rewrite !rev_nth by lia. rewrite Hlen. fold n.
    replace (n - S (S (n - S (S i))))%nat with i by lia.
    replace (n - S (n - S (S i)))%nat with (S i) by lia.
    reflexivity.
  - apply ascending_rev_ln; assumption.
  - rewrite length_rev, length_map. fold n. lia.
  - rewrite !rev_ln_nth by (fold n; lia). fold n.
    replace (n - S (S (n - S (S i))))%nat with i by lia.
    replace (n - S (n - S (S i)))%nat with (S i) by lia.
    split; apply ln_le_compat; try assumption. lra.
Qed.

Lemma loglinear_between (a fa b fb p lo hi : R) :
  0 < b -> b < a -> b <= p <= a ->
  lo <= fa <= hi -> lo <= fb <= hi ->
  lo <= loglinear a fa b fb p <= hi.
Proof.
  intros Hb Hab [Hbp Hpa] Hfa Hfb. unfold loglinear.
  assert (Hlab : ln b < ln a) by (apply ln_increasing; assumption).
  assert (Hlp : ln b <= ln p <= ln a)
    by (split; apply ln_le_compat; lra).
  set (t := (ln p - ln b) / (ln a - ln b)).
  assert (Ht : 0 <= t <= 1).
  { unfold t. split.
    - apply Rmult_le_pos; [lra|]. apply Rlt_le, Rinv_0_lt_compat. lra.
    - apply (Rmult_le_reg_r (ln a - ln b)); [lra|].
      unfold Rdiv. rewrite Rmult_assoc, Rinv_l by lra. lra. }
  replace ((fa - fb) / (ln a - ln b) * (ln p - ln b) + fb)
    with (fb + t * (fa - fb)) by (unfold t; field; lra).
  split; nra.
Qed.

Lemma Forall_nth_R (P : R -> Prop) (l : list R) (i : nat) :
  Forall P l -> (i < length l)%nat -> P (nth i l 0).
Proof.
  intros H Hi. rewrite Forall_forall in H. apply H, nth_In, Hi.
Qed.

(** X2. Interpolation never overshoots: bounds that hold for every observed
    value hold for every value on the grid, inside the observed range
    and outside. *)
Theorem vertical_interpolate_within_bounds
    (vcoord_data interp_var interp_levels : list R) (lo hi : R) :
  decreasing vcoord_data -> Forall (fun p => 0 < p) vcoord_data ->
  vcoord_data <> [] -> length interp_var = length vcoord_data ->
  Forall (fun v => lo <= v <= hi) interp_var ->
  exists out,
    vertical_interpolate vcoord_data interp_var interp_levels = Ok out /\
    Forall (fun v => lo <= v <= hi) out.
Proof.
  intros Hdec Hpos Hne Hlen Hb.
  eexists. split; [apply vertical_interpolate_closed; assumption|].
  apply Forall_forall. intros v Hv. apply in_map_iff in Hv.
  destruct Hv as (p & <- & _).
  assert (Hn : (0 < length vcoord_data)%nat)
    by (destruct vcoord_data; simpl; [congruence|lia]).
  destruct (Rlt_dec p (last vcoord_data 0)) as [H1|H1].
  { rewrite level_value_below by exact H1. rewrite last_as_nth.
    apply (Forall_nth_R _ _ _ Hb). lia. }
  destruct (Rlt_dec (hd 0 vcoord_data) p) as [H2|H2].
  { rewrite level_value_above by lra. rewrite hd_as_nth.
    apply (Forall_nth_R _ _ _ Hb). lia. }
  destruct (bracket_exists vcoord_data p Hne ltac:(lra)) as (i & Hi & [E|[Hs Hbr]]).
  - rewrite E, level_value_knot by assumption.
    apply (Forall_nth_R _ _ _ Hb). lia.
  - rewrite (level_value_segment _ _ i) by assumption.
    apply loglinear_between.
    + apply nth_positive; assumption.
    + apply decreasing_nth; [exact Hdec|lia].
    + exact Hbr.
    + apply (Forall_nth_R _ _ _ Hb). lia.
    + apply (Forall_nth_R _ _ _ Hb). lia.
Qed.

Lemma interp1_left (x_val : R) (xp fp : list R) :
  ascending xp -> xp <> [] -> x_val < hd 0 xp ->
  interp1 x_val xp fp = hd 0 fp.
Proof.
  intros Hasc Hne Hx. unfold interp1.
  destruct (length xp =? 1)%nat.
  - destruct (Rlt_dec x_val (hd 0 xp)); [reflexivity|lra].
  - unfold binary_search_with_guess.
    assert (Hl : hd 0 xp <= last xp 0).
    { rewrite hd_as_nth, last_as_nth. apply ascending_le; [exact Hasc|].
      destruct xp; simpl in *; [congruence|lia]. }
    destruct (Rlt_dec (last xp 0) x_val); [lra|].
    destruct (Rlt_dec x_val (hd 0 xp)); [|lra]. reflexivity.
Qed.

Lemma interp1_right (x_val : R) (xp fp : list R) :
  ascending xp -> xp <> [] -> last xp 0 < x_val ->
  interp1 x_val xp fp = last fp 0.
Proof.
  intros Hasc Hne Hx. unfold interp1.
  assert (Hl : hd 0 xp <= last xp 0).
  { rewrite hd_as_nth, last_as_nth. apply ascending_le; [exact Hasc|].
    destruct xp; simpl in *; [congruence|lia]. }
  destruct (length xp =? 1)%nat.
  - destruct (Rlt_dec x_val (hd 0 xp)); [lra|].
    destruct (Rlt_dec (hd 0 xp) x_val); [reflexivity|lra].
  - unfold binary_search_with_guess.
    destruct (Rlt_dec (last xp 0) x_val); [|lra].
    destruct (Z.eqb_spec (Z.of_nat (length xp)) (-1)); [lia|].
    rewrite Z.eqb_refl. reflexivity.
Qed.

Lemma hd_rev (l : list R) : hd 0 (rev l) = last l 0.
Proof.
  destruct l as [|a l] using rev_ind; [reflexivity|].
  rewrite rev_app_distr, last_last. reflexivity.
Qed.

Lemma last_rev (l : list R) : last (rev l) 0 = hd 0 l.
Proof.
  destruct l as [|a l]; [reflexivity|]. simpl. apply last_last.
Qed.

(** X3. On a decreasing sounding and positive levels the two mask
    assignments change nothing: [np.interp] has already put the first
    value above the range and the last value below it. *)
Theorem masks_change_nothing
    (vcoord_data interp_var interp_levels : list R) :
  decreasing vcoord_data -> Forall (fun p => 0 < p) vcoord_data ->
  vcoord_data <> [] -> length interp_var = length vcoord_data ->
  Forall (fun p => 0 < p) interp_levels ->
  vertical_interpolate vcoord_data interp_var interp_levels
  = (r <- interp (rev (map ln interp_levels)) (rev (map ln vcoord_data))
               (rev interp_var) ;;
     Ok (rev r)).
Proof.
  intros Hdec Hpos Hne Hlen Hlev.
  rewrite vertical_interpolate_closed by assumption.
  unfold interp. rewrite !length_rev, length_map, Hlen, Nat.eqb_refl.
  destruct (Nat.eqb_spec (length vcoord_data) 0) as [E|_].
  { destruct vcoord_data; simpl in *; congruence. }
  cbn [negb bind]. f_equal.
  rewrite <- map_rev, rev_involutive, map_map.
  apply map_ext_in. intros p Hp.
  assert (Hp0 : 0 < p) by (rewrite Forall_forall in Hlev; apply Hlev, Hp).
  pose proof (ascending_rev_ln vcoord_data Hdec Hpos) as Hasc.
  assert (Hrne : rev (map ln vcoord_data) <> []).
  { intros E. apply (f_equal (@length R)) in E.
    rewrite length_rev, length_map in E.
    destruct vcoord_data; simpl in *; congruence. }
  assert (Hn : (0 < length vcoord_data)%nat)
    by (destruct vcoord_data; simpl; [congruence|lia]).
  assert (Hhd : hd 0 (rev (map ln vcoord_data)) = ln (last vcoord_data 0)).
  { rewrite hd_as_nth, rev_ln_nth by lia. rewrite last_as_nth.
    do 2 f_equal; lia. }
  assert (Hlast : last (rev (map ln vcoord_data)) 0 = ln (hd 0 vcoord_data)).
  { rewrite last_as_nth, length_rev, length_map, rev_ln_nth by lia.
    rewrite hd_as_nth. do 2 f_equal; lia. }
  pose proof (decreasing_range vcoord_data 0 Hdec Hn) as [Hlh _].
  rewrite <- hd_as_nth in Hlh.
  destruct (Rlt_dec p (last vcoord_data 0)) as [H1|H1].
  { rewrite level_value_below by exact H1.
    rewrite interp1_left; [symmetry; apply hd_rev|exact Hasc|exact Hrne|].
    rewrite Hhd. apply ln_increasing; assumption. }
  destruct (Rlt_dec (hd 0 vcoord_data) p) as [H2|H2].
  { rewrite level_value_above by lra.
    rewrite interp1_right; [symmetry; apply last_rev|exact Hasc|exact Hrne|].
    rewrite Hlast. apply ln_increasing; [|exact H2].
    apply Rlt_le_trans with (last vcoord_data 0); [|exact Hlh].
    rewrite last_as_nth. apply nth_positive; [exact Hpos|lia]. }
  apply level_value_inside. lra.
Qed.

End VerticalMore.

(* ================================================================== *)
(** * Further facts: the grids for any start, end and step *)
(* ================================================================== *)

Section GridMore.
Import Numpy Raob.

(** With station distances at hand the grids exist as soon as the
    vertical levels do. *)
Lemma radisonde_cross_section_grids (dist : list R) (start end_ step : Z)
      (levels : list Z) :
  arange start (end_ - 1) (- step) = Ok levels -> dist <> [] ->
  radisonde_cross_section dist start end_ step
  = Ok {| vertical_levels := levels;
          x := linspace (hd 0%R dist) (last dist 0%R) 100;
          p_grid := fst (meshgrid levels
                           (linspace (hd 0%R dist) (last dist 0%R) 100));
          x_grid := snd (meshgrid levels
                           (linspace (hd 0%R dist) (last dist 0%R) 100));
          grid_shape := (100%nat, length levels) |}.
Proof.
  intros Ha Hd. unfold radisonde_cross_section. rewrite Ha. cbn [bind].
  rewrite (getitem_first dist (hd 0%R dist))
    by (destruct dist; [congruence|reflexivity]).
  cbn [bind]. rewrite (getitem_final dist 0%R Hd). cbn [bind].
  rewrite length_linspace.
  destruct (meshgrid levels (linspace (hd 0%R dist) (last dist 0%R) 100));
    reflexivity.
Qed.

Lemma descending_count (start end_ step : Z) :
  (0 < step)%Z -> (end_ <= start)%Z ->
  ceil_div (end_ - 1 - start) (- step) = ((start - end_) / step + 1)%Z.
Proof.
  intros Hs Hle. unfold ceil_div.
  pose proof (Z.div_mod (start - end_) step ltac:(lia)) as Hdm.
  pose proof (Z.mod_pos_bound (start - end_) step Hs) as Hm.
  assert (H : (- ((start - end_) / step + 1)
               = (- (end_ - 1 - start)) / - step)%Z).
  { apply (Z.div_unique _ _ _ ((start - end_) mod step + 1 - step)%Z).
    - right. lia.
    - nia. }
  lia.
Qed.

(** X4. The vertical grid for [start >= end] and a positive [step], all
    three within the 32-bit integers and giving fewer than 10000 steps:
    it starts at [start], steps down by [step], stays within
    [end .. start], has [(start - end) / step + 1] levels, and reaches
    [end] exactly when [step] divides [start - end]. *)
Theorem vertical_grid_levels (dist : list R) (start end_ step : Z) :
  (0 < step < 2 ^ 31)%Z -> (- 2 ^ 31 < end_)%Z -> (end_ <= start)%Z ->
  (start < 2 ^ 31)%Z -> ((start - end_) / step < 10000)%Z -> dist <> [] ->
  exists g,
    radisonde_cross_section dist start end_ step = Ok g /\
    vertical_levels g
    = map (fun i => (start - Z.of_nat i * step)%Z)
          (seq 0 (Z.to_nat ((start - end_) / step + 1))) /\
    length (vertical_levels g) = Z.to_nat ((start - end_) / step + 1) /\
    hd 0%Z (vertical_levels g) = start /\
    Forall (fun p => (end_ <= p <= start)%Z) (vertical_levels g) /\
    (In end_ (vertical_levels g) <-> (step | start - end_)%Z) /\
    grid_shape g = (100%nat, length (vertical_levels g)).
Proof.
  intros [Hs _] _ Hle _ _ Hd.
  set (n := Z.to_nat ((start - end_) / step + 1)).
  assert (Hq : (0 <= (start - end_) / step)%Z) by (apply Z.div_pos; lia).
  pose proof (Z.div_mod (start - end_) step ltac:(lia)) as Hdm.
  pose proof (Z.mod_pos_bound (start - end_) step Hs) as Hm.
  assert (Ha : arange start (end_ - 1) (- step)
               = Ok (map (fun i => (start - Z.of_nat i * step)%Z) (seq 0 n))).
  { unfold arange. destruct (Z.eqb_spec (- step) 0) as [E|_]; [lia|].
    replace (end_ - 1 - start)%Z with (end_ - 1 - start)%Z by reflexivity.
    rewrite descending_count by assumption. fold n. f_equal.
    apply map_ext. intros i. lia. }
  eexists. split; [apply (radisonde_cross_section_grids _ _ _ _ _ Ha Hd)|].
  cbn [vertical_levels grid_shape].
  split; [reflexivity|]. split; [rewrite length_map, length_seq; reflexivity|].
  split.
  { destruct n as [|n'] eqn:En; [unfold n in En; lia|]. simpl. lia. }
  split.
  { apply Forall_forall. intros p Hp. apply in_map_iff in Hp.
    destruct Hp as (i & <- & Hi). apply in_seq in Hi. unfold n in Hi.
    assert (Z.of_nat i <= (start - end_) / step)%Z by lia. nia. }
  split; [|reflexivity].
  split.
  - intros Hin. apply in_map_iff in Hin. destruct Hin as (i & Hi & _).
    exists (Z.of_nat i). lia.
  - intros [k Hk]. apply in_map_iff.
    assert (Hk0 : (0 <= k)%Z) by nia.
    assert (Hkq : (k = (start - end_) / step)%Z).
    { apply Z.div_unique_exact; lia. }
    exists (Z.to_nat k). split; [lia|]. apply in_seq. unfold n. lia.
Qed.

Local Open Scope R_scope.

Lemma nth_set_last (l : list R) (v : R) (i : nat) :
  (i < length l)%nat ->
  nth i (set_last l v) 0 = if (i =? length l - 1)%nat then v else nth i l 0.
Proof.
  intros Hi. destruct l as [|a l']; [simpl in Hi; lia|].
  unfold set_last. rewrite removelast_firstn_len.
  set (l := a :: l') in *.
  destruct (Nat.eqb_spec i (length l - 1)) as [E|E].
  - rewrite app_nth2 by (rewrite length_firstn; lia).
    rewrite length_firstn. replace (i - _)%nat with 0%nat by lia. reflexivity.
  - rewrite app_nth1 by (rewrite length_firstn; lia).
    rewrite nth_firstn. destruct (Nat.ltb_spec i (pred (length l))); [reflexivity|lia].
Qed.

(** The points of [np.linspace(a, b, n)] are equally spaced. *)
Lemma nth_linspace (a b : R) (n i : nat) :
  (2 <= n)%nat -> (i < n)%nat ->
  nth i (linspace a b n) 0 = a + INR i * ((b - a) / INR (n - 1)).
Proof.
  intros Hn Hi. unfold linspace.
  destruct (Nat.ltb_spec 1 n) as [_|H]; [|lia].
  rewrite nth_set_last by (rewrite length_map, length_seq; exact Hi).
  rewrite length_map, length_seq.
  assert (Hpos : 0 < INR (n - 1)) by (apply lt_0_INR; lia).
  destruct (Nat.eqb_spec i (n - 1)) as [->|_].
  - field. lra.
  - rewrite (nth_indep _ 0 (INR 0 * ((b - a) / INR (n - 1)) + a))
      by (rewrite length_map, length_seq; exact Hi).
    rewrite (map_nth (fun i => INR i * ((b - a) / INR (n - 1)) + a)).
    rewrite seq_nth by exact Hi. simpl Nat.add. lra.
Qed.

(** X6. The horizontal grid: 100 equally spaced points from the first
    station distance to the last, none outside that range. *)
Theorem horizontal_grid_points (dist : list R) (start end_ step : Z) :
  step <> 0%Z -> dist <> [] ->
  exists g,
    radisonde_cross_section dist start end_ step = Ok g /\
    length (x g) = 100%nat /\
    (forall i, (i < 100)%nat ->
       nth i (x g) 0 = hd 0 dist + INR i * ((last dist 0 - hd 0 dist) / 99)) /\
    (hd 0 dist <= last dist 0 ->
     Forall (fun v => hd 0 dist <= v <= last dist 0) (x g)) /\
    (forall i j, (i < j < 100)%nat -> hd 0 dist < last dist 0 ->
       nth i (x g) 0 < nth j (x g) 0).
Proof.
  intros Hs Hd.
  destruct (arange start (end_ - 1) (- step)) as [e|levels] eqn:Ha.
  { unfold arange in Ha. destruct (Z.eqb_spec (- step) 0); [lia|discriminate]. }
  eexists. split; [apply (radisonde_cross_section_grids _ _ _ _ _ Ha Hd)|].
  cbn [x].
  assert (Hnth : forall i, (i < 100)%nat ->
            nth i (linspace (hd 0 dist) (last dist 0) 100) 0
            = hd 0 dist + INR i * ((last dist 0 - hd 0 dist) / 99)).
  { intros i Hi. rewrite nth_linspace by lia.
    replace (INR (100 - 1)) with 99 by (simpl; lra). reflexivity. }
  split; [apply length_linspace|]. split; [exact Hnth|]. split.
  - intros Hle. apply Forall_forall. intros v Hv.
    apply (In_nth _ _ 0) in Hv. destruct Hv as (i & Hi & <-).
    rewrite length_linspace in Hi. rewrite Hnth by exact Hi.
    assert (H0 : 0 <= INR i) by apply pos_INR.
    assert (H1 : INR i <= 99).
    { replace 99 with (INR 99) by (simpl; lra). apply le_INR. lia. }
    split; nra.
  - intros i j Hij Hlt. rewrite !Hnth by lia.
    assert (INR i < INR j) by (apply lt_INR; lia). nra.
Qed.

End GridMore.

(* ================================================================== *)
(** * Further facts: the loop over keys and stations *)
(* ================================================================== *)

Section StationFacts.
Import Numpy Raob Dict RaobStations.

Ltac bind_inv H :=
  repeat match type of H with
         | bind ?m _ = Ok _ =>
             let E := fresh "E" in
             destruct m eqn:E; cbn [bind] in H; [discriminate|]
         end.

Lemma fromkeys_In (keys : list string) (k : string) :
  In k (fromkeys keys) <-> In k keys.
Proof.
  induction keys as [|a keys IH]; [reflexivity|].
  cbn [fromkeys]. simpl. rewrite filter_In, IH.
  destruct (String.eqb_spec k a) as [->|Hne].
  - split; intros; left; reflexivity.
  - split.
    + intros [H|[H _]]; [left; exact H|right; exact H].
    + intros [H|H]; [left; exact H|]. right. split; [exact H|]. reflexivity.
Qed.

Lemma fromkeys_NoDup (keys : list string) : NoDup (fromkeys keys).
Proof.
  induction keys as [|a keys IH]; [constructor|].
  cbn [fromkeys]. constructor.
  - rewrite filter_In. intros [_ H]. rewrite String.eqb_refl in H. discriminate.
  - apply NoDup_filter. exact IH.
Qed.

Variable data : dict sounding.
Variable levels : list Z.

Lemma station_row_ok (key station : string) (st : station_lists)
      (r : station_lists * list R) :
  station_row data levels key station st = Ok r ->
  length (snd r) = length levels /\
  (key = "pressure"%string -> snd r = map IZR levels /\ lists_grown st (fst r) 1) /\
  (key <> "pressure"%string -> fst r = st).
Proof.
  unfold station_row. intros H.
  destruct (String.eqb_spec key "pressure"%string) as [Hk|Hk].
  - bind_inv H. injection H as <-. cbn [fst snd].
    split; [apply length_map|]. split; [|congruence].
    intros _. split; [reflexivity|].
    unfold lists_grown. cbn [lats lons elev]. rewrite !length_app. simpl.
    repeat split; reflexivity.
  - bind_inv H. injection H as <-. cbn [fst snd].
    split; [|split; [congruence|reflexivity]].
    match goal with
    | E : vertical_interpolate ?p ?v ?l = Ok _ |- _ =>
        destruct (vertical_interpolate_outcome p v l)
          as [(_ & _ & out & Ho & Hl)|(_ & Hr)]
    end.
    + rewrite Ho in *. match goal with
                       | E : Ok _ = Ok _ |- _ => injection E as <-
                       end.
      rewrite Hl. apply length_map.
    + congruence.
Qed.

Lemma over_stations_ok (key : string) (stns : list string) :
  forall (st : station_lists) (rows : list (list R))
         (r : station_lists * list (list R)),
    over_stations data levels key stns st rows = Ok r ->
    exists new,
      snd r = rows ++ new /\
      length new = length stns /\
      Forall (fun row => length row = length levels) new /\
      (key = "pressure"%string ->
       new = repeat (map IZR levels) (length stns) /\
       lists_grown st (fst r) (length stns)) /\
      (key <> "pressure"%string -> fst r = st).
Proof.
  induction stns as [|station rest IH]; intros st rows r H.
  - cbn [over_stations] in H. injection H as <-. exists [].
    cbn [fst snd]. rewrite app_nil_r.
    repeat split; try reflexivity; try constructor;
      unfold lists_grown; cbn; lia.
  - cbn [over_stations] in H.
    destruct (station_row data levels key station st) as [e|r1] eqn:E1;
      cbn [bind] in H; [discriminate|].
    destruct (station_row_ok _ _ _ _ E1) as (Hl1 & Hp1 & Hn1).
    destruct (IH _ _ _ H) as (new & Hs & Hlen & Hall & Hp & Hn).
    exists (snd r1 :: new). split; [rewrite Hs, <- app_assoc; reflexivity|].
    split; [simpl; lia|]. split; [constructor; assumption|]. split.
    + intros Hk. destruct (Hp1 Hk) as (Hrow & Hg1).
      destruct (Hp Hk) as (Hnew & Hg). split.
      * simpl. rewrite Hrow, Hnew. reflexivity.
      * unfold lists_grown in *. simpl length. lia.
    + intros Hk. rewrite (Hn Hk). apply Hn1. exact Hk.
Qed.

Local Abbreviation well_shaped := (RaobStations.well_shaped levels).

Lemma over_keys_ok (stns : list string) (keys : list string) :
  forall (st : station_lists) (tmp_grid : dict (list (list R)))
         (r : station_lists * dict (list (list R))),
    NoDup keys ->
    over_keys data levels keys stns st tmp_grid = Ok r ->
    exists new,
      snd r = tmp_grid ++ new /\
      map fst new = keys /\
      Forall (well_shaped (length stns)) new /\
      (In "pressure"%string keys -> lists_grown st (fst r) (length stns)) /\
      (~ In "pressure"%string keys -> fst r = st).
Proof.
  induction keys as [|key rest IH]; intros st tmp_grid r Hnd H.
  - cbn [over_keys] in H. injection H as <-. exists [].
    cbn [fst snd]. rewrite app_nil_r.
    split; [reflexivity|]. split; [reflexivity|]. split; [constructor|].
    split; [intros []|reflexivity].
  - cbn [over_keys] in H. inversion Hnd as [|? ? Hnotin Hnd']; subst.
    destruct (over_stations data levels key stns st []) as [e|r1] eqn:E1;
      cbn [bind] in H; [discriminate|].
    destruct (over_stations_ok _ _ _ _ _ E1) as (rows & Hs1 & Hl1 & Ha1 & Hp1 & Hn1).
    cbn [app] in Hs1.
    destruct (IH _ _ _ Hnd' H) as (new & Hs & Hk & Hall & Hp & Hn).
    exists ((key, snd r1) :: new).
    split; [rewrite Hs, <- app_assoc; reflexivity|].
    split; [simpl; rewrite Hk; reflexivity|]. split.
    { constructor; [|exact Hall]. unfold well_shaped. cbn [fst snd].
      rewrite Hs1. split; [exact Hl1|]. split; [exact Ha1|].
      intros Hkey. apply (Hp1 Hkey). }
    split.
    + intros [Hkey|Hin].
      * rewrite (Hn ltac:(rewrite <- Hkey; exact Hnotin)).
        apply (Hp1 Hkey).
      * assert (Hne : key <> "pressure"%string) by (intros ->; contradiction).
        rewrite <- (Hn1 Hne). apply Hp. exact Hin.
    + intros Hnot.
      rewrite (Hn ltac:(intros Hin; apply Hnot; right; exact Hin)).
      apply Hn1. intros ->. apply Hnot. left. reflexivity.
Qed.

End StationFacts.

Section StationClaims.
Import Numpy Raob Dict RaobStations.
Variable geod_inv : list R -> list R -> list R -> list R -> list R.

Lemma grids_levels (dist : list R) (start end_ step : Z) (levels : list Z)
      (g : cross_section_grids) :
  arange start (end_ - 1) (- step) = Ok levels ->
  radisonde_cross_section dist start end_ step = Ok g ->
  vertical_levels g = levels.
Proof.
  intros Ha H. unfold radisonde_cross_section in H. rewrite Ha in H.
  cbn [bind] in H.
  destruct (getitem dist 0); cbn [bind] in H; [discriminate|].
  destruct (getitem dist (-1)); cbn [bind] in H; [discriminate|].
  destruct (meshgrid levels _) in H. injection H as <-. reflexivity.
Qed.

(** X7. On frames that open with at least eight numeric columns, as
    the Wyoming frames do: when [radisonde_cross_section] gets as far
    as its grids, every array of [tmp_grid] has one row per station and
    one value per vertical level, the array under [pressure] holds the levels
    themselves, [pressure] is among the keys, no key is repeated, and
    [lats], [lons] and [elev] have one entry per station. *)
Theorem tmp_grid_well_shaped
    (stns : list string) (data : dict sounding) (start end_ step : Z)
    (tmp_grid : dict (list (list R))) (st : station_lists)
    (g : cross_section_grids) :
  (forall s0 df0, hd_error stns = Some s0 -> item data s0 = Ok df0 ->
                  (8 <= length (leading df0))%nat) ->
  radisonde_cross_section_stations geod_inv stns data start end_ step
  = Ok (tmp_grid, st, g) ->
  Forall (well_shaped (vertical_levels g) (length stns)) tmp_grid /\
  In "pressure"%string (map fst tmp_grid) /\
  NoDup (map fst tmp_grid) /\
  length (lats st) = length stns /\
  length (lons st) = length stns /\
  length (elev st) = length stns.
Proof.
  unfold radisonde_cross_section_stations. intros _ H.
  destruct (arange start (end_ - 1) (- step)) as [e|levels] eqn:Ha;
    cbn [bind] in H; [discriminate|].
  destruct (getitem stns 0) as [e|s0]; cbn [bind] in H; [discriminate|].
  destruct (item data s0) as [e|df0]; cbn [bind] in H; [discriminate|].
  set (keys := fromkeys (firstn 8 (map fst (leading df0)))) in *.
  destruct (over_keys data levels keys stns _ []) as [e|r] eqn:Ek;
    cbn [bind] in H; [discriminate|].
  destruct (getitem (lons (fst r)) 0) as [e|lon0] eqn:El;
    cbn [bind] in H; [discriminate|].
  destruct (getitem (lats (fst r)) 0) as [e|lat0]; cbn [bind] in H;
    [discriminate|].
  destruct (radisonde_cross_section _ start end_ step) as [e|grids] eqn:Eg;
    cbn [bind] in H; [discriminate|].
  injection H as <- <- <-.
  rewrite (grids_levels _ _ _ _ _ _ Ha Eg).
  destruct (over_keys_ok data levels stns keys _ _ _ (fromkeys_NoDup _) Ek)
    as (new & Hs & Hk & Hall & Hp & Hn).
  cbn [app] in Hs. rewrite Hs, Hk.
  assert (Hin : In "pressure"%string keys).
  { destruct (in_dec string_dec "pressure"%string keys) as [Hin|Hnot];
      [exact Hin|].
    rewrite (Hn Hnot) in El. cbn [lons] in El.
    rewrite getitem_empty in El. discriminate. }
  split; [exact Hall|]. split; [exact Hin|].
  split; [apply fromkeys_NoDup|].
  destruct (Hp Hin) as (H1 & H2 & H3). cbn [lats lons elev length] in *.
  repeat split; lia.
Qed.

(** X8. [lats], [lons] and [elev] are filled only under the key
    [pressure]: when [pressure] is not among the first eight columns of
    the first station's frame the function cannot return, and a loop
    that completes is followed by the [IndexError] of [lons[0]]. *)
Theorem pressure_key_required
    (stns : list string) (data : dict sounding) (start end_ step : Z)
    (s0 : string) (df0 : sounding) :
  hd_error stns = Some s0 -> item data s0 = Ok df0 ->
  ~ In "pressure"%string (firstn 8 (map fst (leading df0))) ->
  (exists e,
     radisonde_cross_section_stations geod_inv stns data start end_ step
     = Raise e) /\
  (forall levels r,
     arange start (end_ - 1) (- step) = Ok levels ->
     over_keys data levels (fromkeys (firstn 8 (map fst (leading df0)))) stns
               {| lats := []; lons := []; elev := [] |} [] = Ok r ->
     radisonde_cross_section_stations geod_inv stns data start end_ step
     = Raise IndexError).
Proof.
  intros Hs0 Hdf Hnot.
  assert (Hnot' : ~ In "pressure"%string
                      (fromkeys (firstn 8 (map fst (leading df0)))))
    by (rewrite fromkeys_In; exact Hnot).
  assert (Hrun : forall levels r,
     arange start (end_ - 1) (- step) = Ok levels ->
     over_keys data levels (fromkeys (firstn 8 (map fst (leading df0)))) stns
               {| lats := []; lons := []; elev := [] |} [] = Ok r ->
     radisonde_cross_section_stations geod_inv stns data start end_ step
     = Raise IndexError).
  { intros levels r Ha Ek. unfold radisonde_cross_section_stations.
    rewrite Ha. cbn [bind]. rewrite (getitem_first stns s0 Hs0). cbn [bind].
    rewrite Hdf. cbn [bind]. rewrite Ek. cbn [bind].
    destruct (over_keys_ok data levels stns _ _ _ _ (fromkeys_NoDup _) Ek)
      as (_ & _ & _ & _ & _ & Hn).
    rewrite (Hn Hnot'). cbn [lons]. rewrite getitem_empty. reflexivity. }
  split; [|exact Hrun].
  destruct (arange start (end_ - 1) (- step)) as [e|levels] eqn:Ha.
  { exists e. unfold radisonde_cross_section_stations. rewrite Ha. reflexivity. }
  destruct (over_keys data levels (fromkeys (firstn 8 (map fst (leading df0))))
                      stns {| lats := []; lons := []; elev := [] |} [])
    as [e|r] eqn:Ek.
  - exists e. unfold radisonde_cross_section_stations.
    rewrite Ha. cbn [bind]. rewrite (getitem_first stns s0 Hs0). cbn [bind].
    rewrite Hdf. cbn [bind]. rewrite Ek. reflexivity.
  - exists IndexError. apply (Hrun levels r); [reflexivity|exact Ek].
Qed.

End StationClaims.

(** Two stations, the levels 1000, 950 and 900. *)
Lemma tmp_grid_well_shaped_witness :
  exists tmp_grid st g,
    RaobStations.radisonde_cross_section_stations
      (fun _ _ lons _ => lons) ["LBF"; "OAX"]%string
      RaobStations.wyoming_soundings 1000 900 50
    = Ok (tmp_grid, st, g) /\
    map fst tmp_grid
    = ["pressure"; "height"; "temperature"; "dewpoint"; "direction";
       "speed"; "u_wind"; "v_wind"]%string /\
    length (RaobStations.lats st) = 2%nat.
Proof.
  assert (Hrun : exists tmp_grid st g,
    RaobStations.radisonde_cross_section_stations
      (fun _ _ lons _ => lons) ["LBF"; "OAX"]%string
      RaobStations.wyoming_soundings 1000 900 50
    = Ok (tmp_grid, st, g) /\
    map fst tmp_grid
    = ["pressure"; "height"; "temperature"; "dewpoint"; "direction";
       "speed"; "u_wind"; "v_wind"]%string).
  { unfold RaobStations.radisonde_cross_section_stations.
    change (Numpy.arange 1000 (900 - 1) (- (50)))
      with (Ok [1000; 950; 900]%Z).
    cbn [bind]. cbn -[Raob.vertical_interpolate Raob.radisonde_cross_section].
    rewrite !vertical_interpolate_closed by (discriminate || reflexivity).
    cbn -[Raob.radisonde_cross_section].
    rewrite (radisonde_cross_section_grids _ 1000 900 50 [1000; 950; 900]%Z)
      by (reflexivity || discriminate).
    do 3 eexists. split; reflexivity. }
  destruct Hrun as (tmp_grid & st & g & E & Hk).
  exists tmp_grid, st, g. split; [exact E|]. split; [exact Hk|].
  refine (proj1 (proj2 (proj2 (proj2
            (tmp_grid_well_shaped _ _ _ _ _ _ _ _ _ _ E))))).
  intros s0 df0 Hs Hd. injection Hs as <-.
  cbn in Hd. injection Hd as <-. cbn. lia.
Defined.

(** A frame that opens with [height] alone. *)
Lemma pressure_key_required_witness :
  exists e,
    RaobStations.radisonde_cross_section_stations
      (fun _ _ lons _ => lons) ["LBF"]%string
      RaobStations.height_only_soundings 1000 900 50
    = Raise e.
Proof.
  refine (proj1 (pressure_key_required (fun _ _ lons _ => lons)
                   ["LBF"]%string RaobStations.height_only_soundings
                   1000 900 50 "LBF"%string _ eq_refl eq_refl _)).
  simpl. intros [H|[]]. discriminate.
Defined.

Section LabelFacts.
Import Frame MeteogramTable.
Local Open Scope Z_scope.

Lemma digit_inj (a b : Z) : 0 <= a -> 0 <= b -> digit a = digit b -> a = b.
Proof. unfold digit. intros Ha Hb H. lia. Qed.

Lemma two_digits_inj (a b : Z) :
  0 <= a -> 0 <= b -> two_digits a = two_digits b -> a = b.
Proof.
  unfold two_digits. intros Ha Hb H. injection H as H1 H2.
  apply digit_inj in H1; [|apply Z.div_pos; lia|apply Z.div_pos; lia].
  apply digit_inj in H2; [|apply Z.mod_pos_bound; lia|apply Z.mod_pos_bound; lia].
  rewrite (Z.div_mod a 10), (Z.div_mod b 10) by lia. lia.
Qed.

(** The clock fields of a timestamp. *)
Lemma strftime_IMp_fields (t : Z) :
  strftime_IMp t
  = two_digits (if (t / hour_ns) mod 24 mod 12 =? 0 then 12
                else (t / hour_ns) mod 24 mod 12)
    ++ str ":" ++ two_digits ((t / minute_ns) mod 60) ++ str " "
    ++ (if (t / hour_ns) mod 24 <? 12 then str "AM" else str "PM").
Proof. reflexivity. Qed.

Lemma hour_shift (t i : Z) :
  ((t + i * hour_ns) / hour_ns) mod 24 = (t / hour_ns + i) mod 24 /\
  ((t + i * hour_ns) / minute_ns) mod 60 = (t / minute_ns) mod 60.
Proof.
  split.
  - rewrite Z.div_add by (unfold hour_ns; lia). reflexivity.
  - replace (i * hour_ns) with (i * 60 * minute_ns)
      by (unfold hour_ns, minute_ns; lia).
    rewrite Z.div_add by (unfold minute_ns; lia).
    replace (t / minute_ns + i * 60) with (t / minute_ns + i * 60) by reflexivity.
    apply Z_mod_plus_full.
Qed.

(** The hour on the 12-hour clock and the AM/PM mark determine the
    hour of the day. *)
Lemma hour_of_label (h1 h2 : Z) :
  0 <= h1 < 24 -> 0 <= h2 < 24 ->
  (if h1 mod 12 =? 0 then 12 else h1 mod 12)
  = (if h2 mod 12 =? 0 then 12 else h2 mod 12) ->
  (h1 <? 12) = (h2 <? 12) ->
  h1 = h2.
Proof.
  intros B1 B2 H12 Hf.
  assert (Hm : h1 mod 12 = h2 mod 12).
  { pose proof (Z.mod_pos_bound h1 12 ltac:(lia)).
    pose proof (Z.mod_pos_bound h2 12 ltac:(lia)).
    destruct (Z.eqb_spec (h1 mod 12) 0), (Z.eqb_spec (h2 mod 12) 0); lia. }
  clear H12.
  destruct (Z.ltb_spec h1 12), (Z.ltb_spec h2 12); try discriminate.
  - rewrite (Z.mod_small h1 12), (Z.mod_small h2 12) in Hm by lia. exact Hm.
  - replace h1 with ((h1 - 12) + 1 * 12) in Hm by lia.
    replace h2 with ((h2 - 12) + 1 * 12) in Hm by lia.
    rewrite !Z_mod_plus_full in Hm.
    rewrite (Z.mod_small (h1 - 12) 12), (Z.mod_small (h2 - 12) 12) in Hm by lia.
    lia.
Qed.

(** Two timestamps a whole number of hours apart print alike exactly
    when the number is a multiple of 24. *)
Lemma strftime_IMp_same_label (t i j : Z) :
  strftime_IMp (t + i * hour_ns) = strftime_IMp (t + j * hour_ns)
  <-> i mod 24 = j mod 24.
Proof.
  rewrite !strftime_IMp_fields.
  destruct (hour_shift t i) as [Hi Mi]. destruct (hour_shift t j) as [Hj Mj].
  rewrite Hi, Hj, Mi, Mj.
  set (a := t / hour_ns).
  pose proof (Z.mod_pos_bound (a + i) 24 ltac:(lia)) as Bi.
  pose proof (Z.mod_pos_bound (a + j) 24 ltac:(lia)) as Bj.
  set (hi := (a + i) mod 24) in *. set (hj := (a + j) mod 24) in *.
  assert (Hiff : hi = hj <-> i mod 24 = j mod 24).
  { unfold hi, hj. clear. split; intros H.
    - assert (E : (i - j) mod 24 = 0).
      { replace (i - j) with ((a + i) - (a + j)) by lia.
        rewrite Zminus_mod, H, Z.sub_diag. reflexivity. }
      rewrite <- (Z.sub_add j i) at 1.
      rewrite Z.add_mod, E by lia. rewrite Z.add_0_l. apply Z.mod_mod. lia.
    - rewrite Z.add_mod, H, <- Z.add_mod by lia. reflexivity. }
  rewrite <- Hiff. split.
  - intros H.
    pose proof (f_equal (firstn 2) H) as H12.
    pose proof (f_equal (fun l => nth 6 l 0%N) H) as Hap.
    unfold two_digits in H12, Hap. cbn [app firstn] in H12.
    change (str ":") with [58%N] in Hap. change (str " ") with [32%N] in Hap.
    cbn [app nth] in Hap.
    assert (Hh12 : (if hi mod 12 =? 0 then 12 else hi mod 12)
                   = (if hj mod 12 =? 0 then 12 else hj mod 12)).
    { apply two_digits_inj; [| |exact H12].
      - destruct (hi mod 12 =? 0); [lia|]. apply Z.mod_pos_bound. lia.
      - destruct (hj mod 12 =? 0); [lia|]. apply Z.mod_pos_bound. lia. }
    assert (Hflag : (hi <? 12) = (hj <? 12)).
    { destruct (hi <? 12), (hj <? 12); try reflexivity;
        vm_compute in Hap; discriminate. }
    apply hour_of_label; assumption.
  - intros ->. reflexivity.
Qed.

Lemma same_residue_close (a b : Z) :
  a mod 24 = b mod 24 -> Z.abs (a - b) < 24 -> a = b.
Proof.
  intros H Habs.
  pose proof (Z.div_mod a 24 ltac:(lia)) as Ha.
  pose proof (Z.div_mod b 24 ltac:(lia)) as Hb.
  rewrite H in Ha. lia.
Qed.

(** X11. The labels of the x-axis: rows [i] and [j] of the table carry the
    same [future_time] exactly when [i] and [j] differ by a multiple of
    24, so the labels of fewer than 25 hourly rows are all different;
    every label has eight characters. *)
Theorem future_time_labels (now : Z) (df : dataframe point_row) (i j : nat)
        (ri rj : Z * meteogram_row) :
  nth_error (add_future_time now df) i = Some ri ->
  nth_error (add_future_time now df) j = Some rj ->
  (future_time (snd ri) = future_time (snd rj)
   <-> Z.of_nat i mod 24 = Z.of_nat j mod 24) /\
  (Z.abs (Z.of_nat i - Z.of_nat j) < 24 ->
   future_time (snd ri) = future_time (snd rj) -> i = j) /\
  length (future_time (snd ri)) = 8%nat.
Proof.
  intros Hi Hj.
  assert (Hrow : forall k r, nth_error (add_future_time now df) k = Some r ->
            future_time (snd r)
            = strftime_IMp (now - 4 * hour_ns + Z.of_nat k * hour_ns)).
  { intros k r Hk.
    destruct (nth_error df k) as [[label row]|] eqn:Hd.
    - rewrite (nth_error_add_future_time now df k label row Hd) in Hk.
      injection Hk as <-. reflexivity.
    - apply nth_error_None in Hd.
      assert (k < length (add_future_time now df))%nat
        by (apply nth_error_Some; congruence).
      unfold add_future_time in *.
      rewrite length_map, length_combine, length_seq in *. lia. }
  rewrite (Hrow i ri Hi), (Hrow j rj Hj).
  pose proof (strftime_IMp_same_label (now - 4 * hour_ns)
                (Z.of_nat i) (Z.of_nat j)) as Hiff.
  split; [exact Hiff|]. split.
  - intros Habs H. apply Hiff in H.
    apply Nat2Z.inj. apply (same_residue_close _ _ H Habs).
  - rewrite strftime_IMp_fields. unfold two_digits.
    change (str ":") with [58%N]. change (str " ") with [32%N].
    destruct (_ <? 12); reflexivity.
Qed.

End LabelFacts.

(** Two rows twelve hours apart differ in AM and PM only. *)
Lemma future_time_labels_witness :
  exists ri rj,
    nth_error (MeteogramTable.add_future_time 0
                 (Frame.DataFrame (repeat MeteogramAxes.sample_point_row 13))) 0 = Some ri /\
    nth_error (MeteogramTable.add_future_time 0
                 (Frame.DataFrame (repeat MeteogramAxes.sample_point_row 13))) 12 = Some rj /\
    MeteogramTable.future_time (snd ri) <> MeteogramTable.future_time (snd rj).
Proof.
  eexists _, _. split; [reflexivity|]. split; [reflexivity|].
  intros H.
  assert (E : 0%nat = 12%nat); [|discriminate].
  refine (proj1 (proj2 (future_time_labels 0
            (Frame.DataFrame (repeat MeteogramAxes.sample_point_row 13)) 0 12 _ _ eq_refl eq_refl)) _ H).
  simpl. lia.
Defined.

(* ================================================================== *)
(** * Further facts: the ACARS table and title *)
(* ================================================================== *)

Section AcarsMore.
Import Acars AcarsTitle.
Variable numeric : pystr -> option pyfloat.

Lemma slice_empty {A} (l : list A) (start stop : Z) :
  (0 <= stop <= start)%Z -> slice l start stop = [].
Proof.
  intros H. unfold slice, slice_bound.
  destruct (Z.ltb_spec start 0); [lia|].
  destruct (Z.ltb_spec stop 0); [lia|].
  replace (Z.to_nat (Z.min stop (len l) - Z.min start (len l))) with 0%nat by lia.
  reflexivity.
Qed.

Lemma split_no_separator (sep : N) (s : pystr) :
  (forall c, In c s -> c <> sep) -> split sep s = [s].
Proof.
  induction s as [|c s IH]; intros H; [reflexivity|].
  cbn [split]. destruct (N.eqb_spec c sep) as [E|_].
  - exfalso. apply (H c); [left; reflexivity|exact E].
  - rewrite IH; [reflexivity|]. intros d Hd. apply H. right. exact Hd.
Qed.

Lemma getcolumn_LEVEL (df : list (list pyfloat)) :
  df <> [] ->
  getcolumn df "LEVEL" = Ok (map (fun row => nth 0 row NaN) df).
Proof. destruct df; [congruence|reflexivity]. Qed.

(** X12. A section without a line break, or sentinels that leave nothing
    between them, give a table without rows and therefore without
    columns: the script then stops at [df['LEVEL']] with a [KeyError].
    A table with a row has the column. *)
Theorem table_without_rows (data : pystr) :
  ((0 <= find data END_ <= find data RAW + len RAW)%Z \/
   (forall c, In c (data_section data) -> c <> newline)) ->
  acars_table numeric data = Ok [] /\
  (forall name, getcolumn [] name = Raise KeyError) /\
  (forall df, acars_table numeric data = Ok df ->
              getcolumn df "LEVEL" = Raise KeyError).
Proof.
  intros H.
  assert (Hlines : table_lines data = []).
  { unfold table_lines. rewrite slice_from_1. destruct H as [H|H].
    - unfold data_section. rewrite slice_empty by exact H. reflexivity.
    - rewrite split_no_separator by exact H. reflexivity. }
  assert (Ht : acars_table numeric data = Ok []).
  { rewrite acars_table_retained, Hlines. reflexivity. }
  split; [exact Ht|]. split; [reflexivity|].
  intros df Hdf. rewrite Ht in Hdf. injection Hdf as <-. reflexivity.
Qed.

Lemma span_spec (p : N -> bool) (s : pystr) :
  fst (span p s) ++ snd (span p s) = s /\
  forallb p (fst (span p s)) = true.
Proof.
  induction s as [|c s IH]; [split; reflexivity|].
  cbn [span]. destruct (p c) eqn:E; [|split; reflexivity].
  destruct (span p s) as [a b]. cbn [fst snd] in *.
  destruct IH as [H1 H2]. split; [simpl; rewrite H1; reflexivity|].
  simpl. rewrite E, H2. reflexivity.
Qed.

Lemma span_run (p : N -> bool) (a b : pystr) :
  forallb p a = true ->
  match b with [] => True | c :: _ => p c = false end ->
  span p (a ++ b) = (a, b).
Proof.
  intros Ha Hb. induction a as [|c a IH].
  - simpl. destruct b as [|c b]; [reflexivity|]. cbn [span]. rewrite Hb. reflexivity.
  - simpl in Ha. apply andb_true_iff in Ha. destruct Ha as [Hc Ha].
    cbn [app span]. rewrite Hc, (IH Ha). reflexivity.
Qed.

Lemma txt_at_end_no_slash (s : pystr) :
  txt_at_end s = true -> ~ In slash s.
Proof.
  unfold txt_at_end. intros H. apply orb_true_iff in H.
  destruct H as [H|H]; apply str_eqb_eq in H; subst s;
    vm_compute; intuition discriminate.
Qed.

Lemma class_no_slash (p : N -> bool) (s : pystr) :
  p slash = false -> forallb p s = true -> ~ In slash s.
Proof.
  intros Hp Hs Hin. rewrite forallb_forall in Hs.
  rewrite (Hs _ Hin) in Hp. discriminate.
Qed.

(** A match leaves no second slash behind its first character. *)
Lemma match_here_no_slash (s : pystr) (m : pystr * pystr) :
  match_here s = Some m -> ~ In slash (tl s).
Proof.
  unfold match_here. destruct s as [|c s]; [discriminate|].
  destruct (N.eq_dec c 47) as [->|Hc].
  2:{ destruct c as [|p]; [discriminate|].
      do 6 (destruct p as [p|p|]; try discriminate). contradiction. }
  pose proof (span_spec is_upper s) as [Hs1 Hu].
  destruct (span is_upper s) as [city rest1]. cbn [fst snd] in *.
  destruct city as [|c0 city]; [discriminate|].
  destruct rest1 as [|u rest2]; [discriminate|].
  destruct (N.eq_dec u 95) as [->|Hu95].
  2:{ destruct u as [|p]; [discriminate|].
      do 7 (destruct p as [p|p|]; try discriminate). contradiction. }
  pose proof (span_spec is_decimal rest2) as [Hs2 Hd].
  destruct (span is_decimal rest2) as [time rest3]. cbn [fst snd] in *.
  destruct time as [|t0 time]; [discriminate|].
  destruct (txt_at_end rest3) eqn:Et; [|discriminate].
  intros _. cbn [tl]. rewrite <- Hs1, <- Hs2.
  intros Hin. apply in_app_or in Hin. destruct Hin as [Hin|Hin].
  - revert Hin. apply (class_no_slash is_upper); [reflexivity|exact Hu].
  - destruct Hin as [Hin|Hin]; [discriminate|].
    apply in_app_or in Hin. destruct Hin as [Hin|Hin].
    + revert Hin. apply (class_no_slash is_decimal); [reflexivity|exact Hd].
    + revert Hin. apply txt_at_end_no_slash. exact Et.
Qed.

Lemma match_here_file_name (city time : pystr) :
  city <> [] -> forallb is_upper city = true ->
  time <> [] -> forallb is_decimal time = true ->
  match_here (str "/" ++ city ++ str "_" ++ time ++ str ".txt")
  = Some (city, time).
Proof.
  intros Hc Hcu Ht Htd.
  change (str "/") with [47%N]. change (str "_") with [95%N].
  cbn [app]. unfold match_here.
  rewrite (span_run is_upper city (95%N :: time ++ str ".txt") Hcu)
    by reflexivity.
  destruct city as [|c0 city]; [congruence|].
  rewrite (span_run is_decimal time (str ".txt") Htd) by reflexivity.
  destruct time as [|t0 time]; [congruence|]. reflexivity.
Qed.

Lemma search_file_name (pre tail : pystr) (m : pystr * pystr) :
  match_here tail = Some m -> hd_error tail = Some slash ->
  search (pre ++ tail) = Some m.
Proof.
  intros Hm Hh. induction pre as [|c pre IH].
  - simpl. destruct tail; cbn [search]; rewrite Hm; reflexivity.
  - cbn [app search].
    destruct (match_here (c :: pre ++ tail)) as [m'|] eqn:E; [|exact IH].
    exfalso. apply match_here_no_slash in E. apply E. cbn [tl].
    apply in_or_app. right. destruct tail; [discriminate|].
    injection Hh as ->. left. reflexivity.
Qed.

(** X13. The titles come from the file name: whatever precedes the last
    path segment, a name [CITY_TIME.txt] of capitals and digits gives
    the left title [CITY ACARS] and the right title
    [<today> TIME UTC]. *)
Theorem titles_from_file_name (today pre city time : pystr) :
  city <> [] -> forallb is_upper city = true ->
  time <> [] -> forallb is_decimal time = true ->
  titles today (pre ++ str "/" ++ city ++ str "_" ++ time ++ str ".txt")
  = Ok (city ++ str " ACARS", today ++ str " " ++ time ++ str " UTC").
Proof.
  intros Hc Hcu Ht Htd. unfold titles, city_time.
  rewrite (search_file_name pre _ (city, time)
             (match_here_file_name city time Hc Hcu Ht Htd) eq_refl).
  destruct (pre ++ str "/" ++ city ++ str "_" ++ time ++ str ".txt") eqn:E.
  - apply app_eq_nil in E. destruct E as [_ E]. discriminate.
  - reflexivity.
Qed.

End AcarsMore.

(** The URL of the script. *)
Lemma titles_from_file_name_witness :
  AcarsTitle.titles (str "2023-07-02") (str Net.acars_url)
  = Ok (str "YNN ACARS", str "2023-07-02 1620 UTC").
Proof.
  apply (titles_from_file_name (str "2023-07-02")
           (str "https://sharp.weather.ou.edu/soundings/acars/2023/07/02/16")
           (str "YNN") (str "1620")).
  - discriminate.
  - reflexivity.
  - discriminate.
  - reflexivity.
Defined.

(* ================================================================== *)
(** * Further facts: the wind speeds, the polygons and the legend *)
(* ================================================================== *)

Section ConversionMore.
Import Lsr.
Variable float_of_str : pystr -> option pyfloat.
Local Abbreviation convertible := (Props.convertible float_of_str).
Local Abbreviation converted := (Props.converted float_of_str).

Lemma convertible_dec (v : pyval) : {convertible v} + {~ convertible v}.
Proof.
  destruct v as [s|f]; simpl; [|left; exact I].
  destruct (str_eqb s UNK); [left; exact I|].
  destruct (float_of_str s); [left; discriminate|right; intros H; apply H; reflexivity].
Qed.

(** X14. The conversion loop has two outcomes only.  If every entry is
    ['UNK'], a number or a string [float] accepts, it returns the
    column with each string other than ['UNK'] replaced by its float,
    and every entry is then ['UNK'] or a number.  Otherwise it ends
    with [NameError]; it never ends with [ValueError] and never stores
    a missing-value marker of its own. *)
Theorem conversion_outcome (col : list pyval) :
  (Forall convertible col /\
   convert_speeds float_of_str col = Ok (map converted col) /\
   Forall settled (map converted col)) \/
  (Exists (fun v => ~ convertible v) col /\
   convert_speeds float_of_str col = Raise NameError).
Proof.
  destruct (Forall_Exists_dec _ convertible_dec col) as [Hall|Hex].
  - left. split; [exact Hall|]. split; [apply convert_speeds_total; exact Hall|].
    apply Forall_forall. intros v Hv. apply in_map_iff in Hv.
    destruct Hv as (w & <- & Hw). apply converted_settled.
    rewrite Forall_forall in Hall. apply Hall. exact Hw.
  - right. split; [exact Hex|]. apply Exists_exists in Hex.
    destruct Hex as (v & Hin & Hnc). apply In_nth_error in Hin.
    destruct Hin as (i & Hi).
    assert (Hlt : (i < length col)%nat) by (apply nth_error_Some; congruence).
    apply (for_range_unconvertible float_of_str (length col) 0 col i v);
      [lia|lia|exact Hi|exact Hnc].
Qed.

(** X15. The loop is run twice (lines 24-30 and 82-88): a second pass over
    a column the first pass completed on returns that column
    unchanged. *)
Theorem second_pass_changes_nothing (col col' : list pyval) :
  convert_speeds float_of_str col = Ok col' ->
  convert_speeds float_of_str col' = Ok col'.
Proof.
  intros H. apply (convert_speeds_twice float_of_str col col' H).
Qed.

End ConversionMore.

Lemma second_pass_changes_nothing_witness :
  Lsr.convert_speeds plain_decimal
    [Lsr.PFloat (Fin 70); Lsr.PStr Lsr.UNK; Lsr.PFloat (Fin 60)]
  = Ok [Lsr.PFloat (Fin 70); Lsr.PStr Lsr.UNK; Lsr.PFloat (Fin 60)].
Proof.
  apply (second_pass_changes_nothing plain_decimal (map Lsr.Speed sample_wind)).
  vm_compute. reflexivity.
Defined.

Section LegendFacts.
Import Dict LsrWarnings.

Lemma legend_entry (warning : string) :
  (contains colors warning = false) \/
  (contains colors warning = true /\
   (warning = "FF" \/ warning = "DS")%string /\
   item zorders warning = Raise KeyError) \/
  (contains colors warning = true /\
   (warning = "TO" \/ warning = "SV" \/ warning = "MA")%string /\
   exists c z, item colors warning = Ok c /\ item zorders warning = Ok z).
Proof.
  unfold contains, colors, zorders. cbn [existsb item fst].
  destruct (String.eqb_spec "SV" warning) as [<-|H1].
  { right. right. split; [reflexivity|]. split; [tauto|].
    eexists _, _. split; reflexivity. }
  destruct (String.eqb_spec "TO" warning) as [<-|H2].
  { right. right. split; [reflexivity|]. split; [tauto|].
    eexists _, _. split; reflexivity. }
  destruct (String.eqb_spec "FF" warning) as [<-|H3].
  { right. left. split; [reflexivity|]. split; [tauto|]. reflexivity. }
  destruct (String.eqb_spec "MA" warning) as [<-|H4].
  { right. right. split; [reflexivity|]. split; [tauto|].
    eexists _, _. split; reflexivity. }
  destruct (String.eqb_spec "DS" warning) as [<-|H5].
  { right. left. split; [reflexivity|]. split; [tauto|]. reflexivity. }
  left. reflexivity.
Qed.

Lemma legend_raises (plotted : list string) :
  forall patches labels,
    Exists (fun w => w = "FF" \/ w = "DS")%string plotted ->
    legend plotted patches labels = Raise KeyError.
Proof.
  induction plotted as [|w rest IH]; intros patches labels Hex.
  - inversion Hex.
  - cbn [legend].
    destruct (legend_entry w) as [Hc|[(Hc & Hw & Hz)|(Hc & Hw & c & z & Hcw & Hzw)]].
    + rewrite Hc. apply IH. inversion Hex as [? ? Hh|? ? Ht]; subst; [|exact Ht].
      exfalso. unfold contains, colors in Hc. cbn [existsb fst] in Hc.
      destruct Hh as [-> | ->]; discriminate.
    + destruct Hw as [-> | ->]; reflexivity.
    + rewrite Hc, Hcw, Hzw. cbn [bind]. apply IH.
      inversion Hex as [? ? Hh|? ? Ht]; subst; [|exact Ht].
      exfalso. destruct Hw as [-> |[-> | ->]]; destruct Hh; discriminate.
Qed.

Lemma legend_returns (plotted : list string) :
  forall patches labels,
    Forall (fun w => w <> "FF" /\ w <> "DS")%string plotted ->
    exists new,
      legend plotted patches labels
      = Ok (patches ++ new, labels ++ filter (contains colors) plotted) /\
      length new = length (filter (contains colors) plotted).
Proof.
  induction plotted as [|w rest IH]; intros patches labels Hall.
  - exists []. cbn. rewrite !app_nil_r. split; reflexivity.
  - inversion Hall as [|? ? [Hf Hd] Hrest]; subst. cbn [legend filter].
    destruct (legend_entry w) as [Hc|[(Hc & Hw & Hz)|(Hc & Hw & c & z & Hcw & Hzw)]].
    + rewrite Hc. apply IH. exact Hrest.
    + exfalso. destruct Hw; contradiction.
    + rewrite Hc, Hcw, Hzw. cbn [bind].
      destruct (IH (patches ++ [{| fc := c; zorder := z |}]) (labels ++ [w]) Hrest)
        as (new & Hn & Hl).
      exists ({| fc := c; zorder := z |} :: new).
      rewrite Hn, <- !app_assoc. split; [reflexivity|]. simpl. lia.
Qed.

(** X17. The legend loop looks every plotted warning that has a colour up
    in [zorders], which knows TO, SV and MA only: a flash-flood (FF)
    or dust-storm (DS) warning among the plotted ones ends the loop
    with a [KeyError], in whatever order the set is walked; without
    them the loop returns one patch for each plotted warning that has
    a colour. *)
Theorem legend_outcome (plotted : list string) :
  (Exists (fun w => w = "FF" \/ w = "DS")%string plotted ->
   legend plotted [] [] = Raise KeyError) /\
  (Forall (fun w => w <> "FF" /\ w <> "DS")%string plotted ->
   exists legend_patches,
     legend plotted [] [] = Ok (legend_patches, filter (contains colors) plotted) /\
     length legend_patches = length (filter (contains colors) plotted) /\
     Forall (fun w => w = "TO" \/ w = "SV" \/ w = "MA")%string
            (filter (contains colors) plotted)).
Proof.
  split; [apply legend_raises|].
  intros Hall. destruct (legend_returns plotted [] [] Hall) as (new & Hn & Hl).
  exists new. cbn [app] in Hn. split; [exact Hn|]. split; [exact Hl|].
  apply Forall_forall. intros w Hw. apply filter_In in Hw.
  destruct Hw as [Hin Hc]. rewrite Forall_forall in Hall.
  destruct (Hall w Hin) as [Hf Hd].
  destruct (legend_entry w) as [Hc'|[(_ & Hw & _)|(_ & Hw & _)]].
  - congruence.
  - destruct Hw; contradiction.
  - exact Hw.
Qed.

End LegendFacts.

Section PolygonFacts.
Import Dict LsrWarnings.
Variable patch : Type.
Variable mplPolygon : ring -> result patch.

Local Abbreviation state := (plot_state patch).
Local Abbreviation labels_of :=
  (fun st : plot_state patch => map text_label (texts patch st)).

Lemma add_polygon_ok (row : warning_row) (polygon_coords : ring) (st st' : state) :
  add_polygon patch mplPolygon row polygon_coords st = Ok st' ->
  phenomena_colors patch st'
  = phenomena_colors patch st ++ [get colors (phenomena row) "gray"%string] /\
  labels_of st' = labels_of st ++ [eventid row] /\
  length (patches patch st') = S (length (patches patch st)) /\
  length (texts patch st') = S (length (texts patch st)) /\
  plotted_warnings patch st' = plotted_warnings patch st.
Proof.
  unfold add_polygon. intros H.
  destruct (mplPolygon polygon_coords); cbn [bind] in H; [discriminate|].
  destruct (coordinate polygon_coords 0); cbn [bind] in H; [discriminate|].
  destruct (coordinate polygon_coords 1); cbn [bind] in H; [discriminate|].
  injection H as <-. cbn. rewrite map_app, !length_app. simpl.
  repeat split; try reflexivity; lia.
Qed.

Lemma add_polygons_ok (row : warning_row) (rings : list ring) :
  forall st st' : state,
    add_polygons patch mplPolygon row rings st = Ok st' ->
    phenomena_colors patch st'
    = phenomena_colors patch st
      ++ repeat (get colors (phenomena row) "gray"%string) (length rings) /\
    labels_of st' = labels_of st ++ repeat (eventid row) (length rings) /\
    length (patches patch st') = (length (patches patch st) + length rings)%nat /\
    length (texts patch st') = (length (texts patch st) + length rings)%nat /\
    plotted_warnings patch st' = plotted_warnings patch st.
Proof.
  induction rings as [|r rest IH]; intros st st' H.
  - cbn in H. injection H as <-. cbn. rewrite !app_nil_r.
    repeat split; try reflexivity; lia.
  - cbn [add_polygons] in H.
    destruct (add_polygon patch mplPolygon row r st) as [e|st1] eqn:E1;
      cbn [bind] in H; [discriminate|].
    destruct (add_polygon_ok _ _ _ _ E1) as (H1 & H2 & H3 & H4 & H5).
    destruct (IH _ _ H) as (G1 & G2 & G3 & G4 & G5).
    rewrite G1, G2, G3, G4, G5, H1, H2, H3, H4, H5.
    cbn [length repeat]. rewrite <- !app_assoc.
    repeat split; try reflexivity; lia.
Qed.

Lemma add_multipolygons_ok (row : warning_row) (polygons : list (list ring)) :
  forall st st' : state,
    add_multipolygons patch mplPolygon row polygons st = Ok st' ->
    phenomena_colors patch st'
    = phenomena_colors patch st
      ++ repeat (get colors (phenomena row) "gray"%string)
                (length (concat polygons)) /\
    labels_of st' = labels_of st
                    ++ repeat (eventid row) (length (concat polygons)) /\
    length (patches patch st')
    = (length (patches patch st) + length (concat polygons))%nat /\
    length (texts patch st')
    = (length (texts patch st) + length (concat polygons))%nat /\
    plotted_warnings patch st' = plotted_warnings patch st.
Proof.
  induction polygons as [|rings rest IH]; intros st st' H.
  - cbn in H. injection H as <-. cbn. rewrite !app_nil_r.
    repeat split; try reflexivity; lia.
  - cbn [add_multipolygons] in H.
    destruct (add_polygons patch mplPolygon row rings st) as [e|st1] eqn:E1;
      cbn [bind] in H; [discriminate|].
    destruct (add_polygons_ok _ _ _ _ E1) as (H1 & H2 & H3 & H4 & H5).
    destruct (IH _ _ H) as (G1 & G2 & G3 & G4 & G5).
    rewrite G1, G2, G3, G4, G5, H1, H2, H3, H4, H5.
    cbn [concat]. rewrite length_app, !repeat_app, <- !app_assoc.
    repeat split; try reflexivity; lia.
Qed.

Lemma polygon_rings_ok (coordinates : polygon_coordinates) (rings : list ring) :
  polygon_rings coordinates = Ok rings -> rings = rings_of (Polygon coordinates).
Proof.
  destruct coordinates as [rs|r]; cbn [polygon_rings rings_of]; intros H.
  - destruct (getitem rs 0) as [e|first]; cbn [bind] in H; [discriminate|].
    destruct (getitem first 0); cbn [bind] in H; [discriminate|].
    injection H as <-. reflexivity.
  - destruct (getitem r 0) as [e|p]; cbn [bind] in H; [discriminate|].
    destruct (getitem p 0); cbn [bind] in H; [discriminate|].
    injection H as <-. reflexivity.
Qed.

Lemma plot_row_ok (row : warning_row) (st st' : state) :
  plot_row patch mplPolygon row st = Ok st' ->
  phenomena_colors patch st' = phenomena_colors patch st ++ row_colors row /\
  labels_of st' = labels_of st ++ row_labels row /\
  length (patches patch st')
  = (length (patches patch st) + length (row_colors row))%nat /\
  length (texts patch st')
  = (length (texts patch st) + length (row_colors row))%nat /\
  plotted_warnings patch st'
  = set_add (plotted_warnings patch st) (phenomena row).
Proof.
  unfold plot_row, row_colors, row_labels. intros H.
  destruct (geometry_ row) as [|coordinates|polygons|t] eqn:Eg;
    cbn [bind] in H.
  - injection H as <-. cbn. rewrite !app_nil_r.
    repeat split; try reflexivity; lia.
  - destruct (polygon_rings coordinates) as [e|rings] eqn:Er;
      cbn [bind] in H; [discriminate|].
    destruct (add_polygons patch mplPolygon row rings st) as [e|st1] eqn:E1;
      cbn [bind] in H; [discriminate|].
    injection H as <-. cbn [phenomena_colors texts patches plotted_warnings].
    destruct (add_polygons_ok _ _ _ _ E1) as (H1 & H2 & H3 & H4 & H5).
    rewrite <- (polygon_rings_ok _ _ Er), repeat_length.
    rewrite H1, H2, H3, H4, H5. repeat split; reflexivity.
  - destruct (add_multipolygons patch mplPolygon row polygons st) as [e|st1] eqn:E1;
      cbn [bind] in H; [discriminate|].
    injection H as <-. cbn [phenomena_colors texts patches plotted_warnings].
    destruct (add_multipolygons_ok _ _ _ _ E1) as (H1 & H2 & H3 & H4 & H5).
    cbn [rings_of]. rewrite repeat_length.
    rewrite H1, H2, H3, H4, H5. repeat split; reflexivity.
  - injection H as <-. cbn. rewrite !app_nil_r.
    repeat split; try reflexivity; lia.
Qed.

Lemma set_add_In (s : list string) (x w : string) :
  In w (set_add s x) <-> In w s \/ w = x.
Proof.
  unfold set_add. destruct (existsb (String.eqb x) s) eqn:E.
  - split; [tauto|]. intros [H|Hw]; [exact H|]. subst w.
    apply existsb_exists in E. destruct E as (y & Hy & Hxy).
    apply String.eqb_eq in Hxy. subst. exact Hy.
  - rewrite in_app_iff. simpl. split; intros [H|H]; try tauto.
    + destruct H as [H|[]]. right. symmetry. exact H.
    + right. left. symmetry. exact H.
Qed.

Lemma set_add_NoDup (s : list string) (x : string) :
  NoDup s -> NoDup (set_add s x).
Proof.
  intros Hnd. unfold set_add. destruct (existsb (String.eqb x) s) eqn:E;
    [exact Hnd|].
  apply NoDup_app; [exact Hnd|repeat constructor; intros []|].
  intros y Hy [<-|[]].
  assert (Hex : existsb (String.eqb x) s = true).
  { apply existsb_exists. exists x. split; [exact Hy|apply String.eqb_refl]. }
  congruence.
Qed.

Lemma plot_rows_ok (df : list warning_row) :
  forall st st' : state,
    plot_rows patch mplPolygon df st = Ok st' ->
    phenomena_colors patch st'
    = phenomena_colors patch st ++ flat_map row_colors df /\
    labels_of st' = labels_of st ++ flat_map row_labels df /\
    length (patches patch st')
    = (length (patches patch st) + length (flat_map row_colors df))%nat /\
    length (texts patch st')
    = (length (texts patch st) + length (flat_map row_colors df))%nat /\
    (forall w, In w (plotted_warnings patch st')
               <-> In w (plotted_warnings patch st) \/ In w (map phenomena df)) /\
    (NoDup (plotted_warnings patch st) -> NoDup (plotted_warnings patch st')).
Proof.
  induction df as [|row rest IH]; intros st st' H.
  - cbn in H. injection H as <-. cbn. rewrite !app_nil_r.
    repeat split; try reflexivity; try lia; tauto.
  - cbn [plot_rows] in H.
    destruct (plot_row patch mplPolygon row st) as [e|st1] eqn:E1;
      cbn [bind] in H; [discriminate|].
    destruct (plot_row_ok _ _ _ E1) as (H1 & H2 & H3 & H4 & H5).
    destruct (IH _ _ H) as (G1 & G2 & G3 & G4 & G5 & G6).
    cbn [flat_map map]. rewrite length_app.
    rewrite G1, G2, G3, G4, H1, H2, H3, H4, <- !app_assoc.
    split; [reflexivity|]. split; [reflexivity|].
    split; [lia|]. split; [lia|]. split.
    + intros w. rewrite G5, H5, set_add_In. simpl. intuition congruence.
    + intros Hnd. apply G6. rewrite H5. apply set_add_NoDup. exact Hnd.
Qed.

(** X16. The lists the polygon loop fills stay aligned: when it completes,
    [patches], [phenomena_colors] and the text calls have one entry
    per ring drawn, row after row; each patch has the colour of its
    warning's phenomenon (gray if it has none) and each text the event
    id of its warning; [plotted_warnings] holds the phenomena of all
    rows, with or without geometry, each once. *)
Theorem polygons_aligned (df : list warning_row) (st : state) :
  plot_warnings patch mplPolygon df = Ok st ->
  phenomena_colors patch st = flat_map row_colors df /\
  labels_of st = flat_map row_labels df /\
  length (patches patch st) = length (phenomena_colors patch st) /\
  length (texts patch st) = length (patches patch st) /\
  (forall w, In w (plotted_warnings patch st) <-> In w (map phenomena df)) /\
  NoDup (plotted_warnings patch st).
Proof.
  unfold plot_warnings. intros H.
  destruct (plot_rows_ok _ _ _ H) as (H1 & H2 & H3 & H4 & H5 & H6).
  cbn [phenomena_colors texts patches plotted_warnings app map length Nat.add] in *.
  split; [exact H1|]. split; [exact H2|].
  split; [rewrite H3, H1; reflexivity|]. split; [lia|]. split.
  - intros w. rewrite H5. simpl. tauto.
  - apply H6. constructor.
Qed.

End PolygonFacts.

Lemma polygons_aligned_witness :
  exists st,
    LsrWarnings.plot_warnings LsrWarnings.ring (fun r => Ok r)
      LsrWarnings.sample_warnings = Ok st /\
    LsrWarnings.phenomena_colors _ st = ["yellow"%string] /\
    length (LsrWarnings.patches _ st) = 1%nat.
Proof.
  eexists. split; [reflexivity|].
  match goal with
  | |- context [LsrWarnings.phenomena_colors _ ?s] =>
      destruct (polygons_aligned LsrWarnings.ring (fun r => Ok r)
                  LsrWarnings.sample_warnings s eq_refl)
        as (Hc & _ & Hl & _)
  end.
  split; [exact Hc|]. rewrite Hl, Hc. reflexivity.
Defined.

(* ================================================================== *)
(** * Further instances *)
(* ================================================================== *)

Section MoreInstances.
Import Raob.
Local Open Scope R_scope.

(** Temperatures between -10 and 20 stay between -10 and 20 on the
    grid. *)
Lemma vertical_interpolate_within_bounds_witness :
  exists out,
    vertical_interpolate [1000; 500] [20; -10] [1050; 700; 400] = Ok out /\
    Forall (fun v => -10 <= v <= 20) out.
Proof.
  apply (vertical_interpolate_within_bounds
           [1000; 500] [20; -10] [1050; 700; 400] (-10) 20).
  - simpl. split; [lra|exact I].
  - repeat constructor; lra.
  - discriminate.
  - reflexivity.
  - repeat constructor; lra.
Defined.

Lemma masks_change_nothing_witness :
  vertical_interpolate [1000; 500] [20; -10] [1050; 700; 400]
  = (r <- Numpy.interp (rev (map ln [1050; 700; 400]))
                       (rev (map ln [1000; 500])) (rev [20; -10]) ;;
     Ok (rev r)).
Proof.
  apply masks_change_nothing.
  - simpl. split; [lra|exact I].
  - repeat constructor; lra.
  - discriminate.
  - reflexivity.
  - repeat constructor; lra.
Defined.

(** From 1000 down to 100 in steps of 25: 37 levels, 100 among them. *)
Lemma vertical_grid_levels_witness :
  exists g,
    radisonde_cross_section [0; 250000] 1000 100 25 = Ok g /\
    length (vertical_levels g) = 37%nat /\
    In 100%Z (vertical_levels g).
Proof.
  destruct (vertical_grid_levels [0; 250000] 1000 100 25)
    as (g & Hg & _ & Hl & _ & _ & Hin & _).
  - split; reflexivity.
  - reflexivity.
  - discriminate.
  - reflexivity.
  - reflexivity.
  - discriminate.
  - exists g. split; [exact Hg|]. split; [exact Hl|].
    apply Hin. exists 36%Z. reflexivity.
Defined.

Lemma horizontal_grid_points_witness :
  exists g,
    radisonde_cross_section [0; 250000] 1000 100 10 = Ok g /\
    Forall (fun v => 0 <= v <= 250000) (x g).
Proof.
  destruct (horizontal_grid_points [0; 250000] 1000 100 10)
    as (g & Hg & _ & _ & Hin & _).
  - lia.
  - discriminate.
  - exists g. split; [exact Hg|]. apply Hin. simpl. lra.
Defined.

End MoreInstances.

(** A response whose sentinels follow each other directly. *)
Lemma table_without_rows_witness :
  Acars.acars_table plain_decimal (str "%RAW%%END%") = Ok [] /\
  AcarsTitle.getcolumn [] "LEVEL" = Raise KeyError.
Proof.
  destruct (table_without_rows plain_decimal (str "%RAW%%END%"))
    as (Ht & Hc & _).
  - left. vm_compute. split; discriminate.
  - split; [exact Ht|apply Hc].
Defined.

Section HandleFacts.
Import LsrWarnings.
Context {handle : Type}.

Lemma list_index_found (labels : list string) (label : string) :
  In label labels ->
  exists i,
    list_index labels label = Ok i /\
    nth_error labels i = Some label /\
    forall j, (j < i)%nat -> nth_error labels j <> Some label.
Proof.
  induction labels as [|l rest IH]; intros Hin; [destruct Hin|].
  cbn [list_index]. destruct (String.eqb_spec l label) as [->|Hne].
  - exists 0%nat. split; [reflexivity|]. split; [reflexivity|]. intros j Hj. lia.
  - destruct Hin as [E|Hin]; [contradiction|].
    destruct (IH Hin) as (i & Hi & Hn & Hmin). rewrite Hi. cbn [bind].
    exists (S i). split; [reflexivity|]. split; [exact Hn|].
    intros [|j] Hj; simpl; [congruence|]. apply Hmin. lia.
Qed.

(** X18. The legend pairs every distinct label with the first artist drawn
    under that label: the list comprehension never fails, and entry
    [k] is the handle at the first position where [labels] holds the
    [k]-th unique label. *)
Theorem legend_handles (handles : list handle) (labels unique_labels : list string) :
  length handles = length labels ->
  (forall label, In label unique_labels -> In label labels) ->
  exists hs,
    unique_handles handles labels unique_labels = Ok hs /\
    length hs = length unique_labels /\
    forall k label, nth_error unique_labels k = Some label ->
      exists i,
        nth_error hs k = nth_error handles i /\
        nth_error labels i = Some label /\
        (i < length handles)%nat /\
        forall j, (j < i)%nat -> nth_error labels j <> Some label.
Proof.
  intros Hlen. induction unique_labels as [|label rest IH]; intros Hsub.
  - exists []. split; [reflexivity|]. split; [reflexivity|].
    intros [|k] l H; discriminate.
  - destruct (list_index_found labels label (Hsub label (or_introl eq_refl)))
      as (i & Hi & Hn & Hmin).
    assert (Hlt : (i < length handles)%nat)
      by (rewrite Hlen; apply nth_error_Some; congruence).
    destruct (nth_error handles i) as [h|] eqn:Eh.
    2:{ apply nth_error_None in Eh. lia. }
    destruct IH as (hs & Hhs & Hl & Hall).
    { intros l Hl. apply Hsub. right. exact Hl. }
    exists (h :: hs). cbn [unique_handles]. rewrite Hi. cbn [bind].
    rewrite (getitem_nth handles i h Eh). cbn [bind]. rewrite Hhs. cbn [bind].
    split; [reflexivity|]. split; [simpl; rewrite Hl; reflexivity|].
    intros [|k] l Hk.
    + injection Hk as <-. exists i. simpl. rewrite Eh.
      split; [reflexivity|]. split; [exact Hn|]. split; [exact Hlt|exact Hmin].
    + simpl in Hk. simpl. apply Hall. exact Hk.
Qed.

End HandleFacts.

Lemma legend_handles_witness :
  LsrWarnings.unique_handles [1; 2; 3]%nat
    ["Wind Report"; "Hail Report"; "Wind Report"]%string
    ["Hail Report"; "Wind Report"]%string
  = Ok [2; 1]%nat.
Proof.
  destruct (legend_handles [1; 2; 3]%nat
              ["Wind Report"; "Hail Report"; "Wind Report"]%string
              ["Hail Report"; "Wind Report"]%string) as (hs & H & _).
  - reflexivity.
  - simpl. intros label [<-|[<-|[]]]; tauto.
  - rewrite H. vm_compute in H. congruence.
Defined.
